(** * Asset pack unpacker: a shallow embedding of [src/__init__.py]

    The development follows the Python module top to bottom: the byte and
    string primitives the module calls ([bytes.startswith], [bytes.replace],
    [str.split], [posixpath.join], [posixpath.relpath]), a small model of
    Python values, a POSIX-like file system, then [AssetPack],
    [AssetPackEmulator] and the properties of the specification. *)

From Stdlib Require Import ZArith List Strings.String Strings.Ascii Strings.Byte Lia Bool.
From stdpp Require Import base option list gmap strings.

Import ListNotations.
Local Open Scope string_scope.
#[local] Set Warnings "-register-all".
Local Open Scope list_scope.

(** ** Bytes *)

Abbreviation bytes := (list byte).

#[global] Instance byte_eq_dec : EqDecision byte := Byte.byte_eq_dec.

Module Bytes.

(** [b.startswith(prefix)] *)
Fixpoint startswith (b pre : bytes) {struct pre} : bool :=
  match pre, b with
  | [], _ => true
  | p :: ps, x :: xs => bool_decide (p = x) && startswith xs ps
  | _ :: _, [] => false
  end.

(** The scan behind [b.replace(old, new)] for a non-empty [old]:
    occurrences are found from the left and do not overlap. [skip] counts
    the bytes of the occurrence just replaced that are still to be passed
    over. *)
Fixpoint replace_from (old new : bytes) (skip : nat) (b : bytes) : bytes :=
  match b with
  | [] => []
  | x :: t =>
      match skip with
      | S k => replace_from old new k t
      | O =>
          if startswith b old
          then new ++ replace_from old new (length old - 1) t
          else x :: replace_from old new 0 t
      end
  end.

(** [b.replace(old, new)]; an empty [old] matches between any two bytes. *)
Definition replace (old new b : bytes) : bytes :=
  match old with
  | [] => new ++ flat_map (fun x => x :: new) b
  | _ :: _ => replace_from old new 0 b
  end.

(** The byte at position [i] lies inside an occurrence of [pat] in [b]:
    some occurrence starts at most [length pat - 1] positions before it. *)
Definition occurs_at (pat b : bytes) (j : nat) : bool :=
  startswith (drop j b) pat.

Definition covered (pat b : bytes) (i : nat) : bool :=
  existsb (fun d => (d <=? i)%nat && occurs_at pat b (i - d)) (seq 0 (length pat)).

(** What is left of [b] once every occurrence of [pat] is taken out. *)
Definition strip_occurrences (pat b : bytes) : bytes :=
  map snd (List.filter (fun ix => negb (covered pat b (fst ix)))
                  (combine (seq 0 (length b)) b)).

End Bytes.

(** The archive header, [b'!PACKED\n']: the seven characters and a line feed. *)
Definition marker : bytes := [x21; x50; x41; x43; x4b; x45; x44; x0a].

(** ** Strings *)

Module Str.

(** [s.split(sep)] for a one-character separator. *)
Fixpoint split (sep : ascii) (s : string) : list string :=
  match s with
  | EmptyString => [EmptyString]
  | String c t =>
      if bool_decide (c = sep) then EmptyString :: split sep t
      else match split sep t with
           | [] => [String c EmptyString]
           | h :: r => String c h :: r
           end
  end.

Definition startswith_char (c : ascii) (s : string) : bool :=
  match s with
  | String a _ => bool_decide (a = c)
  | EmptyString => false
  end.

Fixpoint endswith_char (c : ascii) (s : string) : bool :=
  match s with
  | EmptyString => false
  | String a EmptyString => bool_decide (a = c)
  | String _ t => endswith_char c t
  end.

Fixpoint contains_char (c : ascii) (s : string) : bool :=
  match s with
  | EmptyString => false
  | String a t => bool_decide (a = c) || contains_char c t
  end.

(** [sep.join(parts)] *)
Fixpoint join (sep : string) (parts : list string) : string :=
  match parts with
  | [] => ""
  | [p] => p
  | p :: rest => p +:+ sep +:+ join sep rest
  end.

(** [list(s)]: the one-character strings of [s], as iteration yields them. *)
Fixpoint chars (s : string) : list string :=
  match s with
  | EmptyString => []
  | String c t => String c EmptyString :: chars t
  end.

End Str.

Definition slash : ascii := "/"%char.
Definition dot : ascii := "."%char.
Definition nul : ascii := Ascii.zero.

(** ** Python values

    The fragment of Python data that a decoded archive is made of. A [dict]
    keeps its insertion order, which [keys()] and [items()] follow, so it is
    an association list; lookup takes the first binding of the key. *)

Inductive pykey :=
| KNone
| KInt (z : Z)
| KStr (s : string)
| KBytes (b : bytes).

Inductive pyval :=
| PyNone
| PyInt (z : Z)
| PyStr (s : string)
| PyBytes (b : bytes)
| PyList (l : list pyval)
| PyDict (d : list (pykey * pyval)).

#[global] Instance pykey_eq_dec : EqDecision pykey.
Proof. solve_decision. Defined.

Definition val_of_key (k : pykey) : pyval :=
  match k with
  | KNone => PyNone
  | KInt z => PyInt z
  | KStr s => PyStr s
  | KBytes b => PyBytes b
  end.

(** Exceptions. The classes the module can raise itself or through the
    built-ins it calls; [OSError] stands for the whole family raised by the
    file system ([FileNotFoundError], [IsADirectoryError], ...), and
    [LibError] for whatever a library collaborator raises. *)
Inductive exn :=
| MissingHeaderException (msg : string)
| KeyError (k : pykey)
| TypeError
| AttributeError
| ValueError
| OSError
| LibError (tag : string).

Inductive res (A : Type) :=
| Ok (a : A)
| Raise (e : exn).
Arguments Ok {A} a.
Arguments Raise {A} e.

Definition dict_get (d : list (pykey * pyval)) (k : pykey) : option pyval :=
  snd <$> find (fun kv => bool_decide (fst kv = k)) d.

(** [v[k]] *)
Definition subscript (v : pyval) (k : pykey) : res pyval :=
  match v with
  | PyDict d =>
      match dict_get d k with
      | Some x => Ok x
      | None => Raise (KeyError k)
      end
  | _ => Raise TypeError
  end.

(** [v.keys()] and [v.items()]: only a [dict] has them. *)
Definition py_keys (v : pyval) : res (list pykey) :=
  match v with
  | PyDict d => Ok (map fst d)
  | _ => Raise AttributeError
  end.

Definition py_items (v : pyval) : res (list (pykey * pyval)) :=
  match v with
  | PyDict d => Ok d
  | _ => Raise AttributeError
  end.

(** [for x in v] *)
Definition py_iter (v : pyval) : res (list pyval) :=
  match v with
  | PyList l => Ok l
  | PyDict d => Ok (map (fun kv => val_of_key (fst kv)) d)
  | PyStr s => Ok (map PyStr (Str.chars s))
  | PyBytes b => Ok (map (fun x => PyInt (Z.of_N (Byte.to_N x))) b)
  | PyNone | PyInt _ => Raise TypeError
  end.

(** [k.split('/')] on a dictionary key. *)
Definition key_split (k : pykey) : res (list string) :=
  match k with
  | KStr s => Ok (Str.split slash s)
  | KBytes _ => Raise TypeError
  | KNone | KInt _ => Raise AttributeError
  end.

(** [k + '/' + f] *)
Definition key_concat (k : pykey) (f : pyval) : res string :=
  match k, f with
  | KStr s, PyStr t => Ok (s +:+ "/" +:+ t)
  | _, _ => Raise TypeError
  end.

(** ** [posixpath] *)

Module Posixpath.

(** One step of [posixpath.join(a, *ps)]: a component that starts with a
    slash discards what precedes it; a separator is put in unless the path so
    far is empty or already ends with one. *)
Definition join2 (path b : string) : string :=
  if Str.startswith_char slash b then b
  else if bool_decide (path = "") || Str.endswith_char slash path then path +:+ b
  else path +:+ "/" +:+ b.

Definition join (a : string) (ps : list string) : string :=
  fold_left join2 ps a.

Definition isabs (p : string) : bool := Str.startswith_char slash p.

(** One component of a path walked from the directory [cur]. *)
Definition step (cur : list string) (c : string) : list string :=
  if bool_decide (c = "") || bool_decide (c = ".") then cur
  else if bool_decide (c = "..") then removelast cur
  else cur ++ [c].

(** The components of [abspath(p)]: [normpath] of the path joined to the
    working directory, which is absolute, so that no [..] survives. *)
Definition abs_components (cwd : list string) (p : string) : list string :=
  fold_left step (Str.split slash p) (if isabs p then [] else cwd).

Fixpoint commonprefix (a b : list string) : list string :=
  match a, b with
  | x :: a', y :: b' => if bool_decide (x = y) then x :: commonprefix a' b' else []
  | _, _ => []
  end.

(** [posixpath.relpath(path, start)] *)
Definition relpath (cwd : list string) (path start : string) : res string :=
  if bool_decide (path = "") then Raise ValueError
  else
    let start_list := abs_components cwd start in
    let path_list := abs_components cwd path in
    let i := length (commonprefix start_list path_list) in
    let rel_list := replicate (length start_list - i) ".." ++ drop i path_list in
    match rel_list with
    | [] => Ok "."
    | r :: rest => Ok (join r rest)
    end.

(** [p[:p.rfind('/') + 1]]: the path up to its last slash, the slash
    included; nothing when there is no slash. *)
Fixpoint upto_last_slash (p : string) : string :=
  match p with
  | EmptyString => EmptyString
  | String c t =>
      if Str.contains_char slash t then String c (upto_last_slash t)
      else if bool_decide (c = slash) then String c EmptyString
      else EmptyString
  end.

Fixpoint all_slashes (p : string) : bool :=
  match p with
  | EmptyString => true
  | String c t => bool_decide (c = slash) && all_slashes t
  end.

(** [p.rstrip('/')] *)
Fixpoint rstrip_slashes (p : string) : string :=
  match p with
  | EmptyString => EmptyString
  | String c t =>
      match rstrip_slashes t with
      | EmptyString => if bool_decide (c = slash) then EmptyString else String c EmptyString
      | r => String c r
      end
  end.

(** [posixpath.dirname(p)] *)
Definition dirname (p : string) : string :=
  let head := upto_last_slash p in
  if negb (bool_decide (head = "")) && negb (all_slashes head)
  then rstrip_slashes head
  else head.

(** [l.rfind(c)]: the index of the last [c], if there is one. *)
Fixpoint rfind (c : ascii) (l : list ascii) : option nat :=
  match l with
  | [] => None
  | x :: t =>
      match rfind c t with
      | Some i => Some (S i)
      | None => if bool_decide (x = c) then Some 0 else None
      end
  end.

(** [posixpath.splitext(p)[0]]: the path without its extension. The
    extension starts at the last dot when that dot comes after the last
    slash and some character of the file name before it is not a dot. *)
Definition splitext_root (p : string) : string :=
  let cs := list_ascii_of_string p in
  let filenameIndex :=
    match rfind slash cs with
    | Some i => S i
    | None => 0
    end in
  match rfind dot cs with
  | Some dotIndex =>
      if Nat.leb filenameIndex dotIndex
         && existsb (fun c => negb (bool_decide (c = dot)))
                    (take (dotIndex - filenameIndex) (drop filenameIndex cs))
      then string_of_list_ascii (take dotIndex cs)
      else p
  | None => p
  end.

End Posixpath.

(** ** The world: file system, open streams, and a trace of the calls made
    to the library collaborators *)

Inductive node :=
| File (data : bytes)
| Dir.

(** A readable and writable in-memory stream ([BytesIO], or the object a
    temporary file or [open] gives): its buffer, its cursor and its [name]
    attribute when it has one. *)
Record stream := mkStream {
  s_buf : bytes;
  s_pos : nat;
  s_name : option pyval
}.

Inductive event :=
| EvDecompress (b : bytes)
| EvEval (text : string)
| EvTqdm (total : nat)
| EvUpdate (n : nat)
| EvTemporaryFile (pre suf : string).

Record world := mkWorld {
  fs : gmap (list string) node;
  cwd : list string;
  heap : gmap nat stream;
  log : list event
}.

Definition set_fs (f : gmap (list string) node) (w : world) : world :=
  mkWorld f (cwd w) (heap w) (log w).
Definition set_heap (h : gmap nat stream) (w : world) : world :=
  mkWorld (fs w) (cwd w) h (log w).
Definition add_log (e : event) (w : world) : world :=
  mkWorld (fs w) (cwd w) (heap w) (log w ++ [e]).

(** State and exceptions: a computation runs in a world and either returns
    or raises; the world it leaves behind is kept in both cases. *)
Definition M (A : Type) : Type := world -> res A * world.

Definition ret {A} (a : A) : M A := fun w => (Ok a, w).
Definition raise {A} (e : exn) : M A := fun w => (Raise e, w).
Definition bind {A B} (m : M A) (k : A -> M B) : M B :=
  fun w => match m w with
           | (Ok a, w') => k a w'
           | (Raise e, w') => (Raise e, w')
           end.
Definition lift {A} (r : res A) : M A := fun w => (r, w).
Definition emit (e : event) : M unit := fun w => (Ok tt, add_log e w).

(** A collaborator that is free to change the world: what it does to the
    file system, the working directory and the streams is kept; the trace
    records the calls of the module and is not its to write. *)
Definition untraced {A} (m : M A) : M A :=
  fun w => (fst (m w), mkWorld (fs (snd (m w))) (cwd (snd (m w))) (heap (snd (m w))) (log w)).

Declare Scope py_scope.
Delimit Scope py_scope with py.
Notation "'let*' x := m 'in' k" := (bind m (fun x => k))
  (at level 10, x name, m at level 100, k at level 200) : py_scope.
Notation "m >> k" := (bind m (fun _ => k))
  (at level 100, k at level 200, right associativity) : py_scope.
Local Open Scope py_scope.

(** [for x in l: body x] *)
Fixpoint for_each {A} (l : list A) (body : A -> M unit) : M unit :=
  match l with
  | [] => ret tt
  | x :: rest => body x >> for_each rest body
  end.

Module FS.

Definition node_at (f : gmap (list string) node) (p : list string) : option node :=
  match p with
  | [] => Some Dir
  | _ => f !! p
  end.

Definition is_dir (f : gmap (list string) node) (p : list string) : bool :=
  match node_at f p with
  | Some Dir => true
  | _ => false
  end.

Definition is_file (f : gmap (list string) node) (p : list string) : bool :=
  match node_at f p with
  | Some (File _) => true
  | _ => false
  end.

(** The limits of Linux on the bytes of a name and of a path (the latter
    counts the terminating zero). *)
Definition NAME_MAX : N := 255.
Definition PATH_MAX : N := 4096.

(** A path Python does not hand to the operating system: it holds a zero
    byte. *)
Definition has_nul (p : string) : bool := Str.contains_char nul p.

(** Every name of the path and the path itself are within the limits. *)
Definition fits (p : string) : bool :=
  forallb (fun c => (N.of_nat (String.length c) <=? NAME_MAX)%N) (Str.split slash p)
  && (N.of_nat (String.length p) <? PATH_MAX)%N.

(** What a call on the path [p] raises before anything is looked up:
    [ValueError] for an embedded zero byte, [OSError] ([ENAMETOOLONG]) for a
    name or a path that is too long. *)
Definition refused (p : string) : option exn :=
  if has_nul p then Some ValueError
  else if fits p then None
  else Some OSError.

(** Path resolution: every component is looked up in a directory. The
    node reached need not exist. *)
Fixpoint resolve (f : gmap (list string) node) (cur : list string)
         (comps : list string) : option (list string) :=
  match comps with
  | [] => Some cur
  | c :: rest =>
      if is_dir f cur then resolve f (Posixpath.step cur c) rest else None
  end.

Definition start (w : world) (p : string) : list string :=
  if Posixpath.isabs p then [] else cwd w.

Definition locate (w : world) (p : string) : option (list string) :=
  if bool_decide (p = "") then None
  else resolve (fs w) (start w p) (Str.split slash p).

(** [open(p, 'rb').read()] *)
Definition read_file (p : string) : M bytes :=
  fun w => match refused p with
           | Some e => (Raise e, w)
           | None =>
               match locate w p with
               | Some t =>
                   match node_at (fs w) t with
                   | Some (File d) => (Ok d, w)
                   | _ => (Raise OSError, w)
                   end
               | None => (Raise OSError, w)
               end
           end.

(** The bytes of the components [rest] and of the slashes before them. *)
Definition rest_len (rest : list string) : nat :=
  fold_right (fun c n => S (String.length c + n)) 0 rest.

(** The length of the name [os.makedirs] hands to [mkdir] at a component
    followed by [rest], in a path of [total] bytes: the path up to that
    component, or the whole path, slashes at its end included, when no
    name comes after it. *)
Definition name_len (total : nat) (rest : list string) : nat :=
  if forallb (fun c => bool_decide (c = "")) rest then total
  else total - rest_len rest.

Definition dotty (c : string) : bool := bool_decide (c = "") || bool_decide (c = ".").

(** What is left of a path where the walk stands at something that is no
    directory. [mkdir] raises for the first component that is not empty:
    [ValueError] for a zero byte, [OSError] otherwise. When the walk has
    made a directory and stands at a file ([quirk]), [os.makedirs] has
    passed over the [FileExistsError] of that file and calls no [mkdir] for
    a component [.]: such components are passed first, and with one of them
    ([seen]) and no name after it the call returns. *)
Fixpoint blocked (quirk seen : bool) (comps : list string) : res unit :=
  match comps with
  | [] => if seen then Ok tt else Raise OSError
  | c :: rest =>
      if bool_decide (c = "") then blocked quirk seen rest
      else if quirk && bool_decide (c = ".") then blocked quirk true rest
      else if has_nul c then Raise ValueError
      else Raise OSError
  end.

(** The walk of [os.makedirs(p, exist_ok=True)], component by component.
    Missing directories are made on the way and stay when a later
    component fails. [made] tells that the walk has made a directory: the
    names from there on did not exist when the call began, so
    [os.makedirs] has recursed for them. It then does not call [mkdir] for
    a component [.], and it passes over the [FileExistsError] of a name
    that has turned out to be a file (which a [..] after a new directory
    can lead to); see [blocked]. *)
Fixpoint mkdirs (f : gmap (list string) node) (made : bool) (cur : list string)
         (total : nat) (comps : list string) : gmap (list string) node * res unit :=
  match comps with
  | [] => (f, if is_dir f cur then Ok tt else Raise OSError)
  | c :: rest =>
      if is_dir f cur then
        if has_nul c then (f, Raise ValueError)
        else if bool_decide (c = "") then mkdirs f made cur total rest
        else if bool_decide (c = ".") then
          if made || (N.of_nat (name_len total rest) <? PATH_MAX)%N
          then mkdirs f made cur total rest
          else (f, Raise OSError)
        else if (NAME_MAX <? N.of_nat (String.length c))%N
                || (PATH_MAX <=? N.of_nat (name_len total rest))%N
        then (f, Raise OSError)
        else
          let nxt := Posixpath.step cur c in
          match node_at f nxt with
          | None => mkdirs (<[nxt := Dir]> f) true nxt total rest
          | Some _ => mkdirs f made nxt total rest
          end
      else (f, blocked (made && is_file f cur) false comps)
  end.

Definition makedirs (p : string) : M unit :=
  fun w => if bool_decide (p = "") then (Raise OSError, w)
           else
             let fr := mkdirs (fs w) false (start w p) (String.length p) (Str.split slash p) in
             (snd fr, set_fs (fst fr) w).

Definition is_name (c : string) : bool :=
  negb (bool_decide (c = "") || bool_decide (c = ".") || bool_decide (c = "..")).

(** [open(p, 'wb')]: the file is created, or emptied when it exists; the
    place it was opened at is returned. *)
Definition open_wb (p : string) : M (list string) :=
  fun w => match refused p with
           | Some e => (Raise e, w)
           | None =>
               match locate w p with
               | Some t =>
                   if is_name (List.last (Str.split slash p) "") then
                     match node_at (fs w) t with
                     | Some Dir => (Raise OSError, w)
                     | _ => (Ok t, set_fs (<[t := File []]> (fs w)) w)
                     end
                   else (Raise OSError, w)
               | None => (Raise OSError, w)
               end
           end.

(** [os.path.isdir(p)]: false also where the path is refused. *)
Definition is_directory (p : string) (w : world) : bool :=
  match refused p with
  | Some _ => false
  | None =>
      match locate w p with
      | Some t => is_dir (fs w) t
      | None => false
      end
  end.

(** [os.path.exists(p)] *)
Definition exists_ (p : string) (w : world) : bool :=
  match refused p with
  | Some _ => false
  | None =>
      match locate w p with
      | Some t => bool_decide (node_at (fs w) t <> None)
      | None => false
      end
  end.

(** [f.write(data)] on a file opened by [open_wb], then closing it. *)
Definition write_at (t : list string) (data : bytes) : M unit :=
  fun w => (Ok tt, set_fs (<[t := File data]> (fs w)) w).

End FS.

(** An ordinary name as a path component: not empty, not [.] or [..], and
    without a slash. *)
Definition plain (c : string) : bool :=
  FS.is_name c && negb (Str.contains_char slash c).

(** Stream objects live in the heap; each call that makes one takes a new
    address. *)
Module Stream.

Definition alloc (s : stream) : M nat :=
  fun w => let h := fresh (dom (heap w)) in
           (Ok h, set_heap (<[h := s]> (heap w)) w).

(** [s.read()]: the bytes from the cursor to the end; the cursor moves to
    the end. A handle that is not open is a closed file. *)
Definition read (h : nat) : M bytes :=
  fun w => match heap w !! h with
           | Some s =>
               (Ok (drop (s_pos s) (s_buf s)),
                set_heap (<[h := mkStream (s_buf s) (max (s_pos s) (length (s_buf s))) (s_name s)]> (heap w)) w)
           | None => (Raise ValueError, w)
           end.

(** [s.write(data)]: overwrite from the cursor on, padding with zero bytes
    when the cursor is past the end. *)
Definition write (h : nat) (data : bytes) : M unit :=
  fun w => match heap w !! h with
           | Some s =>
               let pre := take (s_pos s) (s_buf s) ++ replicate (s_pos s - length (s_buf s)) x00 in
               let post := drop (s_pos s + length data) (s_buf s) in
               (Ok tt,
                set_heap (<[h := mkStream (pre ++ data ++ post) (s_pos s + length data) (s_name s)]> (heap w)) w)
           | None => (Raise ValueError, w)
           end.

(** [s.name] *)
Definition name (h : nat) : M pyval :=
  fun w => match heap w !! h with
           | Some s =>
               match s_name s with
               | Some n => (Ok n, w)
               | None => (Raise AttributeError, w)
               end
           | None => (Raise AttributeError, w)
           end.

End Stream.

(** ** [class AssetPack] *)

Record AssetPack := mkPack {
  path : pyval;
  tree : pyval;
  dirinfo : pyval
}.

(** What [__init__] is given as [file]: a [str], a [PathLike] (with the
    string [str()] makes of it), a stream object in the heap, or a value
    that is none of these. *)
Inductive pyarg :=
| AStr (s : string)
| APathLike (s : string)
| AObj (h : nat)
| AVal (v : pyval).

Definition dquote : string := String (ascii_of_nat 34) EmptyString.

Definition missing_header_msg : string :=
  "file doesn't start with " +:+ dquote +:+ "!PACKED" +:+ dquote.

(** [BytesIO(v)] *)
Definition BytesIO (v : pyval) : M nat :=
  match v with
  | PyBytes b => Stream.alloc (mkStream b 0 None)
  | PyNone => Stream.alloc (mkStream [] 0 None)
  | _ => raise TypeError
  end.

(** The index of the first [k] in [l], as [l.index(k)] finds it. *)
Fixpoint index_of (k : pykey) (l : list pykey) : nat :=
  match l with
  | [] => 0
  | x :: rest => if bool_decide (x = k) then 0 else S (index_of k rest)
  end.

Section Collaborators.

(** The library calls the module leaves to others: [gzip.decompress],
    [bytes.decode], [eval] and [tempfile.TemporaryFile] (which gives the
    [name] of the file object it made, or raises). [eval] runs the text of
    the archive as code: it gives a value or raises, and on the way it may
    change the file system, the working directory and the streams that are
    open, the one the archive is read from included ([file] is in its
    scope). The object being built is not in the world: a text that reads
    or assigns the attributes of [self] is outside this model. *)
Variable gzip_decompress : bytes -> res bytes.
Variable bytes_decode : bytes -> res string.
Variable py_eval : string -> M pyval.
Variable TemporaryFile : string -> string -> res pyval.

(** Lines 26 to 32: the content of the source and the path kept for
    [reload]. *)
Definition read_source (file : pyarg) : M (bytes * pyval) :=
  match file with
  | AStr s | APathLike s =>
      let* content := FS.read_file s in
      ret (content, PyStr s)
  | AObj h =>
      let* content := Stream.read h in
      let* n := Stream.name h in
      ret (content, n)
  | AVal _ => raise AttributeError
  end.

(** Lines 34 to 39: header check, decompression, evaluation. *)
Definition dirdict (content : bytes) : M pyval :=
  if negb (Bytes.startswith content marker)
  then raise (MissingHeaderException missing_header_msg)
  else
    let content := Bytes.replace marker [] content in
    emit (EvDecompress content) >>
    let* raw := lift (gzip_decompress content) in
    let* text := lift (bytes_decode raw) in
    emit (EvEval text) >>
    untraced (py_eval text).

(** The world [eval] leaves, with the trace of the module. *)
Definition evaluated (text : string) (w : world) : world :=
  snd (untraced (py_eval text) w).

(** Lines 34 to 42 on a new object whose [path] is [p]. *)
Definition decode (p : pyval) (content : bytes) : M AssetPack :=
  let* v := dirdict content in
  let* t := lift (subscript v (KStr "tree")) in
  let* d := lift (subscript v (KStr "dirinfo")) in
  ret (mkPack p t d).

(** [AssetPack.__init__]. The body does not read its second parameter,
    [emulated], so it is no argument here. *)
Definition init (file : pyarg) : M AssetPack :=
  let* cp := read_source file in
  decode (snd cp) (fst cp).

(** [AssetPack.getfile] *)
Definition getfile (self : AssetPack) (filepath : string) : M nat :=
  let* v := lift (subscript (tree self) (KStr filepath)) in
  BytesIO v.

(** [AssetPack.getDir] *)
Definition getDir (self : AssetPack) : pyval := dirinfo self.

(** Lines 34 to 42 on an object that has its fields already: line 41
    assigns [tree] and line 42 [dirinfo], so that an error of line 42
    leaves the new [tree] beside the old [dirinfo]. The object is given as
    it is left, whether the lines return or raise. *)
Definition assign (self : AssetPack) (content : bytes)
  : world -> (res unit * AssetPack) * world :=
  fun w =>
    match dirdict content w with
    | (Raise e, w1) => (Raise e, self, w1)
    | (Ok v, w1) =>
        match subscript v (KStr "tree") with
        | Raise e => (Raise e, self, w1)
        | Ok t =>
            match subscript v (KStr "dirinfo") with
            | Raise e => (Raise e, mkPack (path self) t (dirinfo self), w1)
            | Ok d => (Ok tt, mkPack (path self) t d, w1)
            end
        end
    end.

(** [AssetPack.reload]: [self.__init__(self.path)], on the object itself.
    A path that is a [str] is opened and read (line 27 assigns it to
    [self.path] again); any other value, such as the descriptor of a
    temporary file, is neither [PathLike] nor [str] and has no [read]
    (line 31). *)
Definition reload (self : AssetPack) : world -> (res unit * AssetPack) * world :=
  fun w =>
    match path self with
    | PyStr s =>
        match FS.read_file s w with
        | (Raise e, w1) => (Raise e, self, w1)
        | (Ok content, w1) => assign self content w1
        end
    | _ => (Raise AttributeError, self, w)
    end.

(** [AssetPack.exportfile] *)
Definition exportfile (self : AssetPack) (packpath exp_path : string) : M unit :=
  let* expfile := FS.open_wb exp_path in
  let* h := getfile self packpath in
  let* data := Stream.read h in
  FS.write_at expfile data.

(** [path.join(epath, *parts, name)] where [name] comes from the archive:
    [join] takes only strings. *)
Definition join_name (epath : string) (parts : list string) (name : pyval) : res string :=
  match name with
  | PyStr n => Ok (Posixpath.join epath (parts ++ [n]))
  | _ => Raise TypeError
  end.

(** The body of the loop of [extract] for one item of [dirinfo]. *)
Definition extract_item (self : AssetPack) (epath : string) (keys : list pykey)
           (kv : pykey * pyval) : M unit :=
  let key := fst kv in
  let value := snd kv in
  let* parts := lift (key_split key) in
  FS.makedirs (Posixpath.join epath parts) >>
  let* files := lift (subscript value (KStr "files")) in
  let* dirs := lift (subscript value (KStr "dirs")) in
  let* dirs_l := lift (py_iter dirs) in
  for_each dirs_l (fun dir =>
    let* p := lift (join_name epath parts dir) in
    FS.makedirs p) >>
  let* files_l := lift (py_iter files) in
  for_each files_l (fun file =>
    let* packpath := lift (key_concat key file) in
    let* p := lift (join_name epath parts file) in
    exportfile self packpath p) >>
  emit (EvUpdate (index_of key keys + 1)).

(** [AssetPack.extract] *)
Definition extract (self : AssetPack) (epath : string) : M unit :=
  let* keys := lift (py_keys (getDir self)) in
  emit (EvTqdm (length keys)) >>
  let* items := lift (py_items (getDir self)) in
  for_each items (extract_item self epath keys).

(** [AssetPack.listobjects] and [AssetPack.getDirList]; [list(d.keys())]
    of something without [keys] raises. *)
Definition listobjects (self : AssetPack) : res (list pykey) := py_keys (tree self).
Definition getDirList (self : AssetPack) : res (list pykey) := py_keys (dirinfo self).

(** [AssetPack.exportToTempfile] *)
Definition exportToTempfile (self : AssetPack) (packpath : string) : M nat :=
  let suffix := "." +:+ List.last (Str.split dot packpath) "" in
  emit (EvTemporaryFile "AssetPackTempFile" suffix) >>
  let* n := lift (TemporaryFile "AssetPackTempFile" suffix) in
  let* f := Stream.alloc (mkStream [] 0 (Some n)) in
  let* h := getfile self packpath in
  let* data := Stream.read h in
  Stream.write f data >>
  ret f.

End Collaborators.

(** ** [class AssetPackEmulator] *)

Record AssetPackEmulator := mkEmulator { basefolder : string }.

Module Emulator.

(** The path [getfile] opens. *)
Definition resolved (self : AssetPackEmulator) (cwd : list string) (filepath : string) : res string :=
  match Posixpath.relpath cwd filepath "resources" with
  | Ok rel => Ok (Posixpath.join (basefolder self) (Str.split slash rel))
  | Raise e => Raise e
  end.

(** [AssetPackEmulator.getfile] *)
Definition getfile (self : AssetPackEmulator) (filepath : string) : M nat :=
  let* p := (fun w => (resolved self (cwd w) filepath, w)) in
  let* content := FS.read_file p in
  Stream.alloc (mkStream content 0 (Some (PyStr p))).

End Emulator.

(** ** [AssetPackWrapper] and [class StreamingAssetPack] *)

Section Wrappers.

Variable gzip_decompress : bytes -> res bytes.
Variable bytes_decode : bytes -> res string.
Variable py_eval : string -> M pyval.

(** [tempfile.TemporaryDirectory(prefix=...)]: the directory is made and its
    [name] is given. *)
Variable TemporaryDirectory : string -> M string.

(** [AssetPackWrapper]: [resourcepath] is [None] or a string. *)
Definition AssetPackWrapper (pack : string) (frozen : bool) (resourcepath : option string)
  : M (AssetPack + AssetPackEmulator) :=
  if frozen then
    let* a := init gzip_decompress bytes_decode py_eval (AStr pack) in
    ret (inl a)
  else
    let resourcepath_ :=
      match resourcepath with
      | Some r => r
      | None => Posixpath.dirname pack
      end in
    ret (inr (mkEmulator resourcepath_)).

Record StreamingAssetPack := mkStreaming {
  assetpack : AssetPack;
  tempdir : string
}.

(** [StreamingAssetPack.__init__] *)
Definition streaming_init (file : pyarg) : M StreamingAssetPack :=
  let* a := init gzip_decompress bytes_decode py_eval file in
  let* name := TemporaryDirectory "assets.packed_streaming_pack_" in
  extract a name >>
  ret (mkStreaming a name).

End Wrappers.

(** ** [AssetPack.extract_tozip] *)

Section ZipExport.

(** [TemporaryDirectory(prefix=...)] used as a context manager: entering
    gives the name of the directory made, leaving calls [cleanup]. *)
Variable TemporaryDirectory : string -> M string.
Variable cleanup : string -> M unit.

(** [shutil.make_archive(base_name, format, root_dir)] *)
Variable make_archive : string -> string -> string -> M string.

(** [with mgr as x: body]: the manager is left when the body has returned
    and when it has raised; an error of the body is raised again unless
    leaving raises one of its own. *)
Definition with_tempdir {A} (pre : string) (body : string -> M A) : M A :=
  let* tempdir := TemporaryDirectory pre in
  fun w =>
    match body tempdir w with
    | (Ok a, w1) =>
        match cleanup tempdir w1 with
        | (Ok _, w2) => (Ok a, w2)
        | (Raise e, w2) => (Raise e, w2)
        end
    | (Raise e, w1) =>
        match cleanup tempdir w1 with
        | (Ok _, w2) => (Raise e, w2)
        | (Raise e', w2) => (Raise e', w2)
        end
    end.

Definition extract_tozip (self : AssetPack) (efile : string) : M unit :=
  with_tempdir "assets.packed_zipexport_" (fun tempdir =>
    extract self tempdir >>
    make_archive (Posixpath.splitext_root efile) "zip" tempdir >>
    ret tt).

End ZipExport.

Section StreamingExit.

Variable cleanup : string -> M unit.

(** [TemporaryDirectory.__exit__(self, exc, value, tb)], whose body is
    [self.cleanup()]: a call that does not give the three arguments raises
    [TypeError] before the body is run. *)
Definition tempdir_exit (name : string) (args : list pyval) : M unit :=
  match args with
  | [_; _; _] => cleanup name
  | _ => raise TypeError
  end.

(** [StreamingAssetPack.__exit__(self)]: [self.tempdir.__exit__()] *)
Definition streaming_exit (self : StreamingAssetPack) : M unit :=
  tempdir_exit (tempdir self) [].

End StreamingExit.

(** ** Archives as the specification describes them

    [tree] maps asset paths to bytes, [dirinfo] maps directory paths to the
    names of the files and of the subdirectories in them. *)

Record dir_entry := mkEntry {
  files : list string;
  dirs : list string
}.

Definition py_of_tree (t : list (string * bytes)) : pyval :=
  PyDict (map (fun kv => (KStr (fst kv), PyBytes (snd kv))) t).

Definition py_of_entry (e : dir_entry) : pyval :=
  PyDict [(KStr "files", PyList (map PyStr (files e)));
          (KStr "dirs", PyList (map PyStr (dirs e)))].

Definition py_of_dirinfo (d : list (string * dir_entry)) : pyval :=
  PyDict (map (fun kv => (KStr (fst kv), py_of_entry (snd kv))) d).

Definition py_of_archive (t : list (string * bytes)) (d : list (string * dir_entry)) : pyval :=
  PyDict [(KStr "tree", py_of_tree t); (KStr "dirinfo", py_of_dirinfo d)].

(** [t[k]] for a key that is there. *)
Definition tree_get (t : list (string * bytes)) (k : string) : option bytes :=
  snd <$> find (fun kv => bool_decide (fst kv = k)) t.

(** Every file listed in [dirinfo] is an asset of [tree] (section 3 of the
    specification). *)
Definition self_consistent (t : list (string * bytes)) (d : list (string * dir_entry)) : bool :=
  forallb (fun kv =>
    forallb (fun file =>
      match tree_get t (fst kv +:+ "/" +:+ file) with
      | Some _ => true
      | None => false
      end) (files (snd kv))) d.

(** Names as a packer writes them: a directory path is empty (the root) or
    made of plain names, and file and subdirectory names are plain. *)
Definition key_ok (key : string) : bool :=
  bool_decide (key = "") || forallb plain (Str.split slash key).

Definition entry_ok (e : dir_entry) : bool :=
  forallb plain (files e) && forallb plain (dirs e).

Definition plain_names (d : list (string * dir_entry)) : bool :=
  forallb (fun kv => key_ok (fst kv) && entry_ok (snd kv)) d.

(** Some file listed in [dirinfo] is not in [tree]. *)
Definition missing_asset (t : list (string * bytes)) (d : list (string * dir_entry))
           (key file : string) : Prop :=
  exists e, In (key, e) d /\ In file (files e)
            /\ tree_get t (key +:+ "/" +:+ file) = None.

(** ** Reference collaborators

    Small executable stand-ins for the library calls, used to run the module
    on concrete archives. Each covers a fragment of what the library accepts
    and answers [unmodelled] outside it: gzip members whose deflate blocks
    are all stored blocks, ASCII text, and dictionary, list, string and bytes
    literals without escapes. *)

Module Ref.

Definition unmodelled {A} : res A := Raise (LibError "unmodelled").
Definition EOFError {A} : res A := Raise (LibError "EOFError").
Definition BadGzipFile {A} : res A := Raise (LibError "BadGzipFile").
Definition zlib_error {A} : res A := Raise (LibError "zlib.error").
Definition SyntaxError {A} : res A := Raise (LibError "SyntaxError").

Definition byte_z (b : byte) : Z := Z.of_N (Byte.to_N b).
Definition z_byte (z : Z) : byte := default x00 (Byte.of_N (Z.to_N (z mod 256)%Z)).

Definition le16 (b0 b1 : byte) : Z := (byte_z b0 + 256 * byte_z b1)%Z.
Definition le32 (b0 b1 b2 b3 : byte) : Z := (le16 b0 b1 + 65536 * le16 b2 b3)%Z.
Definition le16_bytes (z : Z) : bytes := [z_byte z; z_byte (z / 256)%Z].
Definition le32_bytes (z : Z) : bytes := le16_bytes z ++ le16_bytes (z / 65536)%Z.

(** [zlib.crc32] *)
Definition crc_step (c : Z) : Z :=
  (if Z.testbit c 0 then Z.lxor (Z.shiftr c 1) 3988292384 else Z.shiftr c 1)%Z.
Definition crc_byte (c : Z) (b : byte) : Z :=
  Nat.iter 8 crc_step (Z.lxor c (byte_z b)).
Definition crc32 (data : bytes) : Z :=
  (Z.lxor (fold_left crc_byte data 4294967295) 4294967295)%Z.

(** A zero-terminated header field; the end of the input ends it too. *)
Fixpoint skip_cstring (s : bytes) : bytes :=
  match s with
  | [] => []
  | x :: t => if bool_decide (x = x00) then t else skip_cstring t
  end.

Definition read_exact (n : nat) (s : bytes) : res bytes :=
  if (length s <? n)%nat then EOFError else Ok (drop n s).

Definition when_flag (flag : byte) (bit : N) (f : bytes -> res bytes) (s : bytes) : res bytes :=
  if N.testbit (Byte.to_N flag) bit then f s else Ok s.

Definition rbind {A B} (r : res A) (k : A -> res B) : res B :=
  match r with
  | Ok a => k a
  | Raise e => Raise e
  end.

(** [gzip._read_gzip_header]: nothing left is the end of the members. *)
Definition read_header (data : bytes) : res (option bytes) :=
  match data with
  | [] => Ok None
  | [_] => BadGzipFile
  | m1 :: m2 :: t =>
      if negb (bool_decide (m1 = x1f) && bool_decide (m2 = x8b)) then BadGzipFile
      else match t with
           | method :: flag :: _ :: _ :: _ :: _ :: _ :: _ :: r =>
               if negb (bool_decide (method = x08)) then BadGzipFile
               else
                 rbind (when_flag flag 2 (fun s =>
                          match s with
                          | l0 :: l1 :: s' => read_exact (Z.to_nat (le16 l0 l1)) s'
                          | _ => EOFError
                          end) r) (fun r =>
                 rbind (when_flag flag 3 (fun s => Ok (skip_cstring s)) r) (fun r =>
                 rbind (when_flag flag 4 (fun s => Ok (skip_cstring s)) r) (fun r =>
                 rbind (when_flag flag 1 (read_exact 2) r) (fun r =>
                 Ok (Some r)))))
           | _ => EOFError
           end
  end.

(** Raw deflate, stored blocks only: the output and the unused input. *)
Fixpoint inflate_stored (fuel : nat) (s acc : bytes) : res (bytes * bytes) :=
  match fuel with
  | O => unmodelled
  | S n =>
      match s with
      | [] => EOFError
      | h :: t =>
          let bfinal := N.testbit (Byte.to_N h) 0 in
          let btype := (N.testbit (Byte.to_N h) 1, N.testbit (Byte.to_N h) 2) in
          match btype with
          | (false, false) =>
              match t with
              | l0 :: l1 :: n0 :: n1 :: r =>
                  let len := le16 l0 l1 in
                  if negb (le16 n0 n1 =? 65535 - len)%Z then zlib_error
                  else if (length r <? Z.to_nat len)%nat then EOFError
                  else
                    let out := acc ++ take (Z.to_nat len) r in
                    if bfinal then Ok (out, drop (Z.to_nat len) r)
                    else inflate_stored n (drop (Z.to_nat len) r) out
              | _ => EOFError
              end
          | (true, true) => zlib_error
          | _ => unmodelled
          end
      end
  end.

Fixpoint lstrip_zeros (s : bytes) : bytes :=
  match s with
  | x :: t => if bool_decide (x = x00) then lstrip_zeros t else s
  | [] => []
  end.

Fixpoint gunzip_members (fuel : nat) (data acc : bytes) : res bytes :=
  match fuel with
  | O => unmodelled
  | S n =>
      match read_header data with
      | Raise e => Raise e
      | Ok None => Ok acc
      | Ok (Some rest) =>
          match inflate_stored (S (length rest)) rest [] with
          | Raise e => Raise e
          | Ok (out, unused) =>
              match unused with
              | c0 :: c1 :: c2 :: c3 :: i0 :: i1 :: i2 :: i3 :: more =>
                  if negb (le32 c0 c1 c2 c3 =? crc32 out)%Z then BadGzipFile
                  else if negb (le32 i0 i1 i2 i3 =? Z.of_nat (length out) mod 4294967296)%Z
                       then BadGzipFile
                  else gunzip_members n (lstrip_zeros more) (acc ++ out)
              | _ => EOFError
              end
          end
      end
  end.

(** [gzip.decompress] on members made of stored blocks. *)
Definition gzip_decompress (data : bytes) : res bytes :=
  gunzip_members (S (length data)) data [].

(** The gzip member that compression level 0 writes for a short input
    (with the time stamp set to 0): the data in one stored block, no
    optional header field. *)
Definition gzip_store (data : bytes) : bytes :=
  let len := Z.of_nat (length data) in
  [x1f; x8b; x08; x00; x00; x00; x00; x00; x04; x03]
    ++ [x01] ++ le16_bytes len ++ le16_bytes (65535 - len)%Z
    ++ data
    ++ le32_bytes (crc32 data) ++ le32_bytes len.

(** [bytes.decode()] on ASCII. *)
Definition bytes_decode (b : bytes) : res string :=
  if forallb (fun x => (Byte.to_N x <? 128)%N) b
  then Ok (string_of_list_byte b)
  else unmodelled.

Definition str_encode (s : string) : bytes := list_byte_of_string s.

(** *** Literals *)

Definition newline : ascii := ascii_of_nat 10.
Definition quote : ascii := ascii_of_nat 39.
Definition backslash : ascii := ascii_of_nat 92.

(** Blanks, line ends and comments between the tokens inside brackets. *)
Fixpoint skip_ws (in_comment : bool) (s : string) : string :=
  match s with
  | EmptyString => EmptyString
  | String c t =>
      if in_comment then skip_ws (negb (bool_decide (c = newline))) t
      else if bool_decide (c = " "%char) || bool_decide (c = newline) then skip_ws false t
      else if bool_decide (c = "#"%char) then skip_ws true t
      else s
  end.

(** The body of a quoted literal, up to the closing quote: printable ASCII
    other than the quote and the backslash. *)
Fixpoint read_quoted (s : string) : option (string * string) :=
  match s with
  | EmptyString => None
  | String c t =>
      if bool_decide (c = quote) then Some (EmptyString, t)
      else if bool_decide (c = backslash) then None
      else if (nat_of_ascii c <? 32)%nat || (126 <? nat_of_ascii c)%nat then None
      else match read_quoted t with
           | Some (x, r) => Some (String c x, r)
           | None => None
           end
  end.

(** [d[k] = v] on the association list: a key already there keeps its
    place. *)
Fixpoint dict_set (d : list (pykey * pyval)) (k : pykey) (v : pyval) : list (pykey * pyval) :=
  match d with
  | [] => [(k, v)]
  | (k', v') :: rest =>
      if bool_decide (k' = k) then (k', v) :: rest else (k', v') :: dict_set rest k v
  end.

Definition key_of_val (v : pyval) : res pykey :=
  match v with
  | PyStr s => Ok (KStr s)
  | PyBytes b => Ok (KBytes b)
  | PyInt z => Ok (KInt z)
  | PyNone => Ok KNone
  | PyList _ | PyDict _ => Raise TypeError
  end.

(** The syntax of a literal; a dictionary display keeps every pair it is
    written with. *)
Inductive lit :=
| LStr (s : string)
| LBytes (b : bytes)
| LList (l : list lit)
| LDict (d : list (lit * lit)).

Fixpoint parse_value (fuel : nat) (s : string) : res (lit * string) :=
  match fuel with
  | O => unmodelled
  | S n =>
      match skip_ws false s with
      | String c t =>
          if bool_decide (c = "{"%char) then parse_dict n t []
          else if bool_decide (c = "["%char) then parse_list n t []
          else if bool_decide (c = quote) then
            match read_quoted t with
            | Some (x, r) => Ok (LStr x, r)
            | None => unmodelled
            end
          else if bool_decide (c = "b"%char) then
            match t with
            | String q t' =>
                if bool_decide (q = quote) then
                  match read_quoted t' with
                  | Some (x, r) => Ok (LBytes (list_byte_of_string x), r)
                  | None => unmodelled
                  end
                else unmodelled
            | EmptyString => unmodelled
            end
          else unmodelled
      | EmptyString => SyntaxError
      end
  end
with parse_dict (fuel : nat) (s : string) (acc : list (lit * lit)) : res (lit * string) :=
  match fuel with
  | O => unmodelled
  | S n =>
      match skip_ws false s with
      | EmptyString => SyntaxError
      | String c t =>
          if bool_decide (c = "}"%char) then Ok (LDict acc, t)
          else
            rbind (parse_value n (String c t)) (fun kr =>
            match skip_ws false (snd kr) with
            | String c1 t1 =>
                if bool_decide (c1 = ":"%char) then
                  rbind (parse_value n t1) (fun vr =>
                  let acc' := acc ++ [(fst kr, fst vr)] in
                  match skip_ws false (snd vr) with
                  | String c2 t2 =>
                      if bool_decide (c2 = ","%char) then parse_dict n t2 acc'
                      else if bool_decide (c2 = "}"%char) then Ok (LDict acc', t2)
                      else unmodelled
                  | EmptyString => SyntaxError
                  end)
                else unmodelled
            | EmptyString => SyntaxError
            end)
      end
  end
with parse_list (fuel : nat) (s : string) (acc : list lit) : res (lit * string) :=
  match fuel with
  | O => unmodelled
  | S n =>
      match skip_ws false s with
      | EmptyString => SyntaxError
      | String c t =>
          if bool_decide (c = "]"%char) then Ok (LList acc, t)
          else
            rbind (parse_value n (String c t)) (fun vr =>
            match skip_ws false (snd vr) with
            | String c2 t2 =>
                if bool_decide (c2 = ","%char) then parse_list n t2 (acc ++ [fst vr])
                else if bool_decide (c2 = "]"%char) then Ok (LList (acc ++ [fst vr]), t2)
                else unmodelled
            | EmptyString => SyntaxError
            end)
      end
  end.

(** The value of a literal that has been parsed: the pairs of a display
    are put into the dictionary in turn, and a key that cannot be hashed
    raises [TypeError]. *)
Fixpoint eval_lit (x : lit) : res pyval :=
  match x with
  | LStr s => Ok (PyStr s)
  | LBytes b => Ok (PyBytes b)
  | LList l =>
      rbind ((fix items (l : list lit) : res (list pyval) :=
                match l with
                | [] => Ok []
                | y :: r =>
                    rbind (eval_lit y) (fun v =>
                    rbind (items r) (fun vs => Ok (v :: vs)))
                end) l)
            (fun vs => Ok (PyList vs))
  | LDict d =>
      rbind ((fix pairs (d : list (lit * lit)) (acc : list (pykey * pyval))
                : res (list (pykey * pyval)) :=
                match d with
                | [] => Ok acc
                | kv :: r =>
                    rbind (eval_lit (fst kv)) (fun k =>
                    rbind (eval_lit (snd kv)) (fun v =>
                    rbind (key_of_val k) (fun key =>
                    pairs r (dict_set acc key v))))
                end) d [])
            (fun m => Ok (PyDict m))
  end.

(** The value of a text that is one dictionary literal and nothing else:
    the text is parsed to its end before anything is evaluated. *)
Definition literal_eval (text : string) : res pyval :=
  match text with
  | String c _ =>
      if bool_decide (c = "{"%char) then
        match parse_value (2 * String.length text + 2) text with
        | Ok (x, EmptyString) => eval_lit x
        | Ok (_, String _ _) => unmodelled
        | Raise e => Raise e
        end
      else unmodelled
  | EmptyString => SyntaxError
  end.

(** [eval] on such a text: it changes nothing. *)
Definition py_eval (text : string) : M pyval := lift (literal_eval text).

(** [eval] on a text that calls [file.seek(0)] before it gives the value of
    such a literal, as [[file.seek(0), {...}][1]] does: the stream [h], the
    [file] of [__init__], is rewound. The literal alone stands for the
    text. *)
Definition eval_rewinding (h : nat) (text : string) : M pyval :=
  fun w =>
    (literal_eval text,
     match heap w !! h with
     | Some s => set_heap (<[h := mkStream (s_buf s) 0 (s_name s)]> (heap w)) w
     | None => w
     end).

(** [tempfile.TemporaryFile] where the file is made without a name and
    the object's [name] is its descriptor. *)
Definition TemporaryFile (pre suf : string) : res pyval := Ok (PyInt 3).

(** [tempfile.TemporaryDirectory] where the directory made is
    [/tmp/<prefix>0]. *)
Definition TemporaryDirectory (pre : string) : M string :=
  FS.makedirs ("/tmp/" +:+ pre +:+ "0") >> ret ("/tmp/" +:+ pre +:+ "0").

(** [TemporaryDirectory.cleanup]: the directory and all that is in it are
    removed. *)
Definition cleanup (name : string) : M unit :=
  fun w => match FS.locate w name with
           | Some T =>
               (Ok tt,
                set_fs (filter (fun kv : list string * node => ~ T `prefix_of` fst kv) (fs w)) w)
           | None => (Raise OSError, w)
           end.

(** [shutil.make_archive] as far as the file system shows it: the
    directory of the archive is made when it is not there, a file is
    written at [base_name.format] and its name returned. The bytes of the
    archive are not modelled. *)
Definition make_archive (base_name format root_dir : string) : M string :=
  let archive_dir := Posixpath.dirname base_name in
  (fun w =>
     if negb (bool_decide (archive_dir = "")) && negb (FS.exists_ archive_dir w)
     then FS.makedirs archive_dir w
     else (Ok tt, w)) >>
  let* T := FS.open_wb (base_name +:+ "." +:+ format) in
  FS.write_at T [] >>
  ret (base_name +:+ "." +:+ format).

End Ref.

(** ** Sample archives and worlds *)

Module Sample.

Definition nl : string := String Ref.newline EmptyString.

(** A world whose root directory holds one file. *)
Definition world_with (name : string) (data : bytes) : world :=
  mkWorld {[ [name] := File data ]} [] ∅ [].

Definition empty_world : world := mkWorld ∅ [] ∅ [].

(** An archive file for a text: the marker, then the text in a gzip
    member. *)
Definition archive (text : string) : bytes :=
  marker ++ Ref.gzip_store (Ref.str_encode text).

(** The archive of section 8 of the specification. *)
Definition text_ab : string :=
  "{'tree': {'a/b.txt': b'hi'}, 'dirinfo': {'a': {'files': ['b.txt'], 'dirs': []}}}".

Definition tree_ab : pyval := PyDict [(KStr "a/b.txt", PyBytes [x68; x69])].
Definition dirinfo_ab : pyval :=
  PyDict [(KStr "a", PyDict [(KStr "files", PyList [PyStr "b.txt"]); (KStr "dirs", PyList [])])].

(** The same archive written with a comment line that spells the marker. *)
Definition text_marked : string :=
  "{'tree': {'a/b.txt': b'hi'}, #!PACKED" +:+ nl +:+
  " 'dirinfo': {'a': {'files': ['b.txt'], 'dirs': []}}}".

(** Two occurrences of the marker around and between other bytes. *)
Definition twice : bytes := marker ++ [x61; x62] ++ marker ++ [x63; x64].

(** A document with both keys and neither shape. *)
Definition text_shapeless : string := "{'tree': 'oops', 'dirinfo': []}".

(** The pack the sample archive decodes to. *)
Definition pack_ab : AssetPack := mkPack (PyStr "a.pack") tree_ab dirinfo_ab.

(** An archive file and a reader already opened on it, as
    [open('a.pack', 'rb')] gives. *)
Definition world_opened : world :=
  mkWorld {[ ["a.pack"] := File (archive text_ab) ]} []
          {[ 0 := mkStream (archive text_ab) 0 (Some (PyStr "a.pack")) ]} [].


(** A document without an index. *)
Definition text_treeonly : string := "{'tree': {}}".

Definition world_member_alone : world :=
  mkWorld ∅ [] {[ 0 := mkStream (archive text_ab) 0 (Some (PyStr "a.pack")) ]} [].

(** A reader named by its descriptor, as [os.fdopen] and [TemporaryFile]
    give, and the pack built from it. *)
Definition world_descriptor : world :=
  mkWorld ∅ [] {[ 0 := mkStream (archive text_ab) 0 (Some (PyInt 3)) ]} [].
Definition pack_descriptor : AssetPack := mkPack (PyInt 3) tree_ab dirinfo_ab.

(** The same archive in a [BytesIO], which has no [name]. *)
Definition world_bytesio : world :=
  mkWorld ∅ [] {[ 0 := mkStream (archive text_ab) 0 None ]} [].

(** A marker split in two by another one. *)
Definition nested : bytes :=
  [x21; x50; x41; x43] ++ marker ++ [x4b; x45; x44; x0a].

(** A world where [out/a.txt] already holds some bytes. *)
Definition world_old : world :=
  mkWorld {[ ["out"] := Dir; ["out"; "a.txt"] := File [x6f; x6c; x64] ]} [] ∅ [].

(** A pack with an asset whose path has no dot. *)
Definition pack_readme : AssetPack :=
  mkPack (PyStr "r.pack") (PyDict [(KStr "README", PyBytes [x68; x69])]) (PyDict []).

Definition emulator : AssetPackEmulator := mkEmulator "assets".


(** Two directory keys for one directory, [a] and [a/], each with a file
    [f]; the tree has both assets, [a/f] and [a//f]. *)
Definition tree_alias : list (string * bytes) := [("a/f", [x31]); ("a//f", [x32])].
Definition dirinfo_alias : list (string * dir_entry) :=
  [("a", mkEntry ["f"] []); ("a/", mkEntry ["f"] [])].
Definition pack_alias : AssetPack :=
  mkPack (PyStr "d.pack") (py_of_tree tree_alias) (py_of_dirinfo dirinfo_alias).

(** The tree and the index of the sample archive, and the world after its
    extraction to [/tmp/out]. *)
Definition tree_t_ab : list (string * bytes) := [("a/b.txt", [x68; x69])].
Definition dirinfo_t_ab : list (string * dir_entry) := [("a", mkEntry ["b.txt"] [])].
Definition world_extracted : world :=
  snd (extract pack_ab "/tmp/out" empty_world).

(** The sample archive with the entry of the root and a second, empty
    directory: three entries. *)
Definition dirinfo_t_three : list (string * dir_entry) :=
  [("", mkEntry [] ["a"; "c"]); ("a", mkEntry ["b.txt"] []); ("c", mkEntry [] [])].
Definition pack_three : AssetPack :=
  mkPack (PyStr "a.pack") (py_of_tree tree_t_ab) (py_of_dirinfo dirinfo_t_three).

(** An empty archive: the entry of the root lists nothing. *)
Definition pack_empty : AssetPack :=
  mkPack (PyStr "e.pack") (py_of_tree []) (py_of_dirinfo [("", mkEntry [] [])]).

(** An index with a file whose name holds a zero byte. *)
Definition pack_zero_byte : AssetPack :=
  mkPack (PyStr "z.pack") (py_of_tree [])
         (py_of_dirinfo [("a", mkEntry [String "c" (String nul "")] [])]).

(** An index with a file the tree does not have. *)
Definition dirinfo_t_gap : list (string * dir_entry) := [("a", mkEntry ["c.txt"] [])].

(** Not an archive. *)
Definition plain : bytes := Ref.str_encode "hello".

End Sample.

(** ** Notions used in the statements and proofs *)

(** The bytes of [s], which sit in [l] from position [off] on, that no
    occurrence of the marker in [l] covers. *)
Definition uncovered_from (l : bytes) (off : nat) (s : bytes) : bytes :=
  map snd (List.filter (fun ix => negb (Bytes.covered marker l (fst ix)))
                  (combine (seq off (length s)) s)).

(** A segment: a component that is not empty and has no slash. *)
Definition segment (c : string) : Prop :=
  c <> "" /\ Str.contains_char slash c = false.

Definition nonempty (c : string) : bool := negb (bool_decide (c = "")).

(** The components of a path that are not empty. *)
Definition comps_of (p : string) : list string :=
  List.filter nonempty (Str.split slash p).

(** A component taken from the archive that [join] can take: empty, or a
    segment. *)
Definition joinable (c : string) : Prop := c = "" \/ segment c.

(** [f'] has every directory of [f]. *)
Definition keeps_dirs (f f' : gmap (list string) node) : Prop :=
  forall q, FS.is_dir f q = true -> FS.is_dir f' q = true.

(** [f'] has every node of [f], unchanged. *)
Definition keeps_nodes (f f' : gmap (list string) node) : Prop :=
  forall q n, f !! q = Some n -> f' !! q = Some n.

(** The loop body on an item whose key is a string and whose value is a
    record of two lists of strings. *)
Definition item_typed (self : AssetPack) (epath : string) (keys : list pykey)
           (kv : string * dir_entry) : M unit :=
  let parts := Str.split slash (fst kv) in
  FS.makedirs (Posixpath.join epath parts) >>
  for_each (dirs (snd kv)) (fun dn =>
    FS.makedirs (Posixpath.join epath (parts ++ [dn]))) >>
  for_each (files (snd kv)) (fun file =>
    exportfile self (fst kv +:+ "/" +:+ file) (Posixpath.join epath (parts ++ [file]))) >>
  emit (EvUpdate (index_of (KStr (fst kv)) keys + 1)).


(** The errors of a call on the file system: [OSError] from the operating
    system, [ValueError] for a path with a zero byte. *)
Definition fs_error (e : exn) : Prop := e = OSError \/ e = ValueError.

(** The errors a run of [extract] on such an archive can end with. *)
Definition extract_error (t : list (string * bytes)) (d : list (string * dir_entry))
           (e : exn) : Prop :=
  fs_error e
  \/ exists k f, missing_asset t d k f /\ e = KeyError (KStr (k +:+ "/" +:+ f)).

(** The directory a destination path names, seen from the directory [base]. *)
Definition dest (base : list string) (epath : string) : list string :=
  fold_left Posixpath.step (comps_of epath) (if Posixpath.isabs epath then [] else base).

Definition kcomps (key : string) : list string :=
  List.filter nonempty (Str.split slash key).

(** The place of the file [file] of the directory [key]. *)
Definition target (base : list string) (epath key file : string) : list string :=
  dest base epath ++ kcomps key ++ [file].

(** What every step of an extraction keeps: the working directory, the
    directories there are, and the tree bytes of a file already at its
    place. *)
Definition Pres (t : list (string * bytes)) (base : list string) (epath : string)
           (w w1 : world) : Prop :=
  cwd w1 = cwd w
  /\ (cwd w = base ->
      keeps_dirs (fs w) (fs w1)
      /\ forall key file b,
          key_ok key = true -> plain file = true ->
          tree_get t (key +:+ "/" +:+ file) = Some b ->
          fs w !! target base epath key file = Some (File b) ->
          fs w1 !! target base epath key file = Some (File b)).

(** The file [file] of [key] is at its place with the bytes [b]. *)
Definition file_done (base : list string) (epath key file : string) (b : bytes)
           (w : world) : Prop :=
  cwd w = base ->
  FS.locate w (Posixpath.join epath (Str.split slash key ++ [file]))
  = Some (target base epath key file)
  /\ fs w !! target base epath key file = Some (File b)
  /\ FS.refused (Posixpath.join epath (Str.split slash key ++ [file])) = None.

Definition dir_done (base : list string) (p : string) (w : world) : Prop :=
  cwd w = base -> FS.is_directory p w = true.

(** The entry is not an empty entry of the root: its directory has a name
    of its own, or something is listed in it. *)
Definition settled (kv : string * dir_entry) : Prop :=
  fst kv <> "" \/ dirs (snd kv) <> [] \/ files (snd kv) <> [].

(** The entry of [kv] is done: its directory and subdirectories are there
    and each of its files that is in [tree] holds its bytes. For an empty
    entry of the root nothing is said of the directory (see
    [makedirs_returns_on_a_file]). *)
Definition item_done (t : list (string * bytes)) (base : list string) (epath : string)
           (kv : string * dir_entry) (w : world) : Prop :=
  (settled kv -> dir_done base (Posixpath.join epath (Str.split slash (fst kv))) w)
  /\ (forall dn, In dn (dirs (snd kv)) ->
       dir_done base (Posixpath.join epath (Str.split slash (fst kv) ++ [dn])) w)
  /\ (forall file b, In file (files (snd kv)) ->
       tree_get t (fst kv +:+ "/" +:+ file) = Some b ->
       file_done base epath (fst kv) file b w).

(** No occurrence of the marker starts in [b]. *)
Definition marker_free (b : bytes) : bool :=
  forallb (fun j => negb (Bytes.occurs_at marker b j)) (seq 0 (length b)).

(** Nothing is taken away between [w] and [w']: the working directory is
    the same, a directory is still a directory and a file still a file. *)
Definition fs_kept (w w' : world) : Prop :=
  cwd w' = cwd w
  /\ keeps_dirs (fs w) (fs w')
  /\ forall q d, fs w !! q = Some (File d) -> exists d', fs w' !! q = Some (File d').

(** Between [w] and [w'] a file has been made or changed only under the
    destination directory. *)
Definition confined (base : list string) (epath : string) (w w' : world) : Prop :=
  cwd w' = cwd w
  /\ (cwd w = base ->
      forall q b, fs w' !! q = Some (File b) ->
                  fs w !! q = Some (File b) \/ exists k, q = dest base epath ++ k).

(** The trace is the same in [w] and [w']. *)
Definition same_log (w w' : world) : Prop := log w' = log w.

(** By how much the calls of [update] in a trace advance the progress bar. *)
Definition advanced (l : list event) : nat :=
  fold_right (fun e n => match e with EvUpdate k => k + n | _ => n end) 0 l.

(** * Properties *)

(** ** Bytes *)

Lemma startswith_app (pat rest : bytes) : Bytes.startswith (pat ++ rest) pat = true.
Proof.
  induction pat as [|p pat IH]; simpl; [reflexivity|].
  rewrite bool_decide_eq_true_2 by reflexivity. exact IH.
Qed.

Lemma startswith_split (b pat : bytes) :
  Bytes.startswith b pat = true -> b = pat ++ drop (length pat) b.
Proof.
  revert b. induction pat as [|p pat IH]; intros b H; simpl in *.
  - reflexivity.
  - destruct b as [|x b]; [discriminate|].
    apply andb_true_iff in H as [H1 H2]. apply bool_decide_eq_true_1 in H1.
    subst x. simpl. f_equal. apply IH, H2.
Qed.

(** The marker has no border: inside an occurrence, no other one starts. *)
Lemma marker_border_free (b : bytes) (j d : nat) :
  0 < d < 8 ->
  Bytes.occurs_at marker b j = true ->
  Bytes.occurs_at marker b (j + d) = false.
Proof.
  unfold Bytes.occurs_at. intros Hd H.
  apply startswith_split in H.
  replace (drop (j + d) b) with (drop d (drop j b))
    by (rewrite drop_drop; f_equal; lia).
  rewrite H. generalize (drop (length marker) (drop j b)). intros rest.
  do 8 (destruct d as [|d]; [try lia; reflexivity|]). lia.
Qed.

Lemma covered_true (pat b : bytes) (i d : nat) :
  d < length pat -> d <= i -> Bytes.occurs_at pat b (i - d) = true ->
  Bytes.covered pat b i = true.
Proof.
  intros Hd Hi H. unfold Bytes.covered. apply existsb_exists.
  exists d. split.
  - apply in_seq. lia.
  - apply andb_true_iff. split; [apply Nat.leb_le; lia | exact H].
Qed.

Lemma covered_false (pat b : bytes) (i : nat) :
  (forall d, d < length pat -> d <= i -> Bytes.occurs_at pat b (i - d) = false) ->
  Bytes.covered pat b i = false.
Proof.
  intros H. unfold Bytes.covered.
  destruct (existsb _ _) eqn:E; [|reflexivity].
  apply existsb_exists in E as (d & Hin & Hd).
  apply in_seq in Hin. apply andb_true_iff in Hd as [Hle Ho].
  apply Nat.leb_le in Hle. rewrite H in Ho by lia. discriminate.
Qed.

Lemma uncovered_from_cons (l : bytes) (off : nat) (x : byte) (s : bytes) :
  uncovered_from l off (x :: s) =
  (if Bytes.covered marker l off then [] else [x]) ++ uncovered_from l (S off) s.
Proof.
  unfold uncovered_from. simpl.
  destruct (Bytes.covered marker l off); reflexivity.
Qed.

Lemma occurs_at_here (pre s : bytes) :
  Bytes.occurs_at marker (pre ++ s) (length pre) = Bytes.startswith s marker.
Proof. unfold Bytes.occurs_at. now rewrite drop_app_length. Qed.

(** The scan of [replace] and the positions covered agree, whatever was
    scanned before: [k] bytes of an occurrence are still to be passed over,
    or no occurrence reaches into what is left. *)
Lemma replace_from_uncovered (s pre : bytes) (k : nat) :
  (0 < k -> k <= 7 /\ 8 - k <= length pre /\
            Bytes.occurs_at marker (pre ++ s) (length pre - (8 - k)) = true) ->
  (k = 0 -> forall d, 1 <= d <= 7 -> d <= length pre ->
            Bytes.occurs_at marker (pre ++ s) (length pre - d) = false) ->
  Bytes.replace_from marker [] k s = uncovered_from (pre ++ s) (length pre) s.
Proof.
  revert pre k. induction s as [|x t IH]; intros pre k Hpos Hzero.
  - reflexivity.
  - rewrite uncovered_from_cons.
    assert (Hl : pre ++ x :: t = (pre ++ [x]) ++ t) by now rewrite <- app_assoc.
    assert (Hn : length (pre ++ [x]) = S (length pre)) by (rewrite length_app; simpl; lia).
    destruct k as [|k].
    + cbn [Bytes.replace_from].
      destruct (Bytes.startswith (x :: t) marker) eqn:Hs.
      * (* an occurrence starts here *)
        rewrite (covered_true marker _ (length pre) 0);
          [| simpl; lia | lia | rewrite Nat.sub_0_r, occurs_at_here; exact Hs].
        cbn [app length marker Nat.sub]. rewrite Hl, <- Hn. apply IH.
        -- intros _. rewrite <- Hl, Hn. split; [lia|]. split; [lia|].
           replace (S (length pre) - (8 - 7)) with (length pre) by lia.
           rewrite occurs_at_here. exact Hs.
        -- discriminate.
      * (* none starts here, none reaches here *)
        rewrite covered_false.
        2:{ intros d Hd Hle. destruct d as [|d].
            - rewrite Nat.sub_0_r, occurs_at_here. exact Hs.
            - apply Hzero; [reflexivity | simpl in Hd; lia | lia]. }
        cbn [app]. f_equal. rewrite Hl, <- Hn. apply IH.
        -- lia.
        -- intros _ d Hd Hle. rewrite <- Hl, Hn.
           destruct d as [|d]; [lia|]. destruct d as [|d].
           ++ replace (S (length pre) - 1) with (length pre) by lia.
              rewrite occurs_at_here. exact Hs.
           ++ replace (S (length pre) - S (S d)) with (length pre - S d) by lia.
              apply Hzero; [reflexivity | lia | lia].
    + cbn [Bytes.replace_from].
      destruct (Hpos ltac:(lia)) as (Hk & Hlen & Hocc).
      rewrite (covered_true marker _ (length pre) (8 - S k));
        [| simpl; lia | lia | exact Hocc].
      cbn [app]. rewrite Hl, <- Hn. apply IH.
      * intros Hk0. rewrite <- Hl, Hn. split; [lia|]. split; [lia|].
        replace (S (length pre) - (8 - k)) with (length pre - (8 - S k)) by lia.
        exact Hocc.
      * intros -> d Hd Hle. rewrite <- Hl, Hn.
        replace (S (length pre) - d) with ((length pre - (8 - 1)) + (8 - d)) by lia.
        apply marker_border_free; [lia | exact Hocc].
Qed.

(** [content.replace(b'!PACKED\n', b'')] leaves exactly the bytes that lie in
    no occurrence of the marker. *)
Lemma replace_marker_strips (b : bytes) :
  Bytes.replace marker [] b = Bytes.strip_occurrences marker b.
Proof.
  change (Bytes.replace marker [] b) with (Bytes.replace_from marker [] 0 b).
  change (Bytes.strip_occurrences marker b) with (uncovered_from ([] ++ b) (length (@nil byte)) b).
  apply replace_from_uncovered.
  - lia.
  - intros _ d Hd Hle. simpl in Hle. lia.
Qed.

(** ** The container codec *)

Lemma read_source_log (file : pyarg) (w w1 : world) (r : res (bytes * pyval)) :
  read_source file w = (r, w1) -> log w1 = log w.
Proof.
  destruct file as [s|s|h|v]; unfold read_source, bind, ret, raise,
    FS.read_file, Stream.read, Stream.name; simpl; intros H.
  1,2: destruct (FS.refused s);
       [|destruct (FS.locate w s) as [t|]; [destruct (FS.node_at (fs w) t) as [[d|]|]|]];
       inversion H; reflexivity.
  - destruct (heap w !! h) as [st|] eqn:Eh; simpl in H.
    + rewrite lookup_insert_eq in H. simpl in H.
      destruct (s_name st); inversion H; reflexivity.
    + inversion H; reflexivity.
  - inversion H; reflexivity.
Qed.

Section Codec.

Variable gzip_decompress : bytes -> res bytes.
Variable bytes_decode : bytes -> res string.
Variable py_eval : string -> M pyval.

Local Abbreviation run_dirdict := (dirdict gzip_decompress bytes_decode py_eval).
Local Abbreviation run_decode := (decode gzip_decompress bytes_decode py_eval).
Local Abbreviation run_init := (init gzip_decompress bytes_decode py_eval).

Lemma dirdict_no_header (content : bytes) (w : world) :
  Bytes.startswith content marker = false ->
  run_dirdict content w = (Raise (MissingHeaderException missing_header_msg), w).
Proof. intros H. unfold dirdict. rewrite H. reflexivity. Qed.

Lemma decode_no_header (p : pyval) (content : bytes) (w : world) :
  Bytes.startswith content marker = false ->
  run_decode p content w = (Raise (MissingHeaderException missing_header_msg), w).
Proof. intros H. unfold decode, bind. now rewrite dirdict_no_header. Qed.

(** C2. Header gate: on a buffer that does not start with the marker the
    codec raises [MissingHeaderException] and leaves the world as it was, so
    no call to a collaborator is traced: decompression is not attempted. The
    same holds of the construction from any source the buffer was read
    from. *)
Theorem header_gate (content : bytes) :
  Bytes.startswith content marker = false ->
  (forall p w,
      run_decode p content w = (Raise (MissingHeaderException missing_header_msg), w))
  /\ (forall file p w w1,
        read_source file w = (Ok (content, p), w1) ->
        run_init file w = (Raise (MissingHeaderException missing_header_msg), w1)
        /\ log w1 = log w).
Proof.
  intros Hs. split.
  - intros p w. now apply decode_no_header.
  - intros file p w w1 Hr. split.
    + unfold init, bind. rewrite Hr. simpl. now apply decode_no_header.
    + eapply read_source_log, Hr.
Qed.

Local Abbreviation evaluated := (evaluated py_eval).

Lemma dirdict_header (content : bytes) (w : world) :
  Bytes.startswith content marker = true ->
  run_dirdict content w =
  (let stripped := Bytes.replace marker [] content in
   let w1 := add_log (EvDecompress stripped) w in
   match gzip_decompress stripped with
   | Raise e => (Raise e, w1)
   | Ok raw =>
       match bytes_decode raw with
       | Raise e => (Raise e, w1)
       | Ok text =>
           let w2 := add_log (EvEval text) w1 in
           (fst (py_eval text w2), evaluated text w2)
       end
   end).
Proof.
  intros H. unfold dirdict. rewrite H. simpl.
  unfold bind, emit, lift, ret. simpl.
  destruct (gzip_decompress _); [|reflexivity].
  destruct (bytes_decode _); reflexivity.
Qed.

Lemma decode_header (p : pyval) (content : bytes) (w : world) :
  Bytes.startswith content marker = true ->
  run_decode p content w =
  (let stripped := Bytes.replace marker [] content in
   let w1 := add_log (EvDecompress stripped) w in
   match gzip_decompress stripped with
   | Raise e => (Raise e, w1)
   | Ok raw =>
       match bytes_decode raw with
       | Raise e => (Raise e, w1)
       | Ok text =>
           let w2 := add_log (EvEval text) w1 in
           match fst (py_eval text w2) with
           | Raise e => (Raise e, evaluated text w2)
           | Ok dirdict =>
               match subscript dirdict (KStr "tree") with
               | Raise e => (Raise e, evaluated text w2)
               | Ok t =>
                   match subscript dirdict (KStr "dirinfo") with
                   | Raise e => (Raise e, evaluated text w2)
                   | Ok d => (Ok (mkPack p t d), evaluated text w2)
                   end
               end
           end
       end
   end).
Proof.
  intros H. unfold decode. unfold bind at 1. rewrite (dirdict_header content w H).
  cbv zeta.
  destruct (gzip_decompress _); [|reflexivity].
  destruct (bytes_decode _); [|reflexivity].
  destruct (fst (py_eval _ _)); [|reflexivity].
  unfold bind, lift, ret.
  destruct (subscript _ (KStr "tree")); [|reflexivity].
  destruct (subscript _ (KStr "dirinfo")); reflexivity.
Qed.

(** C3. Marker stripping: for a buffer that starts with the marker, what
    [replace] leaves is the buffer without the bytes of any occurrence of
    the marker, wherever it lies; this is the argument of the first call
    traced, the decompression, whose failure is the failure of the
    construction. *)
Theorem marker_stripping (p : pyval) (content : bytes) (w : world) :
  Bytes.startswith content marker = true ->
  Bytes.replace marker [] content = Bytes.strip_occurrences marker content
  /\ (exists rest, log (snd (run_decode p content w)) =
                   log w ++ EvDecompress (Bytes.strip_occurrences marker content) :: rest)
  /\ (forall e, gzip_decompress (Bytes.strip_occurrences marker content) = Raise e ->
                fst (run_decode p content w) = Raise e).
Proof.
  intros H. rewrite (decode_header p content w H), replace_marker_strips. cbn zeta.
  split; [reflexivity|]. split.
  - destruct (gzip_decompress _) as [raw|]; [|exists []; reflexivity].
    destruct (bytes_decode _) as [text|]; [|exists []; reflexivity].
    exists [EvEval text].
    assert (Hl : forall w0 : world,
               log (evaluated text
                      (add_log (EvEval text)
                         (add_log (EvDecompress (Bytes.strip_occurrences marker content)) w0)))
               = log w0 ++ [EvDecompress (Bytes.strip_occurrences marker content); EvEval text]).
    { intros w0. unfold evaluated, untraced. simpl. now rewrite <- app_assoc. }
    destruct (fst (py_eval _ _)); [|apply Hl].
    destruct (subscript _ (KStr "tree")); [|apply Hl].
    destruct (subscript _ (KStr "dirinfo")); apply Hl.
  - intros e He. rewrite He. reflexivity.
Qed.

(** C4, as the code has it. When the payload evaluates to [v],
    construction raises [KeyError] for the first of ['tree'], ['dirinfo']
    that a dictionary [v] lacks and [TypeError] when [v] is not a
    dictionary; with both keys there it succeeds, whatever the two values
    are. *)
Theorem decode_validation (p : pyval) (content raw : bytes) (text : string)
        (v : pyval) (w : world) :
  Bytes.startswith content marker = true ->
  gzip_decompress (Bytes.replace marker [] content) = Ok raw ->
  bytes_decode raw = Ok text ->
  (forall w0, fst (py_eval text w0) = Ok v) ->
  fst (run_decode p content w) =
  match v with
  | PyDict d =>
      match dict_get d (KStr "tree"), dict_get d (KStr "dirinfo") with
      | None, _ => Raise (KeyError (KStr "tree"))
      | Some _, None => Raise (KeyError (KStr "dirinfo"))
      | Some t, Some di => Ok (mkPack p t di)
      end
  | _ => Raise TypeError
  end.
Proof.
  intros H Hz Hd He. rewrite (decode_header p content w H). cbn zeta.
  rewrite Hz, Hd, He.
  destruct v as [| | | | |d]; try reflexivity.
  unfold subscript.
  destruct (dict_get d (KStr "tree")); [|reflexivity].
  destruct (dict_get d (KStr "dirinfo")); reflexivity.
Qed.

End Codec.

Lemma header_gate_witness :
  decode Ref.gzip_decompress Ref.bytes_decode Ref.py_eval PyNone Sample.plain
         Sample.empty_world
  = (Raise (MissingHeaderException missing_header_msg), Sample.empty_world)
  /\ init Ref.gzip_decompress Ref.bytes_decode Ref.py_eval (AStr "notes.txt")
          (Sample.world_with "notes.txt" Sample.plain)
     = (Raise (MissingHeaderException missing_header_msg),
        Sample.world_with "notes.txt" Sample.plain)
  /\ log (Sample.world_with "notes.txt" Sample.plain)
     = log (Sample.world_with "notes.txt" Sample.plain).
Proof.
  destruct (header_gate Ref.gzip_decompress Ref.bytes_decode Ref.py_eval
                        Sample.plain eq_refl) as [Hcodec Hinit].
  split; [apply Hcodec|].
  apply (Hinit (AStr "notes.txt") (PyStr "notes.txt")).
  vm_compute. reflexivity.
Defined.

Lemma marker_stripping_witness :
  Bytes.replace marker [] Sample.twice = Bytes.strip_occurrences marker Sample.twice
  /\ (exists rest,
        log (snd (decode Ref.gzip_decompress Ref.bytes_decode Ref.py_eval
                         PyNone Sample.twice Sample.empty_world)) =
        log Sample.empty_world
            ++ EvDecompress (Bytes.strip_occurrences marker Sample.twice) :: rest)
  /\ (forall e,
        Ref.gzip_decompress (Bytes.strip_occurrences marker Sample.twice) = Raise e ->
        fst (decode Ref.gzip_decompress Ref.bytes_decode Ref.py_eval
                    PyNone Sample.twice Sample.empty_world) = Raise e).
Proof.
  apply (marker_stripping Ref.gzip_decompress Ref.bytes_decode Ref.py_eval).
  reflexivity.
Defined.

(** Both occurrences go, the one inside the buffer too. *)
Example strip_twice : Bytes.strip_occurrences marker Sample.twice = [x61; x62; x63; x64].
Proof. reflexivity. Qed.

(** Taking the occurrences out can bring the two halves of a marker
    together: what is left may hold the marker again. *)
Example strip_nested : Bytes.replace marker [] Sample.nested = marker.
Proof. reflexivity. Qed.

Lemma decode_validation_witness :
  fst (decode Ref.gzip_decompress Ref.bytes_decode Ref.py_eval (PyStr "a.pack")
              (Sample.archive Sample.text_ab) Sample.empty_world) =
  Ok (mkPack (PyStr "a.pack") Sample.tree_ab Sample.dirinfo_ab).
Proof.
  apply (decode_validation Ref.gzip_decompress Ref.bytes_decode Ref.py_eval
           (PyStr "a.pack") (Sample.archive Sample.text_ab)
           (Ref.str_encode Sample.text_ab) Sample.text_ab
           (PyDict [(KStr "tree", Sample.tree_ab); (KStr "dirinfo", Sample.dirinfo_ab)])).
  - reflexivity.
  - vm_compute. reflexivity.
  - vm_compute. reflexivity.
  - vm_compute. reflexivity.
Defined.

(** C4 as stated fails: a document with both keys and values of the wrong
    shape is taken as it is. *)
Lemma shapeless_document_accepted :
  fst (init Ref.gzip_decompress Ref.bytes_decode Ref.py_eval (AStr "odd.pack")
            (Sample.world_with "odd.pack" (Sample.archive Sample.text_shapeless)))
  = Ok (mkPack (PyStr "odd.pack") (PyStr "oops") (PyList []))
  /\ forall e,
      fst (init Ref.gzip_decompress Ref.bytes_decode Ref.py_eval (AStr "odd.pack")
                (Sample.world_with "odd.pack" (Sample.archive Sample.text_shapeless)))
      <> Raise e.
Proof.
  assert (H : fst (init Ref.gzip_decompress Ref.bytes_decode Ref.py_eval (AStr "odd.pack")
                        (Sample.world_with "odd.pack" (Sample.archive Sample.text_shapeless)))
              = Ok (mkPack (PyStr "odd.pack") (PyStr "oops") (PyList [])))
    by (vm_compute; reflexivity).
  split; [exact H|]. intros e. rewrite H. discriminate.
Qed.

(** C1 at an archive whose compressed payload holds the marker. The payload
    is a gzip member that decompresses to a text evaluating to the tree and
    the directory index of the sample archive, and yet construction fails:
    [replace] has taken eight bytes out of the stored block. *)
Theorem roundtrip_lost_when_payload_holds_marker :
  Ref.gzip_decompress (Ref.gzip_store (Ref.str_encode Sample.text_marked))
  = Ok (Ref.str_encode Sample.text_marked)
  /\ Ref.bytes_decode (Ref.str_encode Sample.text_marked) = Ok Sample.text_marked
  /\ Ref.literal_eval Sample.text_marked
     = Ok (PyDict [(KStr "tree", Sample.tree_ab); (KStr "dirinfo", Sample.dirinfo_ab)])
  /\ fst (init Ref.gzip_decompress Ref.bytes_decode Ref.py_eval (AStr "a.pack")
               (Sample.world_with "a.pack" (Sample.archive Sample.text_marked)))
     = Raise (LibError "EOFError").
Proof. repeat split; vm_compute; reflexivity. Qed.

(** ** [getfile] *)

Lemma fresh_handle_unused (w : world) : heap w !! fresh (dom (heap w)) = None.
Proof. apply not_elem_of_dom, is_fresh. Qed.

Lemma getfile_present (self : AssetPack) (d : list (pykey * pyval)) (k : string)
      (b : bytes) (w : world) :
  tree self = PyDict d ->
  dict_get d (KStr k) = Some (PyBytes b) ->
  getfile self k w =
  (Ok (fresh (dom (heap w))),
   set_heap (<[fresh (dom (heap w)) := mkStream b 0 None]> (heap w)) w).
Proof.
  intros Ht Hk. unfold getfile, bind, lift, subscript. rewrite Ht, Hk. reflexivity.
Qed.

Lemma read_fresh_stream (h : nat) (b : bytes) (n : option pyval) (w : world) :
  heap w !! h = Some (mkStream b 0 n) ->
  Stream.read h w = (Ok b, set_heap (<[h := mkStream b (length b) n]> (heap w)) w).
Proof. intros H. unfold Stream.read. rewrite H. reflexivity. Qed.

(** C5. [getfile] on a path of [tree]: a stream object at an address not in
    use, holding the stored bytes with its cursor at the start; the streams
    already open are as they were; reading it gives the bytes and moves its
    cursor only, so that a second [getfile] gives another stream, again with
    all the bytes. On a path not in [tree] the lookup raises [KeyError] (the
    missing-file error of the module) and the world is unchanged. *)
Theorem getfile_contract (self : AssetPack) (d : list (pykey * pyval)) (w : world) :
  tree self = PyDict d ->
  (forall k b, dict_get d (KStr k) = Some (PyBytes b) ->
     exists h w1 w2,
       getfile self k w = (Ok h, w1)
       /\ heap w !! h = None
       /\ heap w1 !! h = Some (mkStream b 0 None)
       /\ (forall h' s, heap w !! h' = Some s -> heap w1 !! h' = Some s)
       /\ fs w1 = fs w
       /\ Stream.read h w1 = (Ok b, w2)
       /\ fst (Stream.read h w2) = Ok []
       /\ exists h2 w3,
           getfile self k w2 = (Ok h2, w3) /\ h2 <> h
           /\ fst (Stream.read h2 w3) = Ok b
           /\ heap w3 !! h = heap w2 !! h)
  /\ (forall k, dict_get d (KStr k) = None ->
       getfile self k w = (Raise (KeyError (KStr k)), w)).
Proof.
  intros Ht. split.
  - intros k b Hk.
    set (h := fresh (dom (heap w))).
    set (w1 := set_heap (<[h := mkStream b 0 None]> (heap w)) w).
    set (w2 := set_heap (<[h := mkStream b (length b) None]> (heap w1)) w1).
    assert (Hh : heap w !! h = None) by apply fresh_handle_unused.
    assert (H1 : heap w1 !! h = Some (mkStream b 0 None)) by apply lookup_insert_eq.
    assert (H2 : heap w2 !! h = Some (mkStream b (length b) None)) by apply lookup_insert_eq.
    exists h, w1, w2. repeat split.
    + apply (getfile_present self d k b w Ht Hk).
    + exact Hh.
    + exact H1.
    + intros h' s Hs. simpl. rewrite lookup_insert_ne; [exact Hs|].
      intros ->. rewrite Hh in Hs. discriminate.
    + apply read_fresh_stream, H1.
    + unfold Stream.read. rewrite H2. simpl. now rewrite drop_all.
    + set (h2 := fresh (dom (heap w2))).
      assert (Hne : h2 <> h).
      { intros E. pose proof (fresh_handle_unused w2) as Hf. fold h2 in Hf.
        rewrite E, H2 in Hf. discriminate. }
      exists h2, (set_heap (<[h2 := mkStream b 0 None]> (heap w2)) w2). repeat split.
      * apply (getfile_present self d k b w2 Ht Hk).
      * exact Hne.
      * unfold Stream.read. simpl. rewrite lookup_insert_eq. reflexivity.
      * simpl. apply lookup_insert_ne. exact Hne.
  - intros k Hk. unfold getfile, bind, lift, subscript. rewrite Ht, Hk. reflexivity.
Qed.

Lemma getfile_contract_witness :
  (exists h w1 w2,
      getfile Sample.pack_ab "a/b.txt" Sample.empty_world = (Ok h, w1)
      /\ heap Sample.empty_world !! h = None
      /\ heap w1 !! h = Some (mkStream [x68; x69] 0 None)
      /\ (forall h' s, heap Sample.empty_world !! h' = Some s -> heap w1 !! h' = Some s)
      /\ fs w1 = fs Sample.empty_world
      /\ Stream.read h w1 = (Ok [x68; x69], w2)
      /\ fst (Stream.read h w2) = Ok []
      /\ exists h2 w3,
          getfile Sample.pack_ab "a/b.txt" w2 = (Ok h2, w3) /\ h2 <> h
          /\ fst (Stream.read h2 w3) = Ok [x68; x69]
          /\ heap w3 !! h = heap w2 !! h)
  /\ getfile Sample.pack_ab "a/c.txt" Sample.empty_world
     = (Raise (KeyError (KStr "a/c.txt")), Sample.empty_world).
Proof.
  destruct (getfile_contract Sample.pack_ab
              [(KStr "a/b.txt", PyBytes [x68; x69])] Sample.empty_world eq_refl)
    as [Hpresent Habsent].
  split.
  - apply Hpresent. reflexivity.
  - apply Habsent. reflexivity.
Defined.

(** ** [reload] *)


Lemma refused_error (p : string) (e : exn) : FS.refused p = Some e -> fs_error e.
Proof.
  unfold FS.refused, fs_error. destruct (FS.has_nul p); [intros H; inversion H; now right|].
  destruct (FS.fits p); [discriminate|]. intros H; inversion H; now left.
Qed.





(** With no file of that name, [open] raises; with a stream named by its
    descriptor, as a pipe or a temporary file is, [read] is asked of an
    [int]. *)
Example reload_of_member_pack_alone :
  fst (fst (reload Ref.gzip_decompress Ref.bytes_decode Ref.py_eval Sample.pack_ab
                   Sample.world_member_alone)) = Raise OSError.
Proof. vm_compute. reflexivity. Qed.

Example reload_of_descriptor_pack :
  fst (init Ref.gzip_decompress Ref.bytes_decode Ref.py_eval (AObj 0) Sample.world_descriptor)
  = Ok Sample.pack_descriptor
  /\ fst (fst (reload Ref.gzip_decompress Ref.bytes_decode Ref.py_eval Sample.pack_descriptor
                      (snd (init Ref.gzip_decompress Ref.bytes_decode Ref.py_eval (AObj 0)
                                 Sample.world_descriptor))))
     = Raise AttributeError.
Proof. split; vm_compute; reflexivity. Qed.

(** An error of line 42 comes after line 41: the object is left with the
    tree of the file and the index it had. *)
Example reload_half_done :
  reload Ref.gzip_decompress Ref.bytes_decode Ref.py_eval Sample.pack_ab
         (Sample.world_with "a.pack" (Sample.archive Sample.text_treeonly))
  = (Raise (KeyError (KStr "dirinfo")),
     mkPack (PyStr "a.pack") (PyDict []) Sample.dirinfo_ab,
     snd (init Ref.gzip_decompress Ref.bytes_decode Ref.py_eval (AStr "a.pack")
               (Sample.world_with "a.pack" (Sample.archive Sample.text_treeonly)))).
Proof. vm_compute. reflexivity. Qed.

(** The docstring of [__init__] speaks of loading from a [BytesIO]: the
    object has no [name], and line 32 raises. *)
Example bytesio_without_name_rejected :
  fst (init Ref.gzip_decompress Ref.bytes_decode Ref.py_eval (AObj 0) Sample.world_bytesio)
  = Raise AttributeError.
Proof. vm_compute. reflexivity. Qed.

(** ** [exportToTempfile] *)

Lemma split_without_sep (c : ascii) (s : string) :
  Str.contains_char c s = false -> Str.split c s = [s].
Proof.
  induction s as [|a s IH]; simpl; intros H; [reflexivity|].
  apply orb_false_iff in H as [H1 H2]. rewrite H1, (IH H2). reflexivity.
Qed.

(** C10. For an asset path without a dot, [packpath.split('.')[-1]] is the
    whole path: the temporary file is asked for with the suffix made of a
    dot and the entire path, and when [TemporaryFile] gives the file the
    call returns it with the bytes of the asset written. *)
Theorem tempfile_suffix_of_dotless_path
        (TemporaryFile : string -> string -> res pyval)
        (self : AssetPack) (d : list (pykey * pyval)) (packpath : string)
        (b : bytes) (n : pyval) (w : world) :
  Str.contains_char dot packpath = false ->
  tree self = PyDict d ->
  dict_get d (KStr packpath) = Some (PyBytes b) ->
  TemporaryFile "AssetPackTempFile" ("." +:+ packpath) = Ok n ->
  exists f w',
    exportToTempfile TemporaryFile self packpath w = (Ok f, w')
    /\ log w' = log w ++ [EvTemporaryFile "AssetPackTempFile" ("." +:+ packpath)]
    /\ heap w !! f = None
    /\ heap w' !! f = Some (mkStream b (length b) (Some n)).
Proof.
  intros Hdot Ht Hk Htmp.
  unfold exportToTempfile. rewrite (split_without_sep dot packpath Hdot).
  cbn [List.last]. unfold bind at 1. cbn [emit].
  unfold bind at 1. unfold lift at 1. rewrite Htmp.
  unfold bind at 1. unfold Stream.alloc at 1.
  set (w0 := add_log (EvTemporaryFile "AssetPackTempFile" ("." +:+ packpath)) w).
  set (f := fresh (dom (heap w0))).
  set (w1 := set_heap (<[f := mkStream [] 0 (Some n)]> (heap w0)) w0).
  unfold bind at 1. rewrite (getfile_present self d packpath b w1 Ht Hk).
  set (h := fresh (dom (heap w1))).
  set (w2 := set_heap (<[h := mkStream b 0 None]> (heap w1)) w1).
  assert (Hhf : h <> f).
  { intros E. pose proof (fresh_handle_unused w1) as Hf. fold h in Hf.
    rewrite E in Hf. unfold w1 in Hf. simpl in Hf. rewrite lookup_insert_eq in Hf.
    discriminate. }
  unfold bind at 1.
  rewrite (read_fresh_stream h b None w2) by apply lookup_insert_eq.
  set (w3 := set_heap (<[h := mkStream b (length b) None]> (heap w2)) w2).
  assert (Hf3 : heap w3 !! f = Some (mkStream [] 0 (Some n))).
  { unfold w3, w2, w1. simpl. rewrite !lookup_insert_ne by exact Hhf.
    apply lookup_insert_eq. }
  unfold bind, Stream.write, ret. rewrite Hf3. simpl.
  eexists. eexists. split; [reflexivity|]. split; [reflexivity|]. split.
  - apply (fresh_handle_unused w0).
  - simpl. rewrite lookup_insert_eq. rewrite drop_nil, app_nil_r.
    reflexivity.
Qed.

Lemma tempfile_suffix_of_dotless_path_witness :
  exists f w',
    exportToTempfile Ref.TemporaryFile Sample.pack_readme "README" Sample.empty_world
    = (Ok f, w')
    /\ log w' = log Sample.empty_world
                ++ [EvTemporaryFile "AssetPackTempFile" ("." +:+ "README")]
    /\ heap Sample.empty_world !! f = None
    /\ heap w' !! f = Some (mkStream [x68; x69] (length [x68; x69]) (Some (PyInt 3))).
Proof.
  apply (tempfile_suffix_of_dotless_path Ref.TemporaryFile Sample.pack_readme
           [(KStr "README", PyBytes [x68; x69])]).
  - reflexivity.
  - reflexivity.
  - reflexivity.
  - reflexivity.
Defined.

(** ** Paths *)

Lemma split_nonempty (c : ascii) (s : string) : Str.split c s <> [].
Proof.
  destruct s as [|a s]; simpl; [discriminate|].
  destruct (bool_decide (a = c)); [discriminate|].
  destruct (Str.split c s); discriminate.
Qed.

Lemma split_app_sep (c : ascii) (a b : string) :
  Str.split c (a +:+ String c b) = Str.split c a ++ Str.split c b.
Proof.
  induction a as [|x a IH]; simpl.
  - rewrite bool_decide_eq_true_2 by reflexivity. reflexivity.
  - destruct (bool_decide (x = c)).
    + simpl. f_equal. exact IH.
    + fold String.append. rewrite IH.
      destruct (Str.split c a) eqn:E; [now apply split_nonempty in E|].
      reflexivity.
Qed.

Lemma endswith_app (c : ascii) (a b : string) :
  b <> "" -> Str.endswith_char c (a +:+ b) = Str.endswith_char c b.
Proof.
  intros Hb. induction a as [|x a IH]; [reflexivity|].
  rewrite <- IH.
  change (String x a +:+ b) with (String x (a +:+ b)).
  assert (E : a +:+ b <> "").
  { destruct a; simpl; [exact Hb | discriminate]. }
  destruct (a +:+ b); [congruence | reflexivity].
Qed.

Lemma endswith_without (c : ascii) (s : string) :
  Str.contains_char c s = false -> Str.endswith_char c s = false.
Proof.
  induction s as [|x s IH]; [reflexivity|].
  simpl. intros H. apply orb_false_iff in H as [H1 H2].
  destruct s; [exact H1 | apply IH, H2].
Qed.

Lemma startswith_without (c : ascii) (s : string) :
  Str.contains_char c s = false -> Str.startswith_char c s = false.
Proof.
  destruct s as [|x s]; [reflexivity|].
  simpl. intros H. now apply orb_false_iff in H as [H1 _].
Qed.

Lemma plain_segment (c : string) : plain c = true -> segment c.
Proof.
  unfold plain, FS.is_name, segment. intros H.
  apply andb_true_iff in H as [H1 H2].
  apply negb_true_iff in H1, H2.
  apply orb_false_iff in H1 as [H1 _]. apply orb_false_iff in H1 as [H1 _].
  apply bool_decide_eq_false_1 in H1. split; assumption.
Qed.

Lemma join2_segment (path c : string) :
  path <> "" -> Str.endswith_char slash path = false -> segment c ->
  Posixpath.join2 path c = path +:+ "/" +:+ c.
Proof.
  intros Hp He [Hc Hs]. unfold Posixpath.join2.
  rewrite (startswith_without _ _ Hs), He.
  rewrite bool_decide_eq_false_2 by exact Hp. reflexivity.
Qed.

Lemma append_nonempty (a b : string) : b <> "" -> a +:+ b <> "".
Proof. destruct a; simpl; [tauto | discriminate]. Qed.

(** Joining segments onto a path and splitting again gives the components
    of the path followed by the segments. *)
Lemma split_join_segments (cs : list string) (path : string) :
  path <> "" -> Str.endswith_char slash path = false -> Forall segment cs ->
  Str.split slash (Posixpath.join path cs) = Str.split slash path ++ cs.
Proof.
  revert path. induction cs as [|c cs IH]; intros path Hp He Hcs.
  - simpl. now rewrite app_nil_r.
  - inversion Hcs as [|? ? Hc Hcs']; subst.
    unfold Posixpath.join. simpl. fold (Posixpath.join (Posixpath.join2 path c) cs).
    rewrite (join2_segment path c Hp He Hc).
    destruct Hc as [Hc Hs].
    rewrite IH; [| | |exact Hcs'].
    + change (path +:+ "/" +:+ c) with (path +:+ String slash c).
      rewrite split_app_sep, (split_without_sep slash c Hs), <- app_assoc. reflexivity.
    + apply append_nonempty. discriminate.
    + change (path +:+ "/" +:+ c) with (path +:+ ("/" +:+ c)).
      rewrite endswith_app by discriminate.
      change ("/" +:+ c) with ("/" +:+ c). simpl.
      destruct c as [|x c]; [congruence|]. apply (endswith_without slash (String x c) Hs).
Qed.

Lemma split_join_first (c : string) (cs : list string) :
  Forall segment (c :: cs) ->
  Str.split slash (Posixpath.join c cs) = c :: cs.
Proof.
  intros H. inversion H as [|? ? [Hc Hs] Hcs]; subst.
  rewrite split_join_segments; [|exact Hc|apply endswith_without, Hs|exact Hcs].
  now rewrite (split_without_sep slash c Hs).
Qed.

Lemma step_plain (cur : list string) (c : string) :
  plain c = true -> Posixpath.step cur c = cur ++ [c].
Proof.
  unfold plain, FS.is_name, Posixpath.step. intros H.
  apply andb_true_iff in H as [H _]. apply negb_true_iff in H.
  apply orb_false_iff in H as [H H3]. rewrite H, H3. reflexivity.
Qed.

Lemma fold_step_plain (cs cur : list string) :
  Forall (fun c => plain c = true) cs ->
  fold_left Posixpath.step cs cur = cur ++ cs.
Proof.
  revert cur. induction cs as [|c cs IH]; intros cur H; simpl.
  - now rewrite app_nil_r.
  - inversion H; subst. rewrite step_plain by assumption.
    rewrite IH by assumption. now rewrite <- app_assoc.
Qed.

Lemma commonprefix_app (p a b : list string) :
  Posixpath.commonprefix (p ++ a) (p ++ b) = p ++ Posixpath.commonprefix a b.
Proof.
  induction p as [|x p IH]; simpl; [reflexivity|].
  rewrite bool_decide_eq_true_2 by reflexivity. now rewrite IH.
Qed.

Lemma commonprefix_refl_app (a b : list string) :
  Posixpath.commonprefix a (a ++ b) = a.
Proof.
  induction a as [|x a IH]; simpl; [now destruct b|].
  rewrite bool_decide_eq_true_2 by reflexivity. now rewrite IH.
Qed.

Lemma split_head_not_abs (s c : string) (cs : list string) :
  Str.split slash s = c :: cs -> c <> "" -> Posixpath.isabs s = false.
Proof.
  destruct s as [|x s]; [reflexivity|]. simpl.
  unfold Posixpath.isabs. simpl.
  destruct (bool_decide (x = slash)); [|reflexivity].
  intros H. inversion H. congruence.
Qed.

Lemma split_head_not_empty (s c : string) (cs : list string) :
  Str.split slash s = c :: cs -> c <> "" -> s <> "".
Proof. intros H Hc ->. simpl in H. inversion H. congruence. Qed.

Lemma Forall_plain_segment (cs : list string) :
  Forall (fun c => plain c = true) cs -> Forall segment cs.
Proof.
  intros H. eapply Forall_impl; [exact H|]. intros c. apply plain_segment.
Qed.

(** ** The directory emulator *)

(** C9, as the code has it. The path opened is the base folder joined with
    the components of [relpath(filepath, 'resources')]. For a path of plain
    names under [resources] these are the names after [resources]; for a
    path of plain names that does not start with [resources] they are [..]
    followed by the whole path. [getfile] reads the file at that path. *)
Theorem emulator_resolution (self : AssetPackEmulator) (cwd0 : list string)
        (filepath c : string) (rest : list string) :
  Str.split slash filepath = c :: rest ->
  Forall (fun x => plain x = true) (c :: rest) ->
  (c = "resources" -> rest <> [] ->
   Emulator.resolved self cwd0 filepath = Ok (Posixpath.join (basefolder self) rest))
  /\ (c <> "resources" ->
      Emulator.resolved self cwd0 filepath
      = Ok (Posixpath.join (basefolder self) (".." :: c :: rest)))
  /\ (forall p data h0 s0 w, Emulator.resolved self (cwd w) filepath = Ok p ->
        FS.read_file p w = (Ok data, w) ->
        Emulator.getfile self filepath w
        = (Ok (fresh (dom (heap w))),
           set_heap (<[fresh (dom (heap w)) := mkStream data 0 (Some (PyStr p))]> (heap w)) w)
          /\ (heap w !! h0 = Some s0 -> fresh (dom (heap w)) <> h0)).
Proof.
  intros Hsplit Hplain.
  assert (Hc : c <> "").
  { inversion Hplain as [|? ? Hp _]; subst. now apply plain_segment in Hp as [? _]. }
  assert (Habs : Posixpath.isabs filepath = false) by (eapply split_head_not_abs; eauto).
  assert (Hne : filepath <> "") by (eapply split_head_not_empty; eauto).
  assert (Hpl : Posixpath.abs_components cwd0 filepath = cwd0 ++ c :: rest).
  { unfold Posixpath.abs_components. rewrite Habs, Hsplit. now apply fold_step_plain. }
  assert (Hsl : Posixpath.abs_components cwd0 "resources" = cwd0 ++ ["resources"]).
  { unfold Posixpath.abs_components. simpl. now rewrite step_plain. }
  split; [|split].
  - intros -> Hrest. unfold Emulator.resolved, Posixpath.relpath.
    rewrite bool_decide_eq_false_2 by exact Hne. cbn zeta. rewrite Hpl, Hsl.
    replace (cwd0 ++ "resources" :: rest) with ((cwd0 ++ ["resources"]) ++ rest)
      by now rewrite <- app_assoc.
    rewrite commonprefix_refl_app, Nat.sub_diag, drop_app_length. simpl.
    destruct rest as [|r rs]; [congruence|].
    rewrite split_join_first; [reflexivity|].
    inversion Hplain; subst. now apply Forall_plain_segment.
  - intros Hnr. unfold Emulator.resolved, Posixpath.relpath.
    rewrite bool_decide_eq_false_2 by exact Hne. cbn zeta. rewrite Hpl, Hsl.
    rewrite commonprefix_app. simpl.
    rewrite bool_decide_eq_false_2 by congruence.
    rewrite app_nil_r, length_app. simpl.
    replace (length cwd0 + 1 - length cwd0) with 1 by lia.
    rewrite drop_app_length. cbn [replicate app].
    rewrite split_join_first; [reflexivity|].
    constructor; [split; [discriminate|reflexivity]|].
    now apply Forall_plain_segment.
  - intros p data h0 s0 w Hp Hread. split.
    + unfold Emulator.getfile, bind. rewrite Hp, Hread. reflexivity.
    + intros Hh E. pose proof (fresh_handle_unused w) as Hf. rewrite E, Hh in Hf.
      discriminate.
Qed.

(** C9 as stated fails: a path without the anchor is not left unchanged. *)
Lemma emulator_path_without_anchor_changed :
  Emulator.resolved Sample.emulator ["home"] "images/a.png" = Ok "assets/../images/a.png"
  /\ Emulator.resolved Sample.emulator ["home"] "images/a.png"
     <> Ok (Posixpath.join "assets" ["images"; "a.png"]).
Proof. split; [reflexivity | discriminate]. Qed.

Lemma emulator_resolution_witness :
  Emulator.resolved Sample.emulator ["home"] "resources/images/a.png"
  = Ok "assets/images/a.png"
  /\ Emulator.resolved Sample.emulator ["home"] "images/a.png"
     = Ok "assets/../images/a.png".
Proof.
  split.
  - apply (emulator_resolution Sample.emulator ["home"] "resources/images/a.png"
             "resources" ["images"; "a.png"]);
      [reflexivity | repeat constructor | reflexivity | discriminate].
  - apply (emulator_resolution Sample.emulator ["home"] "images/a.png"
             "images" ["a.png"]);
      [reflexivity | repeat constructor | discriminate].
Defined.

(** ** Path components and resolution *)

Lemma append_cons (x : ascii) (a b : string) : String x a +:+ b = String x (a +:+ b).
Proof. reflexivity. Qed.

Lemma append_empty_r (s : string) : s +:+ "" = s.
Proof. induction s as [|x s IH]; [reflexivity|]. now rewrite append_cons, IH. Qed.

Lemma append_assoc (a b c : string) : (a +:+ b) +:+ c = a +:+ (b +:+ c).
Proof. induction a as [|x a IH]; [reflexivity|]. now rewrite !append_cons, IH. Qed.

Lemma contains_char_app (c : ascii) (a b : string) :
  Str.contains_char c (a +:+ b) = Str.contains_char c a || Str.contains_char c b.
Proof.
  induction a as [|x a IH]; [reflexivity|].
  rewrite append_cons. cbn [Str.contains_char]. now rewrite IH, orb_assoc.
Qed.

Lemma endswith_inv (c : ascii) (s : string) :
  Str.endswith_char c s = true -> exists s', s = s' +:+ String c "".
Proof.
  induction s as [|x s IH]; [discriminate|].
  simpl. destruct s as [|y s].
  - intros H. apply bool_decide_eq_true_1 in H. subst. now exists "".
  - intros H. destruct (IH H) as [s' Hs']. exists (String x s').
    now rewrite append_cons, <- Hs'.
Qed.

Lemma join_split (s : string) : Str.join "/" (Str.split slash s) = s.
Proof.
  induction s as [|x s IH]; [reflexivity|]. simpl.
  destruct (bool_decide (x = slash)) eqn:E.
  - apply bool_decide_eq_true_1 in E. subst x.
    destruct (Str.split slash s) eqn:Es; [now apply split_nonempty in Es|].
    change (Str.join "/" ("" :: s0 :: l)) with ("/" +:+ Str.join "/" (s0 :: l)).
    now rewrite IH.
  - destruct (Str.split slash s) as [|h r] eqn:Es; [now apply split_nonempty in Es|].
    destruct r as [|r1 r]; simpl in *; now rewrite <- IH.
Qed.

Lemma split_inj (a b : string) : Str.split slash a = Str.split slash b -> a = b.
Proof. intros H. rewrite <- (join_split a), <- (join_split b). now rewrite H. Qed.

Lemma comps_of_empty : comps_of "" = [].
Proof. reflexivity. Qed.

Lemma comps_of_segment (c : string) : segment c -> comps_of c = [c].
Proof.
  intros [Hc Hs]. unfold comps_of. rewrite (split_without_sep slash c Hs). simpl.
  unfold nonempty. now rewrite bool_decide_eq_false_2.
Qed.

Lemma comps_of_app_sep (a b : string) :
  comps_of (a +:+ String slash b) = comps_of a ++ comps_of b.
Proof. unfold comps_of. now rewrite split_app_sep, List.filter_app. Qed.

Lemma comps_of_join2 (path c : string) :
  joinable c ->
  comps_of (Posixpath.join2 path c) = comps_of path ++ List.filter nonempty [c].
Proof.
  intros Hc. unfold Posixpath.join2.
  assert (Hs : Str.startswith_char slash c = false).
  { destruct Hc as [->|[_ Hs]]; [reflexivity | now apply startswith_without]. }
  assert (Hf : List.filter nonempty [c] = comps_of c).
  { destruct Hc as [->|Hc]; [reflexivity|]. rewrite comps_of_segment by exact Hc.
    simpl. unfold nonempty. destruct Hc as [Hc _]. now rewrite bool_decide_eq_false_2. }
  rewrite Hs, Hf.
  destruct (bool_decide (path = "")) eqn:Ep.
  - apply bool_decide_eq_true_1 in Ep. subst path. reflexivity.
  - destruct (Str.endswith_char slash path) eqn:Ee; simpl.
    + apply endswith_inv in Ee as [p' ->].
      rewrite append_assoc. change (String slash "" +:+ c) with (String slash c).
      rewrite !comps_of_app_sep, comps_of_empty, app_nil_r. reflexivity.
    + change (path +:+ "/" +:+ c) with (path +:+ String slash c).
      apply comps_of_app_sep.
Qed.

Lemma Forall_joinable_app (cs : list string) (c : string) :
  Forall joinable cs -> joinable c -> Forall joinable (cs ++ [c]).
Proof. intros H Hc. apply Forall_app. split; [exact H | now constructor]. Qed.

Lemma join_snoc (path : string) (cs : list string) (c : string) :
  Posixpath.join path (cs ++ [c]) = Posixpath.join2 (Posixpath.join path cs) c.
Proof. unfold Posixpath.join. now rewrite fold_left_app. Qed.

Lemma comps_of_join (cs : list string) (path : string) :
  Forall joinable cs ->
  comps_of (Posixpath.join path cs) = comps_of path ++ List.filter nonempty cs.
Proof.
  induction cs as [|c cs IH] using rev_ind; intros H.
  - simpl. now rewrite app_nil_r.
  - apply Forall_app in H as [H Hc]. inversion Hc; subst.
    rewrite join_snoc, comps_of_join2 by assumption.
    rewrite IH by assumption. now rewrite List.filter_app, app_assoc.
Qed.

Lemma isabs_append (a b : string) : a <> "" -> Posixpath.isabs (a +:+ b) = Posixpath.isabs a.
Proof. destruct a; [congruence | reflexivity]. Qed.

Lemma isabs_join2 (path c : string) :
  joinable c -> Posixpath.isabs (Posixpath.join2 path c) = Posixpath.isabs path.
Proof.
  intros Hc. unfold Posixpath.join2.
  assert (Hs : Str.startswith_char slash c = false).
  { destruct Hc as [->|[_ Hs]]; [reflexivity | now apply startswith_without]. }
  rewrite Hs.
  destruct (bool_decide (path = "")) eqn:Ep.
  - apply bool_decide_eq_true_1 in Ep. subst path. simpl. exact Hs.
  - apply bool_decide_eq_false_1 in Ep.
    destruct (Str.endswith_char slash path); simpl; now apply isabs_append.
Qed.

Lemma isabs_join (cs : list string) (path : string) :
  Forall joinable cs -> Posixpath.isabs (Posixpath.join path cs) = Posixpath.isabs path.
Proof.
  induction cs as [|c cs IH] using rev_ind; intros H; [reflexivity|].
  apply Forall_app in H as [H Hc]. inversion Hc; subst.
  rewrite join_snoc, isabs_join2 by assumption. now apply IH.
Qed.

Lemma join2_segment_nonempty (path c : string) :
  segment c -> Posixpath.join2 path c <> "".
Proof.
  intros [Hc Hs]. unfold Posixpath.join2.
  rewrite (startswith_without _ _ Hs).
  destruct (_ || _).
  - now apply append_nonempty.
  - apply append_nonempty. discriminate.
Qed.

Lemma last_split_join2 (path c : string) :
  segment c -> List.last (Str.split slash (Posixpath.join2 path c)) "" = c.
Proof.
  intros Hc. pose proof Hc as [Hne Hs]. unfold Posixpath.join2.
  rewrite (startswith_without _ _ Hs).
  destruct (bool_decide (path = "")) eqn:Ep.
  - apply bool_decide_eq_true_1 in Ep. subst path. cbn [orb].
    change ("" +:+ c) with c.
    now rewrite (split_without_sep slash c Hs).
  - destruct (Str.endswith_char slash path) eqn:Ee; simpl.
    + apply endswith_inv in Ee as [p' ->]. rewrite append_assoc.
      change (String slash "" +:+ c) with (String slash c).
      rewrite split_app_sep, (split_without_sep slash c Hs). apply last_last.
    + change (path +:+ "/" +:+ c) with (path +:+ String slash c).
      rewrite split_app_sep, (split_without_sep slash c Hs). apply last_last.
Qed.

(** ** The file system *)

Lemma step_empty (cur : list string) : Posixpath.step cur "" = cur.
Proof. reflexivity. Qed.

Lemma resolve_cons f cur c rest :
  FS.resolve f cur (c :: rest) =
  if FS.is_dir f cur then FS.resolve f (Posixpath.step cur c) rest else None.
Proof. reflexivity. Qed.

Lemma resolve_not_dir f cur c rest :
  FS.is_dir f cur = false -> FS.resolve f cur (c :: rest) = None.
Proof. intros H. simpl. now rewrite H. Qed.

(** Empty components before the last one do not change where a path leads. *)
Lemma resolve_filter f (comps : list string) (cur : list string) :
  nonempty (List.last comps "") = true ->
  FS.resolve f cur comps = FS.resolve f cur (List.filter nonempty comps).
Proof.
  revert cur. induction comps as [|c rest IH]; intros cur Hl; [reflexivity|].
  destruct rest as [|c' rest'].
  - simpl in Hl. simpl. rewrite Hl. reflexivity.
  - assert (Hl' : nonempty (List.last (c' :: rest') "") = true) by exact Hl.
    specialize (IH (Posixpath.step cur c) Hl') as IHs.
    change (List.filter nonempty (c :: c' :: rest'))
      with (if nonempty c then c :: List.filter nonempty (c' :: rest')
            else List.filter nonempty (c' :: rest')).
    rewrite (resolve_cons f cur c (c' :: rest')). destruct (nonempty c) eqn:Ec.
    + rewrite (resolve_cons f cur c (List.filter nonempty (c' :: rest'))).
      destruct (FS.is_dir f cur); [exact IHs | reflexivity].
    + unfold nonempty in Ec. apply negb_false_iff, bool_decide_eq_true_1 in Ec. subst c.
      rewrite step_empty in *.
      destruct (FS.is_dir f cur) eqn:Ed; [exact IHs|].
      rewrite <- (IH cur Hl'). symmetry. now apply resolve_not_dir.
Qed.

Lemma resolve_fold f (comps : list string) (cur t : list string) :
  FS.resolve f cur comps = Some t -> t = fold_left Posixpath.step comps cur.
Proof.
  revert cur. induction comps as [|c rest IH]; intros cur H; simpl in *.
  - congruence.
  - destruct (FS.is_dir f cur); [now apply IH | discriminate].
Qed.

Lemma keeps_dirs_refl f : keeps_dirs f f.
Proof. intros q H. exact H. Qed.

Lemma keeps_dirs_trans f g h : keeps_dirs f g -> keeps_dirs g h -> keeps_dirs f h.
Proof. intros H1 H2 q H. apply H2, H1, H. Qed.

Lemma resolve_mono f f' (comps : list string) (cur t : list string) :
  keeps_dirs f f' -> FS.resolve f cur comps = Some t -> FS.resolve f' cur comps = Some t.
Proof.
  intros Hk. revert cur. induction comps as [|c rest IH]; intros cur H; simpl in *.
  - exact H.
  - destruct (FS.is_dir f cur) eqn:Ed; [|discriminate].
    rewrite (Hk cur Ed). now apply IH.
Qed.

Lemma keeps_nodes_dirs f f' : keeps_nodes f f' -> keeps_dirs f f'.
Proof.
  intros H q. unfold FS.is_dir, FS.node_at. destruct q as [|x q]; [tauto|].
  destruct (f !! (x :: q)) as [[|]|] eqn:E; try discriminate.
  now rewrite (H _ _ E).
Qed.

Lemma node_at_none f q : FS.node_at f q = None -> f !! q = None.
Proof. destruct q; [discriminate | tauto]. Qed.

Lemma step_dot (cur : list string) : Posixpath.step cur "." = cur.
Proof. reflexivity. Qed.

Lemma is_name_not_dotty (c : string) : FS.is_name c = true -> FS.dotty c = false.
Proof.
  unfold FS.is_name, FS.dotty. intros H. apply negb_true_iff in H.
  apply orb_false_iff in H as [H _]. exact H.
Qed.

Lemma name_len_le (total : nat) (rest : list string) : FS.name_len total rest <= total.
Proof. unfold FS.name_len. destruct (forallb _ rest); lia. Qed.

(** Whatever its outcome, the walk of [makedirs] keeps the nodes there are
    and makes no file. *)
Lemma mkdirs_kept (comps : list string) f (made : bool) (cur : list string) (total : nat) :
  keeps_nodes f (fst (FS.mkdirs f made cur total comps))
  /\ (forall q d, fst (FS.mkdirs f made cur total comps) !! q = Some (File d) ->
                  f !! q = Some (File d)).
Proof.
  revert f made cur. induction comps as [|c rest IH]; intros f made cur.
  - simpl. split; [intros q n Hq; exact Hq | tauto].
  - cbn [FS.mkdirs].
    assert (Hid : keeps_nodes f f /\ (forall q d, f !! q = Some (File d) -> f !! q = Some (File d))).
    { split; [intros q n Hq; exact Hq | tauto]. }
    destruct (FS.is_dir f cur) eqn:Ed; [|exact Hid].
    destruct (FS.has_nul c); [exact Hid|].
    destruct (bool_decide (c = "")); [apply IH|].
    destruct (bool_decide (c = ".")).
    { destruct (_ || _); [apply IH | exact Hid]. }
    destruct (_ || _); [exact Hid|]. cbv zeta.
    destruct (FS.node_at f (Posixpath.step cur c)) as [n|] eqn:En; [apply IH|].
    destruct (IH (<[Posixpath.step cur c := Dir]> f) true (Posixpath.step cur c)) as [Hk Hf].
    apply node_at_none in En. split.
    + intros q n Hq. apply Hk. rewrite lookup_insert_ne; [exact Hq|].
      intros E. subst q. congruence.
    + intros q d Hq. apply Hf in Hq.
      destruct (decide (Posixpath.step cur c = q)) as [E|E].
      * subst q. rewrite lookup_insert_eq in Hq. discriminate.
      * now rewrite lookup_insert_ne in Hq.
Qed.


(** Where the walk returns although it stands at a file, the path ends in
    a component [.] or an empty one. *)
Lemma blocked_ok (comps : list string) (quirk seen : bool) :
  FS.blocked quirk seen comps = Ok tt -> comps <> [] ->
  FS.dotty (List.last comps "") = true.
Proof.
  revert seen. induction comps as [|c rest IH]; intros seen H Hne; [congruence|].
  simpl in H. unfold FS.dotty.
  destruct (bool_decide (c = "")) eqn:E0.
  { destruct rest as [|c' rest']; [cbn [List.last]; now rewrite E0|].
    apply (IH seen H). discriminate. }
  destruct (bool_decide (c = ".")) eqn:E1.
  { rewrite andb_true_r in H. destruct quirk; cbn [andb] in H.
    - destruct rest as [|c' rest']; [cbn [List.last]; rewrite E1; apply orb_true_r|].
      apply (IH true H). discriminate.
    - destruct (FS.has_nul c); discriminate. }
  rewrite andb_false_r in H. destruct (FS.has_nul c); discriminate.
Qed.


(** What a walk that has returned has done, for a path whose last
    component is a name: the path leads to a directory, and neither a zero
    byte nor a length has stopped it. *)
Lemma mkdirs_done (comps : list string) f (made : bool) (cur : list string) (total : nat) :
  snd (FS.mkdirs f made cur total comps) = Ok tt ->
  FS.is_name (List.last comps "") = true ->
  FS.resolve (fst (FS.mkdirs f made cur total comps)) cur comps
  = Some (fold_left Posixpath.step comps cur)
  /\ FS.is_dir (fst (FS.mkdirs f made cur total comps)) (fold_left Posixpath.step comps cur) = true
  /\ Forall (fun c => FS.has_nul c = false) comps
  /\ Forall (fun c => (N.of_nat (String.length c) <=? FS.NAME_MAX)%N = true) comps
  /\ (N.of_nat total <? FS.PATH_MAX)%N = true.
Proof.
  revert f made cur. induction comps as [|c rest IH]; intros f made cur Hok Hlast.
  - discriminate.
  - assert (Hrest : rest <> [] -> FS.is_name (List.last rest "") = true).
    { intros Hne. destruct rest; [congruence | exact Hlast]. }
    pose proof (mkdirs_kept (c :: rest) f made cur total) as [Hk _].
    revert Hok Hk. cbn [FS.mkdirs].
    destruct (FS.is_dir f cur) eqn:Ed.
    2:{ cbn [snd]. intros Hb _. exfalso.
        apply blocked_ok in Hb; [|discriminate].
        rewrite (is_name_not_dotty _ Hlast) in Hb. discriminate. }
    destruct (FS.has_nul c) eqn:Hn; [discriminate|].
    assert (Hshort0 : (N.of_nat (String.length "") <=? FS.NAME_MAX)%N = true) by reflexivity.
    assert (Hshort1 : (N.of_nat (String.length ".") <=? FS.NAME_MAX)%N = true) by reflexivity.
    destruct (bool_decide (c = "")) eqn:E0.
    { apply bool_decide_eq_true_1 in E0. subst c.
      destruct rest as [|c' rest']; [discriminate|].
      intros Hok Hk. destruct (IH f made cur Hok (Hrest ltac:(discriminate)))
        as (Hr & Hd & Hnul & Hsh & Htot).
      rewrite resolve_cons, (keeps_nodes_dirs _ _ Hk cur Ed), step_empty.
      cbn [fold_left]. rewrite step_empty.
      split; [exact Hr|]. split; [exact Hd|].
      split; [constructor; [reflexivity | exact Hnul]|].
      split; [constructor; [exact Hshort0 | exact Hsh] | exact Htot]. }
    destruct (bool_decide (c = ".")) eqn:E1.
    { apply bool_decide_eq_true_1 in E1. subst c.
      destruct rest as [|c' rest']; [discriminate|].
      destruct (made || (N.of_nat (FS.name_len total (c' :: rest')) <? FS.PATH_MAX)%N);
        [|discriminate].
      intros Hok Hk. destruct (IH f made cur Hok (Hrest ltac:(discriminate)))
        as (Hr & Hd & Hnul & Hsh & Htot).
      rewrite resolve_cons, (keeps_nodes_dirs _ _ Hk cur Ed), step_dot.
      cbn [fold_left]. rewrite step_dot.
      split; [exact Hr|]. split; [exact Hd|].
      split; [constructor; [reflexivity | exact Hnul]|].
      split; [constructor; [exact Hshort1 | exact Hsh] | exact Htot]. }
    destruct ((FS.NAME_MAX <? N.of_nat (String.length c))%N
              || (FS.PATH_MAX <=? N.of_nat (FS.name_len total rest))%N) eqn:El;
      [discriminate|].
    apply orb_false_iff in El as [El1 El2].
    assert (Hc : (N.of_nat (String.length c) <=? FS.NAME_MAX)%N = true).
    { apply N.leb_le. apply N.ltb_ge in El1. exact El1. }
    cbv zeta. cbn [fold_left].
    assert (Hgo : forall g mk,
               keeps_nodes f g ->
               snd (FS.mkdirs g mk (Posixpath.step cur c) total rest) = Ok tt ->
               keeps_nodes f (fst (FS.mkdirs g mk (Posixpath.step cur c) total rest)) ->
               FS.resolve (fst (FS.mkdirs g mk (Posixpath.step cur c) total rest)) cur (c :: rest)
               = Some (fold_left Posixpath.step rest (Posixpath.step cur c))
               /\ FS.is_dir (fst (FS.mkdirs g mk (Posixpath.step cur c) total rest))
                            (fold_left Posixpath.step rest (Posixpath.step cur c)) = true
               /\ Forall (fun c0 => FS.has_nul c0 = false) (c :: rest)
               /\ Forall (fun c0 => (N.of_nat (String.length c0) <=? FS.NAME_MAX)%N = true)
                         (c :: rest)
               /\ (N.of_nat total <? FS.PATH_MAX)%N = true).
    { intros g mk Hfg Hok Hk.
      rewrite resolve_cons, (keeps_nodes_dirs _ _ Hk cur Ed).
      destruct rest as [|c' rest'].
      - simpl in Hok |- *. destruct (FS.is_dir g (Posixpath.step cur c)) eqn:Edn;
          [|discriminate].
        split; [reflexivity|]. split; [reflexivity|].
        split; [constructor; [exact Hn | constructor]|].
        split; [constructor; [exact Hc | constructor]|].
        apply N.ltb_lt. apply N.leb_gt in El2. exact El2.
      - destruct (IH g mk (Posixpath.step cur c) Hok (Hrest ltac:(discriminate)))
          as (Hr & Hd & Hnul & Hsh & Htot).
        split; [exact Hr|]. split; [exact Hd|].
        split; [constructor; [exact Hn | exact Hnul]|].
        split; [constructor; [exact Hc | exact Hsh] | exact Htot]. }
    destruct (FS.node_at f (Posixpath.step cur c)) as [n|] eqn:En.
    + intros Hok Hk. apply Hgo; [intros q n0 Hq; exact Hq | exact Hok | exact Hk].
    + intros Hok Hk. apply Hgo; [|exact Hok | exact Hk].
      apply node_at_none in En. intros q n0 Hq.
      rewrite lookup_insert_ne; [exact Hq|]. intros E. subst q. congruence.
Qed.

(** ** Loops *)

Lemma bind_ok {A B} (m : M A) (k : A -> M B) (w w1 : world) (a : A) :
  m w = (Ok a, w1) -> bind m k w = k a w1.
Proof. intros H. unfold bind. now rewrite H. Qed.

Lemma bind_raise {A B} (m : M A) (k : A -> M B) (w w1 : world) (e : exn) :
  m w = (Raise e, w1) -> bind m k w = (Raise e, w1).
Proof. intros H. unfold bind. now rewrite H. Qed.

Lemma bind_ok_inv {A B} (m : M A) (k : A -> M B) (w w' : world) (b : B) :
  bind m k w = (Ok b, w') -> exists a w1, m w = (Ok a, w1) /\ k a w1 = (Ok b, w').
Proof.
  unfold bind. destruct (m w) as [[a|e] w1]; intros H; [|discriminate].
  now exists a, w1.
Qed.


Lemma for_each_ext {A} (l : list A) (body1 body2 : A -> M unit) (w : world) :
  (forall x w0, body1 x w0 = body2 x w0) ->
  for_each l body1 w = for_each l body2 w.
Proof.
  intros H. revert w. induction l as [|x l IH]; intros w; simpl; [reflexivity|].
  unfold bind. rewrite H. destruct (body2 x w) as [[[]|e] w1]; [apply IH | reflexivity].
Qed.

Lemma for_each_map {A B} (f : A -> B) (l : list A) (body : B -> M unit) (w : world) :
  for_each (map f l) body w = for_each l (fun x => body (f x)) w.
Proof.
  revert w. induction l as [|x l IH]; intros w; simpl; [reflexivity|].
  unfold bind. destruct (body (f x) w) as [[[]|e] w1]; [apply IH | reflexivity].
Qed.

(** A loop whose steps all keep a relation [R] between the worlds before
    and after, and each establish a property [Q] of their element that [R]
    does not undo: once the loop has returned, [R] relates its two ends and
    [Q] holds of every element. *)
Lemma for_each_post {A} (R : world -> world -> Prop) (Q : A -> world -> Prop)
      (body : A -> M unit) (l : list A) :
  (forall w, R w w) ->
  (forall w1 w2 w3, R w1 w2 -> R w2 w3 -> R w1 w3) ->
  (forall x w1 w2, In x l -> Q x w1 -> R w1 w2 -> Q x w2) ->
  (forall x w1 w2, In x l -> body x w1 = (Ok tt, w2) -> R w1 w2 /\ Q x w2) ->
  forall w w', for_each l body w = (Ok tt, w') ->
               R w w' /\ forall x, In x l -> Q x w'.
Proof.
  intros Hrefl Htrans. induction l as [|x l IH]; intros Hstable Hbody w w' H.
  - simpl in H. inversion H; subst. split; [apply Hrefl | intros ? []].
  - simpl in H. apply bind_ok_inv in H as ([] & w1 & Hx & Hrest).
    destruct (Hbody x w w1 (or_introl eq_refl) Hx) as [HR HQ].
    destruct (IH (fun y a b Hy => Hstable y a b (or_intror Hy))
                 (fun y a b Hy => Hbody y a b (or_intror Hy)) w1 w' Hrest) as [HR' HQ'].
    split; [eapply Htrans; eauto|].
    intros y [->|Hy]; [eapply Hstable; eauto; now left | now apply HQ'].
Qed.


(** A loop with a step that cannot return does not return. *)
Lemma for_each_blocked {A} (body : A -> M unit) (l : list A) (x : A) :
  In x l -> (forall w w1, body x w <> (Ok tt, w1)) ->
  forall w w', for_each l body w <> (Ok tt, w').
Proof.
  induction l as [|y l IH]; intros Hin Hx w w' H; [destruct Hin|].
  simpl in H. apply bind_ok_inv in H as ([] & w1 & Hy & Hrest).
  destruct Hin as [->|Hin]; [eapply Hx; eauto | eapply IH; eauto].
Qed.

(** ** Extraction of an archive of the specification's shape *)

Lemma bind_lift_ok {A B} (a : A) (k : A -> M B) (w : world) :
  bind (lift (Ok a)) k w = k a w.
Proof. reflexivity. Qed.

Lemma bind_congr {A B} (m1 m2 : M A) (k1 k2 : A -> M B) (w : world) :
  m1 w = m2 w -> (forall a w1, k1 a w1 = k2 a w1) -> bind m1 k1 w = bind m2 k2 w.
Proof.
  intros Hm Hk. unfold bind. rewrite Hm.
  destruct (m2 w) as [[a|e] w1]; [apply Hk | reflexivity].
Qed.

Lemma extract_item_typed (self : AssetPack) (epath : string) (keys : list pykey)
      (kv : string * dir_entry) (w : world) :
  extract_item self epath keys (KStr (fst kv), py_of_entry (snd kv)) w
  = item_typed self epath keys kv w.
Proof.
  unfold extract_item, item_typed. cbn [fst snd key_split].
  rewrite bind_lift_ok. apply bind_congr; [reflexivity|]. intros [] w1.
  change (subscript (py_of_entry (snd kv)) (KStr "files"))
    with (@Ok pyval (PyList (map PyStr (files (snd kv))))).
  change (subscript (py_of_entry (snd kv)) (KStr "dirs"))
    with (@Ok pyval (PyList (map PyStr (dirs (snd kv))))).
  rewrite !bind_lift_ok. cbn [py_iter]. rewrite bind_lift_ok.
  apply bind_congr.
  { rewrite for_each_map. apply for_each_ext. reflexivity. }
  intros [] w2. rewrite bind_lift_ok.
  apply bind_congr; [|reflexivity].
  rewrite for_each_map. apply for_each_ext. reflexivity.
Qed.

Lemma extract_typed (p : pyval) (t : list (string * bytes)) (d : list (string * dir_entry))
      (epath : string) (w : world) :
  let self := mkPack p (py_of_tree t) (py_of_dirinfo d) in
  let keys := map (fun kv => KStr (fst kv)) d in
  extract self epath w
  = for_each d (item_typed self epath keys) (add_log (EvTqdm (length d)) w).
Proof.
  intros self keys. unfold extract, getDir. cbn [dirinfo self py_of_dirinfo py_keys py_items].
  rewrite bind_lift_ok. unfold bind at 1. cbn [emit].
  rewrite bind_lift_ok, for_each_map.
  rewrite !length_map, map_map. cbn [fst].
  apply for_each_ext. intros kv w0. apply extract_item_typed.
Qed.

Lemma dict_get_tree (t : list (string * bytes)) (k : string) :
  dict_get (map (fun kv => (KStr (fst kv), PyBytes (snd kv))) t) (KStr k)
  = PyBytes <$> tree_get t k.
Proof.
  unfold dict_get, tree_get. induction t as [|[k0 b0] t IH]; [reflexivity|].
  simpl. destruct (decide (k0 = k)) as [->|Hne].
  - rewrite !bool_decide_eq_true_2 by reflexivity. reflexivity.
  - rewrite !bool_decide_eq_false_2 by congruence. exact IH.
Qed.

Lemma refused_none (p : string) :
  FS.refused p = None <-> FS.has_nul p = false /\ FS.fits p = true.
Proof.
  unfold FS.refused. destruct (FS.has_nul p); [split; [discriminate | intros [? _]; discriminate]|].
  destruct (FS.fits p); [tauto|]. split; [discriminate | intros [_ ?]; discriminate].
Qed.

Lemma open_wb_inv (p : string) (w w1 : world) (T : list string) :
  FS.open_wb p w = (Ok T, w1) ->
  FS.locate w p = Some T
  /\ FS.is_name (List.last (Str.split slash p) "") = true
  /\ FS.node_at (fs w) T <> Some Dir
  /\ w1 = set_fs (<[T := File []]> (fs w)) w.
Proof.
  unfold FS.open_wb. destruct (FS.refused p); [discriminate|].
  destruct (FS.locate w p) as [T0|]; [|discriminate].
  destruct (FS.is_name _); [|discriminate].
  destruct (FS.node_at (fs w) T0) as [[|]|] eqn:En; intros H; inversion H; subst;
    repeat split; congruence.
Qed.

Lemma open_wb_refused (p : string) (w w1 : world) (T : list string) :
  FS.open_wb p w = (Ok T, w1) -> FS.refused p = None.
Proof. unfold FS.open_wb. destruct (FS.refused p); [discriminate | reflexivity]. Qed.

(** When [open] can open a path for writing. *)
Lemma open_wb_ok (p : string) (w : world) (T : list string) :
  FS.refused p = None -> FS.locate w p = Some T ->
  FS.is_name (List.last (Str.split slash p) "") = true ->
  FS.node_at (fs w) T <> Some Dir ->
  FS.open_wb p w = (Ok T, set_fs (<[T := File []]> (fs w)) w).
Proof.
  intros Hr Hl Hn Hd. unfold FS.open_wb. rewrite Hr, Hl, Hn.
  destruct (FS.node_at (fs w) T) as [[|]|]; [reflexivity | congruence | reflexivity].
Qed.

Lemma open_wb_raise (p : string) (w w1 : world) (e : exn) :
  FS.open_wb p w = (Raise e, w1) -> fs_error e /\ w1 = w.
Proof.
  unfold FS.open_wb. destruct (FS.refused p) as [e0|] eqn:Hr.
  { intros H; inversion H; subst. split; [eapply refused_error; eauto | reflexivity]. }
  destruct (FS.locate w p) as [T0|]; [|intros H; inversion H; split; [now left|reflexivity]].
  destruct (FS.is_name _); [|intros H; inversion H; split; [now left|reflexivity]].
  destruct (FS.node_at (fs w) T0) as [[|]|]; intros H; inversion H; split;
    solve [now left | reflexivity].
Qed.

Lemma open_wb_outcome (p : string) (w w1 : world) (e : exn) :
  FS.open_wb p w = (Raise e, w1) -> fs_error e.
Proof. intros H. now apply open_wb_raise in H. Qed.


Section ExportFile.

Variable t : list (string * bytes).
Variable self : AssetPack.
Hypothesis self_tree : tree self = py_of_tree t.

Lemma getfile_tree (k : string) (b : bytes) (w : world) :
  tree_get t k = Some b ->
  getfile self k w =
  (Ok (fresh (dom (heap w))),
   set_heap (<[fresh (dom (heap w)) := mkStream b 0 None]> (heap w)) w).
Proof.
  intros H. eapply getfile_present; [exact self_tree|].
  rewrite dict_get_tree, H. reflexivity.
Qed.

Lemma getfile_missing (k : string) (w : world) :
  tree_get t k = None -> getfile self k w = (Raise (KeyError (KStr k)), w).
Proof.
  intros H. unfold getfile, bind, lift, subscript. rewrite self_tree.
  unfold py_of_tree. rewrite dict_get_tree, H. reflexivity.
Qed.

(** [exportfile] of an asset: the destination is opened, so emptied or
    created, and then holds the bytes. *)
Lemma exportfile_present (packpath p : string) (b : bytes) (w : world) :
  tree_get t packpath = Some b ->
  (exists e w1, exportfile self packpath p w = (Raise e, w1) /\ fs_error e)
  \/ (exists T w1,
        FS.open_wb p w = (Ok T, set_fs (<[T := File []]> (fs w)) w)
        /\ exportfile self packpath p w = (Ok tt, w1)
        /\ fs w1 = <[T := File b]> (fs w) /\ cwd w1 = cwd w).
Proof.
  intros Hb. unfold exportfile.
  destruct (FS.open_wb p w) as [[T|e] w0] eqn:Ho.
  - right. destruct (open_wb_inv _ _ _ _ Ho) as (_ & _ & _ & ->).
    rewrite (bind_ok _ _ _ _ _ Ho).
    rewrite (bind_ok _ _ _ _ _ (getfile_tree packpath b _ Hb)).
    erewrite bind_ok by (apply read_fresh_stream, lookup_insert_eq).
    eexists. eexists. split; [reflexivity|]. split; [reflexivity|].
    split; [|reflexivity]. simpl. apply insert_insert_eq.
  - left. exists e, w0. rewrite (bind_raise _ _ _ _ _ Ho).
    split; [reflexivity | exact (open_wb_outcome _ _ _ _ Ho)].
Qed.

(** [exportfile] of a path that is not in [tree]: the destination is
    opened first, and then the lookup raises. *)
Lemma exportfile_missing (packpath p : string) (w : world) :
  tree_get t packpath = None ->
  (exists e w1, exportfile self packpath p w = (Raise e, w1) /\ fs_error e)
  \/ (exists T w1, FS.open_wb p w = (Ok T, w1)
                   /\ exportfile self packpath p w = (Raise (KeyError (KStr packpath)), w1)).
Proof.
  intros Hb. unfold exportfile.
  destruct (FS.open_wb p w) as [[T|e] w0] eqn:Ho.
  - right. exists T, w0. split; [reflexivity|].
    rewrite (bind_ok _ _ _ _ _ Ho).
    apply bind_raise. now apply getfile_missing.
  - left. exists e, w0. rewrite (bind_raise _ _ _ _ _ Ho).
    split; [reflexivity | exact (open_wb_outcome _ _ _ _ Ho)].
Qed.

End ExportFile.


Section MissingAsset.

Variable t : list (string * bytes).
Variable d : list (string * dir_entry).
Variable p : pyval.
Variable epath : string.

Local Abbreviation self := (mkPack p (py_of_tree t) (py_of_dirinfo d)).
Local Abbreviation keys := (map (fun kv : string * dir_entry => KStr (fst kv)) d).



Lemma item_blocked (key file : string) (e0 : dir_entry) :
  In file (files e0) -> tree_get t (key +:+ "/" +:+ file) = None ->
  forall w w', item_typed self epath keys (key, e0) w <> (Ok tt, w').
Proof.
  intros Hf Hb w w' H. unfold item_typed in H. cbn [fst snd] in H.
  apply bind_ok_inv in H as ([] & w1 & _ & H).
  apply bind_ok_inv in H as ([] & w2 & _ & H).
  apply bind_ok_inv in H as ([] & w3 & H & _).
  revert H. apply (for_each_blocked _ _ file Hf). intros w4 w5 H.
  destruct (exportfile_missing t self eq_refl _
              (Posixpath.join epath (Str.split slash key ++ [file])) w4 Hb)
    as [(e6 & w6 & H6 & _)|(T & w6 & _ & H6)]; rewrite H6 in H; discriminate.
Qed.


End MissingAsset.

(** ** Where extraction writes *)

Lemma plain_nonempty (c : string) : plain c = true -> nonempty c = true.
Proof.
  intros H. apply plain_segment in H as [H _]. unfold nonempty.
  now rewrite bool_decide_eq_false_2.
Qed.

Lemma filter_nonempty_plain (cs : list string) :
  forallb plain cs = true -> List.filter nonempty cs = cs.
Proof.
  induction cs as [|c cs IH]; [reflexivity|]. simpl. intros H.
  apply andb_true_iff in H as [Hc Hcs]. rewrite (plain_nonempty c Hc). now rewrite IH.
Qed.

Lemma key_ok_cases (key : string) :
  key_ok key = true ->
  (key = "" /\ kcomps key = [])
  \/ (forallb plain (Str.split slash key) = true /\ kcomps key = Str.split slash key).
Proof.
  unfold key_ok. intros H. apply orb_true_iff in H as [H|H].
  - left. apply bool_decide_eq_true_1 in H. subst. split; reflexivity.
  - right. split; [exact H | now apply filter_nonempty_plain].
Qed.

Lemma forallb_Forall_plain (cs : list string) :
  forallb plain cs = true -> Forall (fun c => plain c = true) cs.
Proof.
  induction cs as [|c cs IH]; simpl; intros H; [constructor|].
  apply andb_true_iff in H as [Hc Hcs]. constructor; [exact Hc | now apply IH].
Qed.

Lemma key_ok_joinable (key : string) :
  key_ok key = true -> Forall joinable (Str.split slash key).
Proof.
  intros H. destruct (key_ok_cases key H) as [[-> _]|[Hp _]].
  - constructor; [now left | constructor].
  - apply forallb_Forall_plain in Hp. eapply Forall_impl; [exact Hp|].
    intros c Hc. right. now apply plain_segment.
Qed.

Lemma key_ok_kcomps_plain (key : string) :
  key_ok key = true -> Forall (fun c => plain c = true) (kcomps key).
Proof.
  intros H. destruct (key_ok_cases key H) as [[_ ->]|[Hp ->]].
  - constructor.
  - now apply forallb_Forall_plain.
Qed.

Lemma kcomps_inj (k1 k2 : string) :
  key_ok k1 = true -> key_ok k2 = true -> kcomps k1 = kcomps k2 -> k1 = k2.
Proof.
  intros H1 H2 E.
  destruct (key_ok_cases k1 H1) as [[-> E1]|[_ E1]];
    destruct (key_ok_cases k2 H2) as [[-> E2]|[_ E2]]; try reflexivity.
  - rewrite E1, E2 in E. symmetry in E. now apply split_nonempty in E.
  - rewrite E1, E2 in E. now apply split_nonempty in E.
  - rewrite E1, E2 in E. now apply split_inj.
Qed.

Lemma target_inj (base : list string) (epath k1 f1 k2 f2 : string) :
  key_ok k1 = true -> key_ok k2 = true ->
  target base epath k1 f1 = target base epath k2 f2 -> k1 = k2 /\ f1 = f2.
Proof.
  unfold target. intros H1 H2 E. apply app_inv_head in E.
  apply app_inj_tail in E as [E ->]. split; [|reflexivity]. now apply kcomps_inj.
Qed.

Section Paths.

Variable epath : string.
Variable base : list string.

Local Abbreviation startp := (if Posixpath.isabs epath then [] else base).

Lemma start_join (cs : list string) (w : world) :
  cwd w = base -> Forall joinable cs ->
  FS.start w (Posixpath.join epath cs) = startp.
Proof. intros Hc H. unfold FS.start. now rewrite isabs_join, Hc. Qed.

(** Where the destination of an exported file is looked up. *)
Lemma locate_file (key file : string) (w : world) :
  cwd w = base -> key_ok key = true -> plain file = true ->
  FS.locate w (Posixpath.join epath (Str.split slash key ++ [file]))
  = FS.resolve (fs w) startp (comps_of epath ++ kcomps key ++ [file]).
Proof.
  intros Hc Hk Hf.
  assert (Hseg : segment file) by now apply plain_segment.
  assert (Hj : Forall joinable (Str.split slash key ++ [file])).
  { apply Forall_joinable_app; [now apply key_ok_joinable | now right]. }
  unfold FS.locate. rewrite bool_decide_eq_false_2.
  2:{ rewrite join_snoc. now apply join2_segment_nonempty. }
  rewrite (start_join _ _ Hc Hj), resolve_filter.
  2:{ rewrite join_snoc, last_split_join2 by exact Hseg. now apply plain_nonempty. }
  fold (comps_of (Posixpath.join epath (Str.split slash key ++ [file]))).
  rewrite comps_of_join by exact Hj.
  rewrite List.filter_app. fold (kcomps key). simpl.
  now rewrite (plain_nonempty file Hf).
Qed.

Lemma resolve_target (key file : string) f (T : list string) :
  key_ok key = true -> plain file = true ->
  FS.resolve f startp (comps_of epath ++ kcomps key ++ [file]) = Some T ->
  T = target base epath key file.
Proof.
  intros Hk Hf H. apply resolve_fold in H. subst T.
  rewrite fold_left_app. fold (dest base epath). unfold target.
  apply fold_step_plain. apply Forall_app. split.
  - now apply key_ok_kcomps_plain.
  - now constructor.
Qed.

End Paths.

Lemma forallb_Forall_true {A} (P : A -> bool) (l : list A) :
  forallb P l = true <-> Forall (fun x => P x = true) l.
Proof.
  induction l as [|x l IH]; simpl.
  - split; [constructor | reflexivity].
  - rewrite andb_true_iff, IH. split.
    + intros [? ?]. now constructor.
    + intros H. inversion H. tauto.
Qed.

(** A character other than the separator is in a string exactly when it is
    in one of its components. *)
Lemma contains_char_split (a sep : ascii) (p : string) :
  a <> sep ->
  Str.contains_char a p = false
  <-> Forall (fun c => Str.contains_char a c = false) (Str.split sep p).
Proof.
  intros Hne. induction p as [|x p IH].
  - simpl. split; [repeat constructor | reflexivity].
  - cbn [Str.split Str.contains_char]. destruct (bool_decide (x = sep)) eqn:Ex.
    + apply bool_decide_eq_true_1 in Ex. subst x.
      rewrite (bool_decide_eq_false_2 (sep = a)) by congruence. cbn [orb].
      rewrite IH. split.
      * intros H. constructor; [reflexivity | exact H].
      * intros H. now inversion H.
    + destruct (Str.split sep p) as [|h r] eqn:Es.
      * exfalso. now apply (split_nonempty sep p).
      * rewrite orb_false_iff, IH. split.
        -- intros [Hx H]. inversion H; subst. constructor; [|assumption].
           cbn [Str.contains_char]. now rewrite Hx.
        -- intros H. inversion H as [|? ? Hh Hr]; subst.
           cbn [Str.contains_char] in Hh. apply orb_false_iff in Hh as [Hx Hh].
           split; [exact Hx|]. now constructor.
Qed.

Lemma nul_not_slash : nul <> slash.
Proof. discriminate. Qed.

Lemma is_directory_mono (p : string) (w w1 : world) :
  cwd w1 = cwd w -> keeps_dirs (fs w) (fs w1) ->
  FS.is_directory p w = true -> FS.is_directory p w1 = true.
Proof.
  intros Hc Hk. unfold FS.is_directory, FS.locate, FS.start. rewrite Hc.
  destruct (FS.refused p); [discriminate|].
  destruct (bool_decide (p = "")); [discriminate|].
  destruct (FS.resolve (fs w) _ _) as [T|] eqn:Hr; [|discriminate].
  rewrite (resolve_mono _ _ _ _ _ Hk Hr). apply Hk.
Qed.

Lemma mkdirs_existing f (comps : list string) (cur T : list string) (total : nat) :
  FS.resolve f cur comps = Some T -> FS.is_dir f T = true ->
  Forall (fun c => FS.has_nul c = false) comps ->
  Forall (fun c => (N.of_nat (String.length c) <=? FS.NAME_MAX)%N = true) comps ->
  (N.of_nat total <? FS.PATH_MAX)%N = true ->
  FS.mkdirs f false cur total comps = (f, Ok tt).
Proof.
  intros Hr Hd Hnul Hsh Htot. revert cur Hr.
  induction comps as [|c rest IH]; intros cur Hr.
  - simpl in *. inversion Hr; subst. now rewrite Hd.
  - rewrite resolve_cons in Hr. cbn [FS.mkdirs].
    inversion Hnul as [|? ? Hn Hnul']; subst. inversion Hsh as [|? ? Hs Hsh']; subst.
    rewrite Hn.
    destruct (FS.is_dir f cur); [|discriminate].
    assert (Hlen : (N.of_nat (FS.name_len total rest) <? FS.PATH_MAX)%N = true).
    { apply N.ltb_lt. apply N.ltb_lt in Htot. pose proof (name_len_le total rest). lia. }
    destruct (bool_decide (c = "")) eqn:E0.
    { apply bool_decide_eq_true_1 in E0. subst c. rewrite step_empty in Hr. now apply IH. }
    destruct (bool_decide (c = ".")) eqn:E1.
    { apply bool_decide_eq_true_1 in E1. subst c. rewrite step_dot in Hr.
      rewrite Hlen. cbn [orb]. now apply IH. }
    replace ((FS.NAME_MAX <? N.of_nat (String.length c))%N) with false
      by (symmetry; apply N.ltb_ge; now apply N.leb_le).
    replace ((FS.PATH_MAX <=? N.of_nat (FS.name_len total rest))%N) with false
      by (symmetry; apply N.leb_gt; now apply N.ltb_lt).
    cbn [orb]. cbv zeta.
    assert (Hnx : FS.is_dir f (Posixpath.step cur c) = true).
    { destruct rest as [|c' rest'].
      - simpl in Hr. inversion Hr; subst. exact Hd.
      - rewrite resolve_cons in Hr. destruct (FS.is_dir f (Posixpath.step cur c));
          [reflexivity | discriminate]. }
    unfold FS.is_dir in Hnx.
    destruct (FS.node_at f (Posixpath.step cur c)) as [n|]; [|discriminate].
    now apply IH.
Qed.

(** [makedirs] of a directory that is there changes nothing and returns. *)
Lemma makedirs_existing (p : string) (w : world) :
  FS.is_directory p w = true -> FS.makedirs p w = (Ok tt, w).
Proof.
  unfold FS.is_directory, FS.locate, FS.makedirs.
  destruct (FS.refused p) eqn:Href; [discriminate|].
  apply refused_none in Href as [Hnul Hfit].
  destruct (bool_decide (p = "")); [discriminate|].
  destruct (FS.resolve _ _ _) as [T|] eqn:Hr; [|discriminate]. intros Hd.
  unfold FS.fits in Hfit. apply andb_true_iff in Hfit as [Hsh Htot].
  rewrite (mkdirs_existing _ _ _ T (String.length p) Hr Hd).
  - now destruct w.
  - now apply (contains_char_split nul slash p nul_not_slash).
  - now apply forallb_Forall_true.
  - exact Htot.
Qed.

(** [makedirs] that has returned, for a path that ends in a name: the
    path is a directory. *)
Lemma makedirs_is_directory (p : string) (w w1 : world) :
  FS.makedirs p w = (Ok tt, w1) ->
  FS.is_name (List.last (Str.split slash p) "") = true ->
  FS.is_directory p w1 = true.
Proof.
  unfold FS.makedirs. destruct (bool_decide (p = "")) eqn:Ep; [discriminate|].
  intros H Hlast. inversion H as [[Hok Hw]].
  destruct (mkdirs_done _ _ _ _ _ Hok Hlast) as (Hr & Hd & Hnul & Hsh & Htot).
  unfold FS.is_directory, FS.locate.
  assert (Href : FS.refused p = None).
  { apply refused_none. split.
    - now apply (contains_char_split nul slash p nul_not_slash).
    - unfold FS.fits. rewrite Htot, andb_true_r. now apply forallb_Forall_true. }
  rewrite Href, Ep. cbn [fs set_fs]. unfold FS.start in *. cbn [cwd set_fs].
  rewrite Hr. exact Hd.
Qed.

(** Whatever its outcome, [makedirs] keeps the working directory, the
    trace and the nodes there are, and makes no file. *)
Lemma makedirs_shape (p : string) (w : world) (r : res unit) (w1 : world) :
  FS.makedirs p w = (r, w1) ->
  cwd w1 = cwd w /\ log w1 = log w
  /\ keeps_nodes (fs w) (fs w1)
  /\ forall q d, fs w1 !! q = Some (File d) -> fs w !! q = Some (File d).
Proof.
  unfold FS.makedirs. destruct (bool_decide (p = "")).
  - intros H. inversion H; subst. repeat split; auto. intros q n Hq. exact Hq.
  - intros H. inversion H; subst. cbn [cwd log fs set_fs].
    destruct (mkdirs_kept (Str.split slash p) (fs w) false (FS.start w p) (String.length p))
      as [Hk Hf].
    repeat split; auto.
Qed.

(** ** The directory a path lies in *)

Lemma resolve_snoc f (xs : list string) (st cur : list string) (c : string) :
  FS.resolve f st xs = Some cur -> FS.is_dir f cur = true ->
  FS.resolve f st (xs ++ [c]) = Some (Posixpath.step cur c).
Proof.
  revert st. induction xs as [|x xs IH]; intros st Hr Hd.
  - simpl in *. inversion Hr; subst. now rewrite Hd.
  - cbn [app]. rewrite resolve_cons in *. destruct (FS.is_dir f st); [|discriminate].
    now apply IH.
Qed.

Lemma resolve_snoc_inv f (xs : list string) (st T : list string) (c : string) :
  FS.resolve f st (xs ++ [c]) = Some T ->
  exists cur, FS.resolve f st xs = Some cur /\ FS.is_dir f cur = true.
Proof.
  revert st. induction xs as [|x xs IH]; intros st Hr.
  - simpl in *. destruct (FS.is_dir f st) eqn:Ed; [|discriminate]. now exists st.
  - cbn [app] in Hr. rewrite resolve_cons in *. destruct (FS.is_dir f st); [|discriminate].
    now apply IH.
Qed.

Lemma string_length_app (a b : string) :
  String.length (a +:+ b) = String.length a + String.length b.
Proof. induction a as [|x a IH]; [reflexivity|]. rewrite append_cons. simpl. now rewrite IH. Qed.

(** The components of a path and of the path with a segment joined to it. *)
Lemma split_join2_cases (q c : string) :
  q <> "" -> segment c ->
  exists xs tl, Str.split slash q = xs ++ [tl]
                /\ Str.split slash (Posixpath.join2 q c)
                   = (if bool_decide (tl = "") then xs else xs ++ [tl]) ++ [c]
                /\ String.length q <= String.length (Posixpath.join2 q c)
                /\ forall a, Str.contains_char a (Posixpath.join2 q c) = false ->
                             Str.contains_char a q = false.
Proof.
  intros Hq [Hc Hs]. unfold Posixpath.join2.
  rewrite (startswith_without _ _ Hs), (bool_decide_eq_false_2 (q = "")) by exact Hq.
  cbn [orb]. destruct (Str.endswith_char slash q) eqn:Ee.
  - apply endswith_inv in Ee as [q' ->]. exists (Str.split slash q'), "".
    split; [now rewrite split_app_sep|]. split.
    + rewrite append_assoc. change (String slash "" +:+ c) with (String slash c).
      rewrite split_app_sep, (split_without_sep slash c Hs). reflexivity.
    + split; [rewrite !string_length_app; lia|].
      intros a. rewrite contains_char_app. intros H. now apply orb_false_iff in H as [H _].
  - destruct (Str.split slash q) as [|tl xs _] eqn:Es using rev_ind;
      [now apply split_nonempty in Es|].
    exists xs, tl. split; [reflexivity|]. split.
    + change (q +:+ "/" +:+ c) with (q +:+ String slash c).
      rewrite split_app_sep, Es, (split_without_sep slash c Hs).
      destruct (bool_decide (tl = "")) eqn:Ex; [|reflexivity].
      apply bool_decide_eq_true_1 in Ex. subst tl. exfalso.
      assert (Hend : Str.endswith_char slash q = true); [|congruence].
      rewrite <- (join_split q), Es.
      destruct xs as [|y xs]; [exfalso; apply Hq; apply split_inj; exact Es|].
      clear. revert y. induction xs as [|z xs IH]; intros y.
      * change (Str.join "/" ([y] ++ [""])) with (y +:+ String slash "").
        rewrite endswith_app by discriminate. reflexivity.
      * change (Str.join "/" ((y :: z :: xs) ++ [""]))
          with (y +:+ String slash (Str.join "/" ((z :: xs) ++ [""]))).
        rewrite endswith_app by discriminate.
        specialize (IH z).
        destruct (Str.join "/" ((z :: xs) ++ [""])) eqn:Ej; [reflexivity | exact IH].
    + split; [rewrite !string_length_app; lia|].
      intros a. rewrite contains_char_app. intros H. now apply orb_false_iff in H as [H _].
Qed.

(** A path that leads somewhere lies in a directory. *)
Lemma located_in_directory (q c : string) (w : world) (T : list string) :
  q <> "" -> segment c ->
  FS.refused (Posixpath.join2 q c) = None ->
  FS.locate w (Posixpath.join2 q c) = Some T ->
  FS.is_directory q w = true.
Proof.
  intros Hq Hc Href Hloc.
  destruct (split_join2_cases q c Hq Hc) as (xs & tl & Es & Ej & Hlen & Hcont).
  apply refused_none in Href as [Hnul Hfit].
  unfold FS.fits in Hfit. apply andb_true_iff in Hfit as [Hsh Htot].
  assert (Href : FS.refused q = None).
  { apply refused_none. split; [now apply Hcont|].
    unfold FS.fits. apply andb_true_iff. split.
    - rewrite Ej in Hsh. rewrite Es. rewrite forallb_app in Hsh |- *.
      apply andb_true_iff in Hsh as [Hsh _].
      destruct (bool_decide (tl = "")) eqn:Et.
      + apply bool_decide_eq_true_1 in Et. subst tl. now rewrite Hsh.
      + rewrite <- forallb_app. exact Hsh.
    - apply N.ltb_lt. apply N.ltb_lt in Htot. lia. }
  unfold FS.locate in Hloc.
  rewrite (bool_decide_eq_false_2 _ (join2_segment_nonempty q c Hc)) in Hloc.
  assert (Hst : FS.start w (Posixpath.join2 q c) = FS.start w q).
  { unfold FS.start. rewrite isabs_join2; [reflexivity | now right]. }
  rewrite Hst, Ej in Hloc. apply resolve_snoc_inv in Hloc as (cur & Hr & Hd).
  unfold FS.is_directory, FS.locate. rewrite Href, (bool_decide_eq_false_2 _ Hq), Es.
  destruct (bool_decide (tl = "")) eqn:Et.
  - apply bool_decide_eq_true_1 in Et. subst tl.
    rewrite (resolve_snoc _ _ _ _ "" Hr Hd), step_empty. exact Hd.
  - rewrite Hr. exact Hd.
Qed.

Lemma makedirs_nonempty (p : string) (w w1 : world) :
  FS.makedirs p w = (Ok tt, w1) -> p <> "".
Proof. unfold FS.makedirs. intros H ->. discriminate. Qed.

(** A path joined from names ends in the last of them. *)
Lemma last_split_join_plain (path : string) (cs : list string) :
  cs <> [] -> forallb plain cs = true ->
  FS.is_name (List.last (Str.split slash (Posixpath.join path cs)) "") = true.
Proof.
  intros Hne Hp. destruct cs as [|c cs] using rev_ind; [congruence|]. clear IHcs.
  rewrite forallb_app in Hp. apply andb_true_iff in Hp as [_ Hp]. simpl in Hp.
  rewrite andb_true_r in Hp.
  rewrite join_snoc, last_split_join2 by now apply plain_segment.
  unfold plain in Hp. now apply andb_true_iff in Hp as [Hp _].
Qed.

Section Steps.

Variable t : list (string * bytes).
Variable self : AssetPack.
Hypothesis self_tree : tree self = py_of_tree t.
Variable epath : string.
Variable base : list string.

Local Abbreviation Pres' := (Pres t base epath).

Lemma Pres_refl (w : world) : Pres' w w.
Proof. split; [reflexivity|]. intros _. split; [apply keeps_dirs_refl | tauto]. Qed.

Lemma Pres_trans (w1 w2 w3 : world) : Pres' w1 w2 -> Pres' w2 w3 -> Pres' w1 w3.
Proof.
  intros [Hc1 H1] [Hc2 H2]. split; [congruence|]. intros Hb.
  destruct (H1 Hb) as [Hk1 Hf1]. destruct (H2 ltac:(congruence)) as [Hk2 Hf2].
  split; [eapply keeps_dirs_trans; eauto|]. intros key file b ? ? ? ?.
  apply Hf2; auto.
Qed.

Lemma makedirs_step (p : string) (w w1 : world) :
  FS.makedirs p w = (Ok tt, w1) ->
  Pres' w w1
  /\ (FS.is_name (List.last (Str.split slash p) "") = true -> dir_done base p w1).
Proof.
  intros H. pose proof (makedirs_shape _ _ _ _ H) as (Hc & _ & Hk & _).
  split.
  - split; [exact Hc|]. intros _. split; [now apply keeps_nodes_dirs|].
    intros key file b _ _ _. apply Hk.
  - intros Hlast _. eapply makedirs_is_directory; eauto.
Qed.

Lemma keeps_dirs_insert_file f (T : list string) (b : bytes) :
  FS.node_at f T <> Some Dir -> keeps_dirs f (<[T := File b]> f).
Proof.
  intros HT q. unfold FS.is_dir, FS.node_at. destruct q as [|x q]; [tauto|].
  destruct (decide (T = x :: q)) as [->|Hne].
  - intros H. exfalso. apply HT. unfold FS.node_at.
    destruct (f !! (x :: q)) as [[|]|]; congruence.
  - now rewrite lookup_insert_ne.
Qed.

Lemma exportfile_step (key file : string) (b : bytes) (w w1 : world) :
  key_ok key = true -> plain file = true ->
  tree_get t (key +:+ "/" +:+ file) = Some b ->
  exportfile self (key +:+ "/" +:+ file)
             (Posixpath.join epath (Str.split slash key ++ [file])) w = (Ok tt, w1) ->
  Pres' w w1 /\ file_done base epath key file b w1.
Proof.
  intros Hk Hf Hb Hx.
  destruct (exportfile_present t self self_tree _
              (Posixpath.join epath (Str.split slash key ++ [file])) b w Hb)
    as [(e1 & w2 & H & _)|(T & w2 & Ho & H & Hfs & Hcwd)]; rewrite H in Hx; [discriminate|].
  inversion Hx; subst w2. clear Hx H.
  pose proof (open_wb_refused _ _ _ _ Ho) as Href.
  apply open_wb_inv in Ho as (Hloc & _ & Hnd & _).
  assert (HT : cwd w = base -> T = target base epath key file).
  { intros Hc. rewrite (locate_file epath base key file w Hc Hk Hf) in Hloc.
    eapply resolve_target; eauto. }
  assert (Hkd : keeps_dirs (fs w) (fs w1)).
  { rewrite Hfs. now apply keeps_dirs_insert_file. }
  split.
  - split; [exact Hcwd|]. intros Hc. split; [exact Hkd|].
    intros k' f' b' Hk' Hf' Hb' Hold. rewrite Hfs, (HT Hc).
    destruct (decide (target base epath key file = target base epath k' f')) as [E|E].
    + rewrite <- E, lookup_insert_eq.
      apply target_inj in E as [-> ->]; [|assumption|assumption]. congruence.
    + now rewrite lookup_insert_ne.
  - intros Hc1. assert (Hc : cwd w = base) by congruence.
    rewrite <- (HT Hc). split; [|split; [|exact Href]].
    + rewrite (locate_file epath base key file w1 Hc1 Hk Hf).
      rewrite (locate_file epath base key file w Hc Hk Hf) in Hloc.
      eapply resolve_mono; eauto.
    + rewrite Hfs. apply lookup_insert_eq.
Qed.

Lemma dir_done_stable (p : string) (w1 w2 : world) :
  dir_done base p w1 -> Pres' w1 w2 -> dir_done base p w2.
Proof.
  intros Hq [Hc HP] Hc2. assert (Hc1 : cwd w1 = base) by congruence.
  destruct (HP Hc1) as [Hk _]. eapply is_directory_mono; eauto.
Qed.

Lemma file_done_stable (key file : string) (b : bytes) (w1 w2 : world) :
  key_ok key = true -> plain file = true ->
  tree_get t (key +:+ "/" +:+ file) = Some b ->
  file_done base epath key file b w1 -> Pres' w1 w2 ->
  file_done base epath key file b w2.
Proof.
  intros Hk Hf Hb Hq [Hc HP] Hc2. assert (Hc1 : cwd w1 = base) by congruence.
  destruct (HP Hc1) as [Hkd Hkeep]. destruct (Hq Hc1) as (Hloc & Hnode & Href).
  split; [|split; [now apply Hkeep | exact Href]].
  rewrite (locate_file epath base key file w2 Hc2 Hk Hf).
  rewrite (locate_file epath base key file w1 Hc1 Hk Hf) in Hloc.
  eapply resolve_mono; eauto.
Qed.

End Steps.

Lemma forallb_In {A} (f : A -> bool) (l : list A) (x : A) :
  forallb f l = true -> In x l -> f x = true.
Proof. intros H Hx. eapply forallb_forall in H; eauto. Qed.

Section Items.

Variable t : list (string * bytes).
Variable self : AssetPack.
Hypothesis self_tree : tree self = py_of_tree t.
Variable epath : string.
Variable base : list string.
Variable keys : list pykey.

Lemma emit_step (e : event) (w w1 : world) :
  emit e w = (Ok tt, w1) -> Pres t base epath w w1.
Proof.
  intros H. inversion H; subst. split; [reflexivity|]. intros _.
  split; [apply keeps_dirs_refl | tauto].
Qed.

Lemma item_done_stable (kv : string * dir_entry) (w1 w2 : world) :
  key_ok (fst kv) && entry_ok (snd kv) = true ->
  item_done t base epath kv w1 -> Pres t base epath w1 w2 ->
  item_done t base epath kv w2.
Proof.
  intros Hok (Hd & Hds & Hfs) HP.
  apply andb_true_iff in Hok as [Hk He]. apply andb_true_iff in He as [Hpf _].
  split; [|split].
  - intros Hs. eapply dir_done_stable; eauto.
  - intros dn Hdn. eapply dir_done_stable; eauto.
  - intros file b Hf Hb. eapply file_done_stable; eauto.
    eapply forallb_In; eauto.
Qed.

Lemma item_step (kv : string * dir_entry) (w w' : world) :
  key_ok (fst kv) && entry_ok (snd kv) = true ->
  item_typed self epath keys kv w = (Ok tt, w') ->
  Pres t base epath w w' /\ item_done t base epath kv w'.
Proof.
  intros Hok H. pose proof Hok as Hok'.
  apply andb_true_iff in Hok' as [Hk He]. apply andb_true_iff in He as [Hpf Hpd].
  unfold item_typed in H.
  apply bind_ok_inv in H as ([] & w1 & H1 & H).
  apply bind_ok_inv in H as ([] & w2 & H2 & H).
  apply bind_ok_inv in H as ([] & w3 & H3 & H4).
  pose proof (makedirs_nonempty _ _ _ H1) as Hq.
  apply makedirs_step with (t := t) (epath := epath) (base := base) in H1 as [P1 D1].
  apply (for_each_post (Pres t base epath)
           (fun dn => dir_done base (Posixpath.join epath (Str.split slash (fst kv) ++ [dn]))))
    in H2 as [P2 D2].
  2:{ apply Pres_refl. }
  2:{ apply Pres_trans. }
  2:{ intros dn a b _. apply dir_done_stable. }
  2:{ intros dn a b Hdn Hm.
      apply makedirs_step with (t := t) (epath := epath) (base := base) in Hm as [Pm Dm].
      split; [exact Pm|]. apply Dm.
      rewrite join_snoc, last_split_join2.
      - assert (Hp : plain dn = true) by exact (forallb_In _ _ _ Hpd Hdn).
        unfold plain in Hp. now apply andb_true_iff in Hp as [Hp _].
      - apply plain_segment. exact (forallb_In _ _ _ Hpd Hdn). }
  apply (for_each_post (Pres t base epath)
           (fun file w0 => exists b, tree_get t (fst kv +:+ "/" +:+ file) = Some b
                                     /\ file_done base epath (fst kv) file b w0))
    in H3 as [P3 D3].
  2:{ apply Pres_refl. }
  2:{ apply Pres_trans. }
  2:{ intros file a b Hf (b0 & Hb0 & Hq0) HP. exists b0. split; [exact Hb0|].
      eapply file_done_stable;
        [exact Hk | exact (forallb_In _ _ _ Hpf Hf) | exact Hb0 | exact Hq0 | exact HP]. }
  2:{ intros file a b Hf Hx.
      assert (Hplain : plain file = true) by exact (forallb_In _ _ _ Hpf Hf).
      destruct (tree_get t (fst kv +:+ "/" +:+ file)) as [b0|] eqn:Hb0.
      - destruct (exportfile_step t self self_tree epath base _ _ b0 a b Hk Hplain Hb0 Hx)
          as [HP HQ].
        split; [exact HP|]. now exists b0.
      - destruct (exportfile_missing t self self_tree _
                    (Posixpath.join epath (Str.split slash (fst kv) ++ [file])) a Hb0)
          as [(e5 & w5 & H5 & _)|(T & w5 & _ & H5)]; rewrite H5 in Hx; discriminate. }
  apply emit_step in H4 as P4.
  assert (P34 : Pres t base epath w3 w') by exact P4.
  assert (P24 : Pres t base epath w2 w') by (eapply Pres_trans; eauto).
  assert (P14 : Pres t base epath w1 w') by (eapply Pres_trans; eauto).
  assert (Hsub : forall dn, In dn (dirs (snd kv)) ->
            dir_done base (Posixpath.join epath (Str.split slash (fst kv) ++ [dn])) w').
  { intros dn Hdn. eapply dir_done_stable; [apply D2, Hdn | exact P24]. }
  assert (Hfile : forall file, In file (files (snd kv)) ->
            exists b, tree_get t (fst kv +:+ "/" +:+ file) = Some b
                      /\ file_done base epath (fst kv) file b w').
  { intros file Hf. destruct (D3 file Hf) as (b & Hb & Hq0). exists b. split; [exact Hb|].
    eapply file_done_stable;
      [exact Hk | exact (forallb_In _ _ _ Hpf Hf) | exact Hb | exact Hq0 | exact P34]. }
  split; [eapply Pres_trans; eauto|].
  split; [|split].
  - intros [Hkey|[Hdirs|Hfiles]].
    + eapply dir_done_stable; [|exact P14]. apply D1.
      destruct (key_ok_cases _ Hk) as [[Hk0 _]|[Hpl _]]; [congruence|].
      apply last_split_join_plain; [apply split_nonempty | exact Hpl].
    + destruct (dirs (snd kv)) as [|dn ds] eqn:Ed; [congruence|].
      intros Hc. specialize (Hsub dn (or_introl eq_refl) Hc).
      rewrite join_snoc in Hsub.
      assert (Hseg : segment dn).
      { apply plain_segment. eapply forallb_In; [exact Hpd | now left]. }
      unfold FS.is_directory in Hsub.
      destruct (FS.refused (Posixpath.join2 _ dn)) eqn:Href; [discriminate|].
      destruct (FS.locate w' (Posixpath.join2 _ dn)) as [T|] eqn:Hloc; [|discriminate].
      eapply located_in_directory; eauto.
    + destruct (files (snd kv)) as [|file fl] eqn:Ef; [congruence|].
      intros Hc. destruct (Hfile file (or_introl eq_refl)) as (b & _ & Hq0).
      destruct (Hq0 Hc) as (Hloc & _ & Href).
      rewrite join_snoc in Hloc, Href.
      assert (Hseg : segment file).
      { apply plain_segment. eapply forallb_In; [exact Hpf | now left]. }
      eapply located_in_directory; eauto.
  - exact Hsub.
  - intros file b Hf Hb. destruct (Hfile file Hf) as (b0 & Hb0 & Hq0).
    assert (b0 = b) by congruence. subst b0. exact Hq0.
Qed.

End Items.

Lemma file_done_read (base : list string) (epath key file : string) (b : bytes) (w : world) :
  cwd w = base -> file_done base epath key file b w ->
  FS.read_file (Posixpath.join epath (Str.split slash key ++ [file])) w = (Ok b, w).
Proof.
  intros Hc H. destruct (H Hc) as (Hloc & Hnode & Href). unfold FS.read_file.
  rewrite Href, Hloc.
  unfold FS.node_at, target in *.
  destruct (dest base epath ++ kcomps key ++ [file]) eqn:E.
  - exfalso. apply (f_equal (@length string)) in E. rewrite !length_app in E.
    simpl in E. lia.
  - now rewrite Hnode.
Qed.

(** C8, as the code has it. For an archive whose directory paths are empty
    or made of plain names and whose file and subdirectory names are plain,
    once [extract] has returned: every directory of the index and every
    subdirectory listed is a directory, and every file listed is an asset of
    [tree] whose bytes are read back at [epath/key/file]. A directory that is
    already there is no error: [makedirs] returns and changes nothing. The
    one directory of which nothing is said is that of an entry of the root
    that lists nothing: it is [epath] itself, and [os.makedirs] can return
    on an [epath] that leads to a file ([makedirs_returns_on_a_file]). *)
Theorem extraction_complete (p : pyval) (t : list (string * bytes))
        (d : list (string * dir_entry)) (epath : string) (w w' : world) :
  plain_names d = true ->
  extract (mkPack p (py_of_tree t) (py_of_dirinfo d)) epath w = (Ok tt, w') ->
  (forall key e, In (key, e) d ->
     (key <> "" \/ dirs e <> [] \/ files e <> [] ->
      FS.is_directory (Posixpath.join epath (Str.split slash key)) w' = true)
     /\ (forall dn, In dn (dirs e) ->
          FS.is_directory (Posixpath.join epath (Str.split slash key ++ [dn])) w' = true)
     /\ (forall file, In file (files e) ->
          exists b, tree_get t (key +:+ "/" +:+ file) = Some b
                    /\ FS.read_file (Posixpath.join epath (Str.split slash key ++ [file])) w'
                       = (Ok b, w')))
  /\ (forall q w0, FS.is_directory q w0 = true -> FS.makedirs q w0 = (Ok tt, w0)).
Proof.
  intros Hplain Hrun. split; [|apply makedirs_existing].
  rewrite extract_typed in Hrun. cbv zeta in Hrun.
  set (self := mkPack p (py_of_tree t) (py_of_dirinfo d)) in *.
  set (keys := map (fun kv : string * dir_entry => KStr (fst kv)) d) in *.
  set (base := cwd w).
  pose proof Hrun as Hrun'.
  apply (for_each_post (Pres t base epath) (item_done t base epath)) in Hrun'
    as [[Hcwd _] Hdone].
  2:{ apply Pres_refl. }
  2:{ apply Pres_trans. }
  2:{ intros kv a b Hkv. apply item_done_stable. eapply forallb_In in Hplain; eauto. }
  2:{ intros kv a b Hkv. apply (item_step t self eq_refl).
      eapply forallb_In in Hplain; eauto. }
  assert (Hc : cwd w' = base) by exact Hcwd.
  intros key e Hin. destruct (Hdone _ Hin) as (Hd & Hds & Hfs). cbn [fst snd] in *.
  split; [intros Hs; now apply Hd|]. split; [intros dn Hdn; now apply Hds|].
  intros file Hf.
  destruct (tree_get t (key +:+ "/" +:+ file)) as [b|] eqn:Hb.
  - exists b. split; [reflexivity|]. eapply file_done_read; eauto.
  - exfalso. revert Hrun. apply (for_each_blocked _ _ (key, e) Hin).
    now apply (item_blocked t d p epath key file e).
Qed.

Lemma extraction_complete_witness :
  (forall key e, In (key, e) Sample.dirinfo_t_ab ->
     (key <> "" \/ dirs e <> [] \/ files e <> [] ->
      FS.is_directory (Posixpath.join "/tmp/out" (Str.split slash key)) Sample.world_extracted
      = true)
     /\ (forall dn, In dn (dirs e) ->
          FS.is_directory (Posixpath.join "/tmp/out" (Str.split slash key ++ [dn]))
                          Sample.world_extracted = true)
     /\ (forall file, In file (files e) ->
          exists b, tree_get Sample.tree_t_ab (key +:+ "/" +:+ file) = Some b
                    /\ FS.read_file (Posixpath.join "/tmp/out" (Str.split slash key ++ [file]))
                                    Sample.world_extracted
                       = (Ok b, Sample.world_extracted)))
  /\ (forall q w0, FS.is_directory q w0 = true -> FS.makedirs q w0 = (Ok tt, w0)).
Proof.
  apply (extraction_complete (PyStr "a.pack") Sample.tree_t_ab Sample.dirinfo_t_ab
                             "/tmp/out" Sample.empty_world).
  - reflexivity.
  - vm_compute. reflexivity.
Defined.

(** The scenario of section 8: the file is at [/tmp/out/a/b.txt] and holds
    [hi]. *)
Example extract_ab :
  FS.read_file "/tmp/out/a/b.txt" Sample.world_extracted
  = (Ok [x68; x69], Sample.world_extracted).
Proof. vm_compute. reflexivity. Qed.

(** C8 as stated fails: the archive is self-consistent and its extraction
    returns, but the two keys [a] and [a/] name one directory, and the file
    written for [a//f] has replaced the one written for [a/f]. *)
Lemma aliased_keys_overwrite :
  self_consistent Sample.tree_alias Sample.dirinfo_alias = true
  /\ fst (extract Sample.pack_alias "out" Sample.empty_world) = Ok tt
  /\ In ("a", mkEntry ["f"] []) Sample.dirinfo_alias
  /\ tree_get Sample.tree_alias ("a" +:+ "/" +:+ "f") = Some [x31]
  /\ fst (FS.read_file "out/a/f" (snd (extract Sample.pack_alias "out" Sample.empty_world)))
     = Ok [x32].
Proof.
  split; [reflexivity|]. split; [vm_compute; reflexivity|].
  split; [now left|]. split; [reflexivity|]. vm_compute. reflexivity.
Qed.

(** Why C8 says nothing of the directory of an empty entry of the root.
    The working directory holds a file [f] and no [new]. [os.makedirs]
    makes [new] on its way along [new/../f/./], takes the failure of
    [mkdir] at [f] for a directory that is there already, and returns at
    the last component, [.]: no directory is at the path, and a second call
    raises. So does a second extraction of an empty archive to
    [new/../f/.]. *)
Example makedirs_returns_on_a_file :
  fst (FS.makedirs "new/../f/./" (Sample.world_with "f" [])) = Ok tt
  /\ FS.is_directory "new/../f/./" (snd (FS.makedirs "new/../f/./" (Sample.world_with "f" [])))
     = false
  /\ fst (FS.makedirs "new/../f/./" (snd (FS.makedirs "new/../f/./" (Sample.world_with "f" []))))
     = Raise OSError
  /\ fst (extract Sample.pack_empty "new/../f/." (Sample.world_with "f" [])) = Ok tt
  /\ fst (extract Sample.pack_empty "new/../f/."
                  (snd (extract Sample.pack_empty "new/../f/." (Sample.world_with "f" []))))
     = Raise OSError.
Proof. repeat split; vm_compute; reflexivity. Qed.



(** The error of a step before the lookup need not be [OSError]: a file
    name with a zero byte is refused by [open] with [ValueError]. *)
Example zero_byte_name_raises_valueerror :
  fst (extract Sample.pack_zero_byte "out" Sample.empty_world) = Raise ValueError
  /\ extract_error [] [("a", mkEntry [String "c" (String nul "")] [])] ValueError.
Proof. split; [vm_compute; reflexivity | left; now right]. Qed.

(** ** The round trip *)

Lemma marker_free_spec (b : bytes) (j : nat) :
  marker_free b = true -> Bytes.occurs_at marker b j = false.
Proof.
  intros H. destruct (Nat.lt_ge_cases j (length b)) as [Hlt|Hge].
  - unfold marker_free in H. eapply forallb_forall in H; [|apply in_seq; split; [lia|simpl; exact Hlt]].
    now apply negb_true_iff in H.
  - unfold Bytes.occurs_at. now rewrite drop_ge.
Qed.

Lemma replace_from_marker_free (b : bytes) :
  (forall j, Bytes.occurs_at marker b j = false) ->
  Bytes.replace_from marker [] 0 b = b.
Proof.
  induction b as [|x b IH]; intros H; [reflexivity|].
  cbn [Bytes.replace_from]. pose proof (H 0) as H0. unfold Bytes.occurs_at in H0.
  rewrite drop_0 in H0. rewrite H0. f_equal. apply IH. intros j. apply (H (S j)).
Qed.

Lemma replace_header (payload : bytes) :
  marker_free payload = true -> Bytes.replace marker [] (marker ++ payload) = payload.
Proof.
  intros H. change (Bytes.replace marker [] (marker ++ payload))
    with (Bytes.replace_from marker [] 0 payload).
  apply replace_from_marker_free. intros j. now apply marker_free_spec.
Qed.

(** X1. The round trip of C1 where it holds: an archive file made of the
    marker and a payload in which no marker occurs, the payload
    decompressing to a text that evaluates to [tree] and [dirinfo]. The pack
    built from the file lists the keys of both and [getfile] gives the bytes
    of every asset. *)
Lemma roundtrip_when_payload_marker_free
      (gz : bytes -> res bytes) (dec : bytes -> res string) (ev : string -> M pyval)
      (t : list (string * bytes)) (d : list (string * dir_entry))
      (payload raw : bytes) (text name : string) (w : world) :
  marker_free payload = true ->
  gz payload = Ok raw -> dec raw = Ok text ->
  (forall w0, fst (ev text w0) = Ok (py_of_archive t d)) ->
  FS.read_file name w = (Ok (marker ++ payload), w) ->
  exists pack w',
    init gz dec ev (AStr name) w = (Ok pack, w')
    /\ listobjects pack = Ok (map (fun kv => KStr (fst kv)) t)
    /\ getDirList pack = Ok (map (fun kv => KStr (fst kv)) d)
    /\ forall k b w0, tree_get t k = Some b ->
        exists h w1 w2, getfile pack k w0 = (Ok h, w1) /\ Stream.read h w1 = (Ok b, w2).
Proof.
  intros Hfree Hgz Hdec Hev Hread.
  exists (mkPack (PyStr name) (py_of_tree t) (py_of_dirinfo d)). eexists.
  split; [|split; [|split]].
  - unfold init, read_source, bind, ret. rewrite Hread. cbn [fst snd].
    rewrite decode_header by apply startswith_app.
    cbv zeta. rewrite (replace_header payload Hfree), Hgz, Hdec, Hev. reflexivity.
  - unfold listobjects. cbn. now rewrite map_map.
  - unfold getDirList. cbn. now rewrite map_map.
  - intros k b w0 Hb. eexists. eexists. eexists. split.
    + apply (getfile_tree t (mkPack (PyStr name) (py_of_tree t) (py_of_dirinfo d))
                          eq_refl k b w0 Hb).
    + apply read_fresh_stream, lookup_insert_eq.
Qed.

Example roundtrip_ab :
  marker_free (Ref.gzip_store (Ref.str_encode Sample.text_ab)) = true
  /\ fst (init Ref.gzip_decompress Ref.bytes_decode Ref.py_eval (AStr "a.pack")
               (Sample.world_with "a.pack" (Sample.archive Sample.text_ab)))
     = Ok Sample.pack_ab.
Proof. split; vm_compute; reflexivity. Qed.

(** * Further properties of the module *)

(** ** Relations kept by every step *)

Lemma bind_rel {A B} (R : world -> world -> Prop) (m : M A) (k : A -> M B) :
  (forall w1 w2 w3, R w1 w2 -> R w2 w3 -> R w1 w3) ->
  (forall w r w1, m w = (r, w1) -> R w w1) ->
  (forall a w r w1, k a w = (r, w1) -> R w w1) ->
  forall w r w1, bind m k w = (r, w1) -> R w w1.
Proof.
  intros Htrans Hm Hk w r w1. unfold bind.
  destruct (m w) as [[a|e] w0] eqn:Em; intros H.
  - eapply Htrans; [eapply Hm, Em | eapply Hk, H].
  - inversion H; subst. eapply Hm, Em.
Qed.

Lemma for_each_rel {A} (R : world -> world -> Prop) (body : A -> M unit) (l : list A) :
  (forall w, R w w) ->
  (forall w1 w2 w3, R w1 w2 -> R w2 w3 -> R w1 w3) ->
  (forall x w r w1, In x l -> body x w = (r, w1) -> R w w1) ->
  forall w r w1, for_each l body w = (r, w1) -> R w w1.
Proof.
  intros Hrefl Htrans. induction l as [|x l IH]; intros Hbody w r w1 H.
  - inversion H; subst. apply Hrefl.
  - simpl in H. revert H. apply bind_rel; [exact Htrans | |].
    + intros w0 r0 w2. apply Hbody. now left.
    + intros [] w0 r0 w2. apply IH. intros y a b c Hy. apply Hbody. now right.
Qed.

Lemma lift_rel {A} (R : world -> world -> Prop) (v : res A) :
  (forall w, R w w) -> forall w r w1, lift v w = (r, w1) -> R w w1.
Proof. intros Hrefl w r w1 H. inversion H; subst. apply Hrefl. Qed.

Lemma roundtrip_when_payload_marker_free_witness :
  exists pack w',
    init Ref.gzip_decompress Ref.bytes_decode Ref.py_eval (AStr "a.pack")
         (Sample.world_with "a.pack" (Sample.archive Sample.text_ab)) = (Ok pack, w')
    /\ listobjects pack = Ok (map (fun kv => KStr (fst kv)) Sample.tree_t_ab)
    /\ getDirList pack = Ok (map (fun kv => KStr (fst kv)) Sample.dirinfo_t_ab)
    /\ forall k b w0, tree_get Sample.tree_t_ab k = Some b ->
        exists h w1 w2, getfile pack k w0 = (Ok h, w1) /\ Stream.read h w1 = (Ok b, w2).
Proof.
  apply (roundtrip_when_payload_marker_free Ref.gzip_decompress Ref.bytes_decode Ref.py_eval
           Sample.tree_t_ab Sample.dirinfo_t_ab
           (Ref.gzip_store (Ref.str_encode Sample.text_ab))
           (Ref.str_encode Sample.text_ab) Sample.text_ab "a.pack").
  - vm_compute. reflexivity.
  - vm_compute. reflexivity.
  - vm_compute. reflexivity.
  - vm_compute. reflexivity.
  - vm_compute. reflexivity.
Defined.

(** ** [exportfile] *)

Lemma locate_kept (p : string) (w w' : world) (T : list string) :
  cwd w' = cwd w -> keeps_dirs (fs w) (fs w') ->
  FS.locate w p = Some T -> FS.locate w' p = Some T.
Proof.
  intros Hc Hk. unfold FS.locate, FS.start. rewrite Hc.
  destruct (bool_decide (p = "")); [discriminate|]. now apply resolve_mono.
Qed.

Lemma node_at_file f (T : list string) (b : bytes) :
  FS.node_at f T <> Some Dir -> FS.node_at (<[T := File b]> f) T = Some (File b).
Proof.
  destruct T as [|x T]; [intros H; now contradiction H|].
  intros _. unfold FS.node_at. apply lookup_insert_eq.
Qed.

(** X4. [exportfile] of an asset to a destination that can be opened: the
    call returns, the destination then reads back as the bytes of the asset,
    whatever it held before, and no other node of the file system has
    changed. *)
Theorem exportfile_writes_asset (t : list (string * bytes)) (self : AssetPack)
        (packpath p : string) (b : bytes) (w w0 : world) (T : list string) :
  tree self = py_of_tree t ->
  tree_get t packpath = Some b ->
  FS.open_wb p w = (Ok T, w0) ->
  exists w',
    exportfile self packpath p w = (Ok tt, w')
    /\ FS.read_file p w' = (Ok b, w')
    /\ fs w' = <[T := File b]> (fs w)
    /\ forall q, q <> T -> fs w' !! q = fs w !! q.
Proof.
  intros Ht Hb Ho.
  destruct (exportfile_present t self Ht packpath p b w Hb)
    as [(e & w1 & H & _)|(T' & w1 & Ho' & H & Hfs & Hcwd)].
  - unfold exportfile in H. rewrite (bind_ok _ _ _ _ _ Ho) in H.
    rewrite (bind_ok _ _ _ _ _ (getfile_tree t self Ht packpath b _ Hb)) in H.
    erewrite bind_ok in H by (apply read_fresh_stream, lookup_insert_eq).
    discriminate.
  - rewrite Ho in Ho'. inversion Ho'; subst T'.
    pose proof (open_wb_refused _ _ _ _ Ho) as Hr.
    apply open_wb_inv in Ho as (Hloc & _ & Hnd & _).
    exists w1. split; [exact H|]. split; [|split; [exact Hfs|]].
    + unfold FS.read_file. rewrite Hr.
      rewrite (locate_kept p w w1 T Hcwd); [| |exact Hloc].
      * rewrite Hfs, (node_at_file _ _ _ Hnd). reflexivity.
      * rewrite Hfs. now apply keeps_dirs_insert_file.
    + intros q Hq. rewrite Hfs. now apply lookup_insert_ne.
Qed.

Lemma exportfile_writes_asset_witness :
  exists w',
    exportfile Sample.pack_ab "a/b.txt" "out/a.txt" Sample.world_old = (Ok tt, w')
    /\ FS.read_file "out/a.txt" w' = (Ok [x68; x69], w')
    /\ fs w' = <[ ["out"; "a.txt"] := File [x68; x69] ]> (fs Sample.world_old)
    /\ forall q, q <> ["out"; "a.txt"] -> fs w' !! q = fs Sample.world_old !! q.
Proof.
  apply (exportfile_writes_asset Sample.tree_t_ab Sample.pack_ab "a/b.txt" "out/a.txt"
           [x68; x69] Sample.world_old
           (set_fs (<[ ["out"; "a.txt"] := File [] ]> (fs Sample.world_old)) Sample.world_old)).
  - reflexivity.
  - reflexivity.
  - vm_compute. reflexivity.
Defined.

(** X5. [exportfile] of a path that is not in [tree] onto a file that is
    there: the destination is opened for writing before the asset is looked
    up, so [KeyError] is raised with the file already emptied. *)
Theorem exportfile_missing_empties_destination (t : list (string * bytes))
        (self : AssetPack) (packpath p : string) (old : bytes) (w : world) :
  tree self = py_of_tree t ->
  tree_get t packpath = None ->
  FS.read_file p w = (Ok old, w) ->
  FS.is_name (List.last (Str.split slash p) "") = true ->
  exists w',
    exportfile self packpath p w = (Raise (KeyError (KStr packpath)), w')
    /\ FS.read_file p w' = (Ok [], w').
Proof.
  intros Ht Hb Hread Hname.
  unfold FS.read_file in Hread.
  destruct (FS.refused p) eqn:Hr; [discriminate|].
  destruct (FS.locate w p) as [T|] eqn:Hloc; [|discriminate].
  destruct (FS.node_at (fs w) T) as [[d|]|] eqn:Hn; try discriminate.
  assert (Hnd : FS.node_at (fs w) T <> Some Dir) by (rewrite Hn; discriminate).
  assert (Ho : FS.open_wb p w = (Ok T, set_fs (<[T := File []]> (fs w)) w))
    by now apply open_wb_ok.
  set (w' := set_fs (<[T := File []]> (fs w)) w) in *.
  assert (Hl : FS.locate w' p = Some T).
  { apply (locate_kept p w w' T); [reflexivity | | exact Hloc].
    now apply keeps_dirs_insert_file. }
  exists w'. split.
  - unfold exportfile. rewrite (bind_ok _ _ _ _ _ Ho).
    apply bind_raise. now apply (getfile_missing t self Ht).
  - unfold FS.read_file. rewrite Hr, Hl. unfold w'. cbn [fs set_fs].
    now rewrite (node_at_file _ _ _ Hnd).
Qed.

Lemma exportfile_missing_empties_destination_witness :
  exists w',
    exportfile Sample.pack_ab "a/c.txt" "out/a.txt" Sample.world_old
    = (Raise (KeyError (KStr "a/c.txt")), w')
    /\ FS.read_file "out/a.txt" w' = (Ok [], w').
Proof.
  apply (exportfile_missing_empties_destination Sample.tree_t_ab Sample.pack_ab
           "a/c.txt" "out/a.txt" [x6f; x6c; x64] Sample.world_old).
  - reflexivity.
  - reflexivity.
  - vm_compute. reflexivity.
  - reflexivity.
Defined.

(** ** [exportToTempfile] in general *)

Lemma last_split_ext (stem ext : string) :
  Str.contains_char dot ext = false ->
  List.last (Str.split dot (stem +:+ String dot ext)) "" = ext.
Proof.
  intros H. rewrite split_app_sep, (split_without_sep dot ext H). apply last_last.
Qed.

(** The run of [exportToTempfile] once the temporary file is given: the
    stream made for it, and what the lookup of the asset leaves. *)
Lemma exportToTempfile_run (TemporaryFile : string -> string -> res pyval)
      (t : list (string * bytes)) (self : AssetPack) (packpath : string)
      (n : pyval) (w : world) :
  tree self = py_of_tree t ->
  TemporaryFile "AssetPackTempFile" ("." +:+ List.last (Str.split dot packpath) "") = Ok n ->
  let w0 := add_log (EvTemporaryFile "AssetPackTempFile"
                                     ("." +:+ List.last (Str.split dot packpath) "")) w in
  let f := fresh (dom (heap w0)) in
  let w1 := set_heap (<[f := mkStream [] 0 (Some n)]> (heap w0)) w0 in
  heap w !! f = None
  /\ match tree_get t packpath with
     | None => exportToTempfile TemporaryFile self packpath w
               = (Raise (KeyError (KStr packpath)), w1)
     | Some b =>
         exists h w',
           exportToTempfile TemporaryFile self packpath w = (Ok f, w')
           /\ h <> f
           /\ heap w' = <[f := mkStream b (length b) (Some n)]>
                          (<[h := mkStream b (length b) None]>
                             (<[h := mkStream b 0 None]> (heap w1)))
           /\ log w' = log w0
     end.
Proof.
  intros Ht Htmp w0 f w1. split; [apply (fresh_handle_unused w0)|].
  assert (Hstart : forall (k : nat -> M nat) ,
             (emit (EvTemporaryFile "AssetPackTempFile"
                                    ("." +:+ List.last (Str.split dot packpath) "")) >>
              (let* n0 := lift (TemporaryFile "AssetPackTempFile"
                                  ("." +:+ List.last (Str.split dot packpath) "")) in
               let* f0 := Stream.alloc (mkStream [] 0 (Some n0)) in k f0)) w
             = k f w1).
  { intros k. unfold bind at 1. cbn [emit]. fold w0.
    unfold bind at 1. unfold lift at 1. rewrite Htmp.
    unfold bind at 1. unfold Stream.alloc at 1. reflexivity. }
  destruct (tree_get t packpath) as [b|] eqn:Hb.
  - unfold exportToTempfile. rewrite Hstart.
    unfold bind at 1. rewrite (getfile_tree t self Ht packpath b w1 Hb).
    set (h := fresh (dom (heap w1))).
    set (w2 := set_heap (<[h := mkStream b 0 None]> (heap w1)) w1).
    assert (Hhf : h <> f).
    { intros E. pose proof (fresh_handle_unused w1) as Hf. fold h in Hf.
      rewrite E in Hf. unfold w1 in Hf. simpl in Hf. rewrite lookup_insert_eq in Hf.
      discriminate. }
    unfold bind at 1.
    rewrite (read_fresh_stream h b None w2) by apply lookup_insert_eq.
    set (w3 := set_heap (<[h := mkStream b (length b) None]> (heap w2)) w2).
    assert (Hf3 : heap w3 !! f = Some (mkStream [] 0 (Some n))).
    { unfold w3, w2, w1. simpl. rewrite !lookup_insert_ne by exact Hhf.
      apply lookup_insert_eq. }
    unfold bind, Stream.write, ret. rewrite Hf3. simpl.
    exists h. eexists. split; [reflexivity|]. split; [exact Hhf|].
    split; [|reflexivity]. simpl. now rewrite drop_nil, app_nil_r.
  - unfold exportToTempfile. rewrite Hstart.
    apply bind_raise. now apply (getfile_missing t self Ht).
Qed.

Lemma after_emit {A} (e : event) (K : M A) (w : world) :
  (forall w0 r w', K w0 = (r, w') -> same_log w0 w') ->
  exists rest, log (snd (bind (emit e) (fun _ => K) w)) = log w ++ e :: rest.
Proof.
  intros HK. unfold bind. cbn [emit].
  destruct (K (add_log e w)) as [r w'] eqn:Hk. exists []. simpl.
  now rewrite (HK _ _ _ Hk).
Qed.

Lemma same_log_trans (w1 w2 w3 : world) : same_log w1 w2 -> same_log w2 w3 -> same_log w1 w3.
Proof. unfold same_log. congruence. Qed.

Lemma getfile_same_log (self : AssetPack) (k : string) (w : world) (r : res nat) (w' : world) :
  getfile self k w = (r, w') -> same_log w w'.
Proof.
  unfold getfile. apply (bind_rel same_log); [apply same_log_trans | apply lift_rel; reflexivity|].
  intros v w5 r5 w6. destruct v; simpl; now inversion 1.
Qed.

Lemma stream_read_same_log (h : nat) (w : world) (r : res bytes) (w' : world) :
  Stream.read h w = (r, w') -> same_log w w'.
Proof. unfold Stream.read. destruct (heap _ !! h); now inversion 1. Qed.

(** X10. The suffix asked of [TemporaryFile] is a dot and the text after the
    last dot of the asset path, and that text is taken from the whole path,
    not from its last component: it can hold a slash. *)
Theorem tempfile_suffix_is_text_after_last_dot
        (TemporaryFile : string -> string -> res pyval)
        (self : AssetPack) (stem ext : string) (w : world) :
  Str.contains_char dot ext = false ->
  exists rest,
    log (snd (exportToTempfile TemporaryFile self (stem +:+ String dot ext) w))
    = log w ++ EvTemporaryFile "AssetPackTempFile" ("." +:+ ext) :: rest.
Proof.
  intros Hext. unfold exportToTempfile. rewrite (last_split_ext stem ext Hext).
  apply after_emit.
  apply (bind_rel same_log); [apply same_log_trans | apply lift_rel; reflexivity |].
  intros n.
  apply (bind_rel same_log);
    [apply same_log_trans | intros ? ? ? H; inversion H; reflexivity |].
  intros f.
  apply (bind_rel same_log); [apply same_log_trans | apply getfile_same_log |].
  intros h.
  apply (bind_rel same_log); [apply same_log_trans | apply stream_read_same_log |].
  intros data.
  apply (bind_rel same_log);
    [apply same_log_trans | | intros ? ? ? ? H; inversion H; reflexivity].
  unfold Stream.write. intros w1 r1 w2 H.
  destruct (heap _ !! f); inversion H; reflexivity.
Qed.

Lemma tempfile_suffix_is_text_after_last_dot_witness :
  exists rest,
    log (snd (exportToTempfile Ref.TemporaryFile Sample.pack_ab ("a.b" +:+ String dot "c/d")
                               Sample.empty_world))
    = log Sample.empty_world ++ EvTemporaryFile "AssetPackTempFile" ("." +:+ "c/d") :: rest.
Proof.
  apply (tempfile_suffix_is_text_after_last_dot Ref.TemporaryFile Sample.pack_ab "a.b" "c/d").
  reflexivity.
Defined.

(** X11. The file [exportToTempfile] returns holds the bytes of the asset
    with its cursor at their end: read as it is, it gives nothing. *)
Theorem tempfile_returned_at_end (TemporaryFile : string -> string -> res pyval)
        (t : list (string * bytes)) (self : AssetPack) (packpath : string)
        (b : bytes) (n : pyval) (w : world) :
  tree self = py_of_tree t ->
  tree_get t packpath = Some b ->
  TemporaryFile "AssetPackTempFile" ("." +:+ List.last (Str.split dot packpath) "") = Ok n ->
  exists f w',
    exportToTempfile TemporaryFile self packpath w = (Ok f, w')
    /\ heap w' !! f = Some (mkStream b (length b) (Some n))
    /\ fst (Stream.read f w') = Ok [].
Proof.
  intros Ht Hb Htmp.
  destruct (exportToTempfile_run TemporaryFile t self packpath n w Ht Htmp) as [_ Hrun].
  rewrite Hb in Hrun. destruct Hrun as (h & w' & Hx & _ & Hheap & _).
  eexists. exists w'. split; [exact Hx|].
  assert (Hf : heap w' !! fresh (dom (heap (add_log (EvTemporaryFile "AssetPackTempFile"
                 ("." +:+ List.last (Str.split dot packpath) "")) w)))
               = Some (mkStream b (length b) (Some n))).
  { rewrite Hheap. apply lookup_insert_eq. }
  split; [exact Hf|].
  unfold Stream.read. rewrite Hf. simpl. now rewrite drop_all.
Qed.

Lemma tempfile_returned_at_end_witness :
  exists f w',
    exportToTempfile Ref.TemporaryFile Sample.pack_ab "a/b.txt" Sample.empty_world
    = (Ok f, w')
    /\ heap w' !! f = Some (mkStream [x68; x69] (length [x68; x69]) (Some (PyInt 3)))
    /\ fst (Stream.read f w') = Ok [].
Proof.
  apply (tempfile_returned_at_end Ref.TemporaryFile Sample.tree_t_ab Sample.pack_ab
           "a/b.txt" [x68; x69] (PyInt 3) Sample.empty_world).
  - reflexivity.
  - reflexivity.
  - reflexivity.
Defined.

(** X12. [exportToTempfile] of a path that is not in [tree]: the temporary
    file is made before the asset is looked up, so [TemporaryFile] has been
    called and has made its file, still empty, when [KeyError] is raised. *)
Theorem tempfile_made_before_lookup (TemporaryFile : string -> string -> res pyval)
        (t : list (string * bytes)) (self : AssetPack) (packpath : string)
        (n : pyval) (w : world) :
  tree self = py_of_tree t ->
  tree_get t packpath = None ->
  TemporaryFile "AssetPackTempFile" ("." +:+ List.last (Str.split dot packpath) "") = Ok n ->
  exists f w',
    exportToTempfile TemporaryFile self packpath w = (Raise (KeyError (KStr packpath)), w')
    /\ heap w !! f = None
    /\ heap w' !! f = Some (mkStream [] 0 (Some n)).
Proof.
  intros Ht Hb Htmp.
  destruct (exportToTempfile_run TemporaryFile t self packpath n w Ht Htmp) as [Hfresh Hrun].
  rewrite Hb in Hrun.
  eexists. eexists. split; [exact Hrun|]. split; [exact Hfresh|].
  simpl. apply lookup_insert_eq.
Qed.

Lemma tempfile_made_before_lookup_witness :
  exists f w',
    exportToTempfile Ref.TemporaryFile Sample.pack_ab "a/c.txt" Sample.empty_world
    = (Raise (KeyError (KStr "a/c.txt")), w')
    /\ heap Sample.empty_world !! f = None
    /\ heap w' !! f = Some (mkStream [] 0 (Some (PyInt 3))).
Proof.
  apply (tempfile_made_before_lookup Ref.TemporaryFile Sample.tree_t_ab Sample.pack_ab
           "a/c.txt" (PyInt 3) Sample.empty_world).
  - reflexivity.
  - reflexivity.
  - reflexivity.
Defined.

(** ** What [extract] leaves alone *)

Lemma fs_kept_refl (w : world) : fs_kept w w.
Proof.
  split; [reflexivity|]. split; [apply keeps_dirs_refl|]. intros q d H. now exists d.
Qed.

Lemma fs_kept_trans (w1 w2 w3 : world) : fs_kept w1 w2 -> fs_kept w2 w3 -> fs_kept w1 w3.
Proof.
  intros (Hc1 & Hd1 & Hf1) (Hc2 & Hd2 & Hf2). split; [congruence|].
  split; [eapply keeps_dirs_trans; eauto|].
  intros q d H. destruct (Hf1 q d H) as [d' H']. now apply (Hf2 q d').
Qed.

Lemma getfile_shape (self : AssetPack) (k : string) (w : world) (r : res nat) (w1 : world) :
  getfile self k w = (r, w1) -> fs w1 = fs w /\ cwd w1 = cwd w.
Proof.
  unfold getfile, bind, lift. destruct (subscript _ _) as [v|e].
  - destruct v; simpl; intros H; inversion H; subst; split; reflexivity.
  - intros H; inversion H; subst; split; reflexivity.
Qed.

Lemma stream_read_shape (h : nat) (w : world) (r : res bytes) (w1 : world) :
  Stream.read h w = (r, w1) -> fs w1 = fs w /\ cwd w1 = cwd w.
Proof.
  unfold Stream.read. destruct (heap w !! h); intros H; inversion H; subst; split; reflexivity.
Qed.

(** Whatever its outcome, [exportfile] touches at most the node its
    destination leads to, which it leaves a file. *)
Lemma exportfile_shape (self : AssetPack) (packpath p : string) (w : world)
      (r : res unit) (w1 : world) :
  exportfile self packpath p w = (r, w1) ->
  cwd w1 = cwd w /\ log w1 = log w
  /\ (fs w1 = fs w
      \/ exists T data, FS.locate w p = Some T /\ FS.node_at (fs w) T <> Some Dir
                        /\ fs w1 = <[T := File data]> (fs w)).
Proof.
  unfold exportfile. unfold bind at 1.
  destruct (FS.open_wb p w) as [[T|e] w0] eqn:Ho.
  - apply open_wb_inv in Ho as (Hloc & _ & Hnd & ->).
    unfold bind at 1.
    destruct (getfile self packpath _) as [[h|e] w2] eqn:Hg.
    + pose proof (getfile_shape _ _ _ _ _ Hg) as [Hf2 Hc2].
      pose proof (getfile_same_log _ _ _ _ _ Hg) as Hl2.
      unfold bind at 1.
      destruct (Stream.read h w2) as [[data|e] w3] eqn:Hr.
      * pose proof (stream_read_shape _ _ _ _ Hr) as [Hf3 Hc3].
        pose proof (stream_read_same_log _ _ _ _ Hr) as Hl3.
        unfold FS.write_at. intros H. inversion H; subst.
        unfold same_log in *. simpl in *.
        split; [congruence|]. split; [congruence|].
        right. exists T, data. split; [exact Hloc|]. split; [exact Hnd|].
        rewrite Hf3, Hf2. apply insert_insert_eq.
      * pose proof (stream_read_shape _ _ _ _ Hr) as [Hf3 Hc3].
        pose proof (stream_read_same_log _ _ _ _ Hr) as Hl3.
        intros H. inversion H; subst. unfold same_log in *. simpl in *.
        split; [congruence|]. split; [congruence|].
        right. exists T, []. split; [exact Hloc|]. split; [exact Hnd|]. congruence.
    + pose proof (getfile_shape _ _ _ _ _ Hg) as [Hf2 Hc2].
      pose proof (getfile_same_log _ _ _ _ _ Hg) as Hl2.
      intros H. inversion H; subst. unfold same_log in *. simpl in *.
      split; [congruence|]. split; [congruence|].
      right. exists T, []. split; [exact Hloc|]. split; [exact Hnd|]. congruence.
  - apply open_wb_raise in Ho as [_ ->].
    intros H. inversion H; subst. repeat split; auto.
Qed.

Lemma makedirs_kept (p : string) (w : world) (r : res unit) (w1 : world) :
  FS.makedirs p w = (r, w1) -> fs_kept w w1.
Proof.
  intros H. apply makedirs_shape in H as (Hc & _ & Hk & _).
  split; [exact Hc|]. split; [now apply keeps_nodes_dirs|].
  intros q d Hq. exists d. now apply Hk.
Qed.

Lemma exportfile_kept (self : AssetPack) (packpath p : string) (w : world)
      (r : res unit) (w1 : world) :
  exportfile self packpath p w = (r, w1) -> fs_kept w w1.
Proof.
  intros H. apply exportfile_shape in H as (Hc & _ & [Hf|(T & data & _ & Hnd & Hf)]).
  - split; [exact Hc|]. rewrite Hf. split; [apply keeps_dirs_refl|].
    intros q d Hq. now exists d.
  - split; [exact Hc|]. rewrite Hf. split; [now apply keeps_dirs_insert_file|].
    intros q d Hq. destruct (decide (T = q)) as [->|Hne].
    + exists data. apply lookup_insert_eq.
    + exists d. now rewrite lookup_insert_ne.
Qed.

Lemma emit_kept (e : event) (w : world) (r : res unit) (w1 : world) :
  emit e w = (r, w1) -> fs_kept w w1.
Proof.
  intros H. inversion H; subst. simpl.
  split; [reflexivity|]. split; [apply keeps_dirs_refl|]. intros q d Hq. now exists d.
Qed.

(** X7. [extract] takes nothing away, whatever the pack holds and whether
    it returns or raises: the working directory is the same, every
    directory is still a directory and every file is still a file (its
    bytes may have been replaced). *)
Theorem extract_takes_nothing_away (self : AssetPack) (epath : string) (w : world) :
  fs_kept w (snd (extract self epath w)).
Proof.
  destruct (extract self epath w) as [r w1] eqn:H. simpl. revert H.
  unfold extract.
  apply (bind_rel fs_kept); [apply fs_kept_trans | apply lift_rel, fs_kept_refl |].
  intros keys.
  apply (bind_rel fs_kept); [apply fs_kept_trans | apply emit_kept |].
  intros [].
  apply (bind_rel fs_kept); [apply fs_kept_trans | apply lift_rel, fs_kept_refl |].
  intros items.
  apply (for_each_rel fs_kept); [apply fs_kept_refl | apply fs_kept_trans |].
  intros kv w0 r0 w2 _. unfold extract_item.
  apply (bind_rel fs_kept); [apply fs_kept_trans | apply lift_rel, fs_kept_refl |].
  intros parts.
  apply (bind_rel fs_kept); [apply fs_kept_trans | apply makedirs_kept |].
  intros [].
  apply (bind_rel fs_kept); [apply fs_kept_trans | apply lift_rel, fs_kept_refl |].
  intros fl.
  apply (bind_rel fs_kept); [apply fs_kept_trans | apply lift_rel, fs_kept_refl |].
  intros dl.
  apply (bind_rel fs_kept); [apply fs_kept_trans | apply lift_rel, fs_kept_refl |].
  intros dirs_l.
  apply (bind_rel fs_kept); [apply fs_kept_trans | |].
  { apply (for_each_rel fs_kept); [apply fs_kept_refl | apply fs_kept_trans |].
    intros dn w3 r3 w4 _.
    apply (bind_rel fs_kept); [apply fs_kept_trans | apply lift_rel, fs_kept_refl |].
    intros q. apply makedirs_kept. }
  intros [].
  apply (bind_rel fs_kept); [apply fs_kept_trans | apply lift_rel, fs_kept_refl |].
  intros files_l.
  apply (bind_rel fs_kept); [apply fs_kept_trans | | intros []; apply emit_kept].
  apply (for_each_rel fs_kept); [apply fs_kept_refl | apply fs_kept_trans |].
  intros file w3 r3 w4 _.
  apply (bind_rel fs_kept); [apply fs_kept_trans | apply lift_rel, fs_kept_refl |].
  intros packpath.
  apply (bind_rel fs_kept); [apply fs_kept_trans | apply lift_rel, fs_kept_refl |].
  intros q. apply exportfile_kept.
Qed.

(** ** Where [extract] writes *)

Lemma confined_refl (base : list string) (epath : string) (w : world) :
  confined base epath w w.
Proof. split; [reflexivity|]. intros _ q b H. now left. Qed.

Lemma confined_trans (base : list string) (epath : string) (w1 w2 w3 : world) :
  confined base epath w1 w2 -> confined base epath w2 w3 -> confined base epath w1 w3.
Proof.
  intros [C1 H1] [C2 H2]. split; [congruence|]. intros Hb q b Hq.
  destruct (H2 (eq_trans C1 Hb) q b Hq) as [Hq2|Hk]; [|now right].
  now apply H1.
Qed.

Lemma confined_log (base : list string) (epath : string) (e : event) (w : world) :
  confined base epath w (add_log e w).
Proof. split; [reflexivity|]. intros _ q b H. now left. Qed.

Lemma makedirs_confined (base : list string) (epath p : string) (w : world)
      (r : res unit) (w1 : world) :
  FS.makedirs p w = (r, w1) -> confined base epath w w1.
Proof.
  intros H. apply makedirs_shape in H as (Hc & _ & _ & Hf).
  split; [exact Hc|]. intros _ q b Hq. left. now apply Hf.
Qed.

Lemma exportfile_confined (self : AssetPack) (base : list string)
      (epath packpath key file : string) (w : world) (r : res unit) (w1 : world) :
  key_ok key = true -> plain file = true ->
  exportfile self packpath (Posixpath.join epath (Str.split slash key ++ [file])) w = (r, w1) ->
  confined base epath w w1.
Proof.
  intros Hk Hp H.
  apply exportfile_shape in H as (Hc & _ & [Hf|(T & data & Hloc & _ & Hf)]).
  - split; [exact Hc|]. intros _ q b Hq. left. now rewrite <- Hf.
  - split; [exact Hc|]. intros Hb q b Hq.
    rewrite (locate_file epath base key file w Hb Hk Hp) in Hloc.
    apply (resolve_target epath base key file _ _ Hk Hp) in Hloc. subst T.
    rewrite Hf in Hq. destruct (decide (target base epath key file = q)) as [<-|Hne].
    + right. now exists (kcomps key ++ [file]).
    + left. now rewrite lookup_insert_ne in Hq.
Qed.

Lemma item_confined (self : AssetPack) (base : list string) (epath : string)
      (keys : list pykey) (kv : string * dir_entry) (w : world) (r : res unit) (w1 : world) :
  key_ok (fst kv) && entry_ok (snd kv) = true ->
  item_typed self epath keys kv w = (r, w1) -> confined base epath w w1.
Proof.
  intros Hok. apply andb_true_iff in Hok as [Hk He]. apply andb_true_iff in He as [Hpf _].
  revert w r w1. unfold item_typed.
  apply (bind_rel (confined base epath));
    [apply confined_trans | intros w r w1; apply makedirs_confined |].
  intros [].
  apply (bind_rel (confined base epath)); [apply confined_trans | |].
  { apply (for_each_rel (confined base epath));
      [apply confined_refl | apply confined_trans |].
    intros dn w r w1 _. apply makedirs_confined. }
  intros [].
  apply (bind_rel (confined base epath)); [apply confined_trans | |].
  { apply (for_each_rel (confined base epath));
      [apply confined_refl | apply confined_trans |].
    intros file w r w1 Hin. apply exportfile_confined; [exact Hk|].
    eapply forallb_In; eauto. }
  intros [] w r w1 H. inversion H; subst. apply confined_log.
Qed.

(** X9. An archive whose directory paths are empty or made of plain names
    and whose file and subdirectory names are plain is extracted under
    [epath] only: whether [extract] returns or raises, a file that is there
    afterwards was there before with the same bytes, or its place lies
    under the directory [epath] names. *)
Theorem extract_writes_under_destination (p : pyval) (t : list (string * bytes))
        (d : list (string * dir_entry)) (epath : string) (w : world) :
  plain_names d = true ->
  forall q b,
    fs (snd (extract (mkPack p (py_of_tree t) (py_of_dirinfo d)) epath w)) !! q = Some (File b) ->
    fs w !! q = Some (File b) \/ exists k, q = dest (cwd w) epath ++ k.
Proof.
  intros Hplain q b. rewrite extract_typed. cbv zeta.
  destruct (for_each d _ _) as [r w1] eqn:H. simpl.
  assert (HC : confined (cwd w) epath (add_log (EvTqdm (length d)) w) w1).
  { revert H. apply (for_each_rel (confined (cwd w) epath));
      [apply confined_refl | apply confined_trans |].
    intros kv w0 r0 w2 Hin. apply item_confined. eapply forallb_In in Hplain; eauto. }
  destruct HC as [_ HC]. intros Hq. now apply HC.
Qed.

Lemma extract_writes_under_destination_witness :
  plain_names Sample.dirinfo_t_gap = true
  /\ forall q b,
      fs (snd (extract (mkPack (PyStr "g.pack") (py_of_tree [])
                               (py_of_dirinfo Sample.dirinfo_t_gap))
                       "out" Sample.world_old)) !! q = Some (File b) ->
      fs Sample.world_old !! q = Some (File b)
      \/ exists k, q = dest (cwd Sample.world_old) "out" ++ k.
Proof.
  split; [reflexivity|].
  apply (extract_writes_under_destination (PyStr "g.pack") [] Sample.dirinfo_t_gap
           "out" Sample.world_old).
  reflexivity.
Defined.

(** ** A second extraction *)

Lemma for_each_run {A} (I : world -> Prop) (body : A -> M unit) (l : list A) :
  (forall x w, In x l -> I w -> exists w', body x w = (Ok tt, w') /\ I w') ->
  forall w, I w -> exists w', for_each l body w = (Ok tt, w') /\ I w'.
Proof.
  induction l as [|x l IH]; intros Hbody w Hw.
  - exists w. split; [reflexivity | exact Hw].
  - destruct (Hbody x w (or_introl eq_refl) Hw) as (w1 & Hx & H1).
    destruct (IH (fun y a Hy => Hbody y a (or_intror Hy)) w1 H1) as (w2 & Hrest & H2).
    exists w2. split; [|exact H2]. simpl. now rewrite (bind_ok _ _ _ _ _ Hx).
Qed.

(** What a completed extraction has reached. *)
Lemma extract_done (p : pyval) (t : list (string * bytes)) (d : list (string * dir_entry))
      (epath : string) (w w' : world) :
  plain_names d = true ->
  extract (mkPack p (py_of_tree t) (py_of_dirinfo d)) epath w = (Ok tt, w') ->
  cwd w' = cwd w
  /\ forall kv, In kv d ->
       item_done t (cwd w) epath kv w'
       /\ forall file, In file (files (snd kv)) ->
            exists b, tree_get t (fst kv +:+ "/" +:+ file) = Some b.
Proof.
  intros Hplain Hrun.
  rewrite extract_typed in Hrun. cbv zeta in Hrun.
  pose proof Hrun as Hrun'.
  apply (for_each_post (Pres t (cwd w) epath) (item_done t (cwd w) epath)) in Hrun'
    as [[Hcwd _] Hdone].
  2:{ apply Pres_refl. }
  2:{ apply Pres_trans. }
  2:{ intros kv a b Hkv. apply item_done_stable. eapply forallb_In in Hplain; eauto. }
  2:{ intros kv a b Hkv.
      apply (item_step t (mkPack p (py_of_tree t) (py_of_dirinfo d)) eq_refl).
      eapply forallb_In in Hplain; eauto. }
  split; [exact Hcwd|]. intros kv Hin. split; [now apply Hdone|].
  intros file Hf.
  destruct (tree_get t (fst kv +:+ "/" +:+ file)) as [b|] eqn:Hb; [now exists b|].
  exfalso. revert Hrun. apply (for_each_blocked _ _ kv Hin).
  destruct kv as [key e]. now apply (item_blocked t d p epath key file e).
Qed.

Lemma exportfile_opened (t : list (string * bytes)) (self : AssetPack)
      (packpath p : string) (b : bytes) (w w0 : world) (T : list string) :
  tree self = py_of_tree t ->
  tree_get t packpath = Some b ->
  FS.open_wb p w = (Ok T, w0) ->
  exists w',
    exportfile self packpath p w = (Ok tt, w')
    /\ fs w' = <[T := File b]> (fs w) /\ cwd w' = cwd w /\ log w' = log w.
Proof.
  intros Ht Hb Ho. unfold exportfile. rewrite (bind_ok _ _ _ _ _ Ho).
  apply open_wb_inv in Ho as (_ & _ & _ & ->).
  rewrite (bind_ok _ _ _ _ _ (getfile_tree t self Ht packpath b _ Hb)).
  erewrite bind_ok by (apply read_fresh_stream, lookup_insert_eq).
  eexists. split; [reflexivity|]. simpl. split; [apply insert_insert_eq|]. split; reflexivity.
Qed.

Lemma target_nonempty (base : list string) (epath key file : string) :
  target base epath key file <> [].
Proof.
  unfold target. intros E. apply (f_equal (@length string)) in E.
  rewrite !length_app in E. simpl in E. lia.
Qed.

Lemma item_again (t : list (string * bytes)) (self : AssetPack) (epath : string)
      (keys : list pykey) (kv : string * dir_entry) (w1 w0 : world) :
  tree self = py_of_tree t ->
  key_ok (fst kv) && entry_ok (snd kv) = true ->
  settled kv ->
  item_done t (cwd w1) epath kv w1 ->
  (forall file, In file (files (snd kv)) ->
     exists b, tree_get t (fst kv +:+ "/" +:+ file) = Some b) ->
  fs w0 = fs w1 /\ cwd w0 = cwd w1 ->
  exists w', item_typed self epath keys kv w0 = (Ok tt, w')
             /\ (fs w' = fs w1 /\ cwd w' = cwd w1).
Proof.
  intros Ht Hok Hset (Hd & Hds & Hfs) Hall HI.
  apply andb_true_iff in Hok as [Hk He]. apply andb_true_iff in He as [Hpf _].
  assert (Hdir : forall q a, fs a = fs w1 /\ cwd a = cwd w1 ->
                 FS.is_directory q w1 = true -> FS.makedirs q a = (Ok tt, a)).
  { intros q a [Ha1 Ha2] Hq. apply makedirs_existing.
    apply (is_directory_mono q w1 a Ha2); [|exact Hq].
    rewrite Ha1. apply keeps_dirs_refl. }
  unfold item_typed.
  rewrite (bind_ok _ _ _ _ _ (Hdir _ w0 HI (Hd Hset eq_refl))).
  destruct (for_each_run (fun a => fs a = fs w1 /\ cwd a = cwd w1)
              (fun dn => FS.makedirs (Posixpath.join epath (Str.split slash (fst kv) ++ [dn])))
              (dirs (snd kv))) with (w := w0) as (w2 & H2 & I2); [|exact HI|].
  { intros dn a Hdn Ha. exists a. split; [|exact Ha].
    apply (Hdir _ a Ha). now apply Hds. }
  rewrite (bind_ok _ _ _ _ _ H2).
  destruct (for_each_run (fun a => fs a = fs w1 /\ cwd a = cwd w1)
              (fun file => exportfile self (fst kv +:+ "/" +:+ file)
                             (Posixpath.join epath (Str.split slash (fst kv) ++ [file])))
              (files (snd kv))) with (w := w2) as (w3 & H3 & I3); [|exact I2|].
  { intros file a Hf [Ha1 Ha2].
    assert (Hplain : plain file = true) by (eapply forallb_In; eauto).
    destruct (Hall file Hf) as [b Hb].
    destruct (Hfs file b Hf Hb eq_refl) as (Hloc & Hnode & Href).
    assert (Hloc' : FS.locate a (Posixpath.join epath (Str.split slash (fst kv) ++ [file]))
                    = Some (target (cwd w1) epath (fst kv) file)).
    { apply (locate_kept _ w1 a _ Ha2); [|exact Hloc]. rewrite Ha1. apply keeps_dirs_refl. }
    assert (Hopen : FS.open_wb (Posixpath.join epath (Str.split slash (fst kv) ++ [file])) a
                    = (Ok (target (cwd w1) epath (fst kv) file),
                       set_fs (<[target (cwd w1) epath (fst kv) file := File []]> (fs a)) a)).
    { apply open_wb_ok; [exact Href | exact Hloc' | |].
      - rewrite join_snoc, last_split_join2 by now apply plain_segment.
        unfold plain in Hplain. now apply andb_true_iff in Hplain as [Hn _].
      - unfold FS.node_at.
        destruct (target (cwd w1) epath (fst kv) file) eqn:E;
          [now apply target_nonempty in E|].
        rewrite Ha1, Hnode. discriminate. }
    destruct (exportfile_opened t self _ _ b a _ _ Ht Hb Hopen) as (a' & Hx & Hf' & Hc' & _).
    exists a'. split; [exact Hx|]. split; [|congruence].
    rewrite Hf', Ha1. apply insert_id. exact Hnode. }
  rewrite (bind_ok _ _ _ _ _ H3).
  eexists. split; [reflexivity|]. exact I3.
Qed.

(** X6. Extracting again is harmless: after [extract] of an archive with
    plain names and no empty entry of the root has returned, a second
    [extract] to the same [epath] returns as well and leaves the file system
    as the first one left it. (For an empty entry of the root see
    [makedirs_returns_on_a_file].) *)
Theorem extract_again_changes_nothing (p : pyval) (t : list (string * bytes))
        (d : list (string * dir_entry)) (epath : string) (w w1 : world) :
  plain_names d = true ->
  (forall kv, In kv d -> settled kv) ->
  extract (mkPack p (py_of_tree t) (py_of_dirinfo d)) epath w = (Ok tt, w1) ->
  exists w2,
    extract (mkPack p (py_of_tree t) (py_of_dirinfo d)) epath w1 = (Ok tt, w2)
    /\ fs w2 = fs w1 /\ cwd w2 = cwd w1.
Proof.
  intros Hplain Hset Hrun.
  destruct (extract_done p t d epath w w1 Hplain Hrun) as [Hc Hdone].
  rewrite extract_typed. cbv zeta.
  apply (for_each_run (fun a => fs a = fs w1 /\ cwd a = cwd w1)); [|split; reflexivity].
  intros kv a Hin Ha.
  destruct (Hdone kv Hin) as [Hd Hall].
  apply (item_again t (mkPack p (py_of_tree t) (py_of_dirinfo d)) epath _ kv w1 a eq_refl);
    try assumption.
  - eapply forallb_In in Hplain; eauto.
  - now apply Hset.
  - now rewrite Hc.
Qed.

Lemma extract_again_changes_nothing_witness :
  exists w2,
    extract (mkPack (PyStr "a.pack") (py_of_tree Sample.tree_t_ab)
                    (py_of_dirinfo Sample.dirinfo_t_ab)) "/tmp/out" Sample.world_extracted
    = (Ok tt, w2)
    /\ fs w2 = fs Sample.world_extracted /\ cwd w2 = cwd Sample.world_extracted.
Proof.
  apply (extract_again_changes_nothing (PyStr "a.pack") Sample.tree_t_ab Sample.dirinfo_t_ab
           "/tmp/out" Sample.empty_world).
  - reflexivity.
  - intros kv [<-|[]]. left. discriminate.
  - vm_compute. reflexivity.
Defined.

(** ** The progress bar of [extract] *)

Lemma for_each_log {A} (g : A -> event) (body : A -> M unit) (l : list A) :
  (forall x w w', In x l -> body x w = (Ok tt, w') -> log w' = log w ++ [g x]) ->
  forall w w', for_each l body w = (Ok tt, w') -> log w' = log w ++ map g l.
Proof.
  induction l as [|x l IH]; intros Hbody w w' H; simpl in H.
  - inversion H; subst. simpl. now rewrite app_nil_r.
  - apply bind_ok_inv in H as ([] & w1 & Hx & Hrest).
    rewrite (IH (fun y a b Hy => Hbody y a b (or_intror Hy)) _ _ Hrest).
    rewrite (Hbody x w w1 (or_introl eq_refl) Hx), <- app_assoc. reflexivity.
Qed.

Lemma item_log (self : AssetPack) (epath : string) (keys : list pykey)
      (kv : string * dir_entry) (w w' : world) :
  item_typed self epath keys kv w = (Ok tt, w') ->
  log w' = log w ++ [EvUpdate (index_of (KStr (fst kv)) keys + 1)].
Proof.
  unfold item_typed. intros H.
  apply bind_ok_inv in H as ([] & w1 & H1 & H).
  apply bind_ok_inv in H as ([] & w2 & H2 & H).
  apply bind_ok_inv in H as ([] & w3 & H3 & H4).
  apply makedirs_shape in H1 as (_ & L1 & _).
  assert (L2 : same_log w1 w2).
  { revert H2. apply (for_each_rel same_log); [reflexivity | apply same_log_trans |].
    intros dn a r b _ Hm. now apply makedirs_shape in Hm as (_ & L & _). }
  assert (L3 : same_log w2 w3).
  { revert H3. apply (for_each_rel same_log); [reflexivity | apply same_log_trans |].
    intros file a r b _ Hx. now apply exportfile_shape in Hx as (_ & L & _). }
  inversion H4; subst. unfold same_log in *. simpl. congruence.
Qed.

Lemma index_of_app (k : pykey) (l1 l2 : list pykey) :
  ~ In k l1 -> index_of k (l1 ++ k :: l2) = length l1.
Proof.
  induction l1 as [|x l1 IH]; intros Hn; simpl.
  - now rewrite bool_decide_eq_true_2.
  - rewrite bool_decide_eq_false_2.
    + f_equal. apply IH. intros Hin. apply Hn. now right.
    + intros ->. apply Hn. now left.
Qed.

Lemma updates_seq (pre l : list (string * dir_entry)) :
  List.NoDup (map fst (pre ++ l)) ->
  map (fun kv : string * dir_entry =>
         EvUpdate (index_of (KStr (fst kv))
                            (map (fun kv0 : string * dir_entry => KStr (fst kv0)) (pre ++ l)) + 1)) l
  = map (fun i => EvUpdate (i + 1)) (seq (length pre) (length l)).
Proof.
  revert pre. induction l as [|kv l IH]; intros pre Hnd; [reflexivity|].
  cbn [map length seq]. f_equal.
  - rewrite map_app. cbn [map]. rewrite index_of_app; [now rewrite length_map|].
    rewrite map_app in Hnd. cbn [map] in Hnd. apply List.NoDup_remove_2 in Hnd.
    intros Hin. apply Hnd. apply in_or_app. left.
    apply in_map_iff in Hin as (x & Hx & Hin). injection Hx as E.
    apply in_map_iff. now exists x.
  - specialize (IH (pre ++ [kv])). rewrite <- app_assoc in IH. cbn [app] in IH.
    rewrite IH by exact Hnd. rewrite length_app. cbn [length].
    now rewrite Nat.add_1_r.
Qed.

Lemma advanced_app (l1 l2 : list event) : advanced (l1 ++ l2) = advanced l1 + advanced l2.
Proof.
  induction l1 as [|e l1 IH]; [reflexivity|]. simpl. fold (advanced (l1 ++ l2)).
  fold (advanced l1). rewrite IH. destruct e; lia.
Qed.

Lemma advanced_updates (a n : nat) :
  2 * advanced (map (fun i => EvUpdate (i + 1)) (seq a n)) = n * (2 * a + n + 1).
Proof.
  revert a. induction n as [|n IH]; intros a; [simpl; lia|].
  cbn [seq map]. change (advanced (?e :: ?l)) with
    (match e with EvUpdate k => k + advanced l | _ => advanced l end).
  cbv beta iota. specialize (IH (S a)). nia.
Qed.

(** X8. The progress bar of a completed [extract] of an index with [n]
    directories: it is made with total [n], and after the directory at
    position [i] (from 0) [update] is called with [i + 1], not with 1; the
    calls advance the bar by [n * (n + 1) / 2] in all. Nothing else is
    written to the trace. *)
Theorem extract_progress_calls (p : pyval) (t : list (string * bytes))
        (d : list (string * dir_entry)) (epath : string) (w w' : world) :
  List.NoDup (map fst d) ->
  extract (mkPack p (py_of_tree t) (py_of_dirinfo d)) epath w = (Ok tt, w') ->
  log w' = log w ++ EvTqdm (length d)
                 :: map (fun i => EvUpdate (i + 1)) (seq 0 (length d))
  /\ 2 * advanced (log w') = 2 * advanced (log w) + length d * (length d + 1).
Proof.
  intros Hnd Hrun. rewrite extract_typed in Hrun. cbv zeta in Hrun.
  apply (for_each_log
           (fun kv => EvUpdate (index_of (KStr (fst kv))
                                  (map (fun kv0 : string * dir_entry => KStr (fst kv0)) d) + 1)))
    in Hrun.
  2:{ intros kv a b _. apply item_log. }
  assert (E : log w' = log w ++ EvTqdm (length d)
                             :: map (fun i => EvUpdate (i + 1)) (seq 0 (length d))).
  { rewrite Hrun. simpl. rewrite <- app_assoc. cbn [app]. do 2 f_equal.
    apply (updates_seq [] d Hnd). }
  split; [exact E|]. rewrite E, advanced_app.
  change (advanced (EvTqdm (length d) :: ?l)) with (advanced l).
  pose proof (advanced_updates 0 (length d)). nia.
Qed.

Lemma extract_progress_calls_witness :
  log (snd (extract Sample.pack_three "/tmp/out" Sample.empty_world))
  = log Sample.empty_world ++ EvTqdm (length Sample.dirinfo_t_three)
        :: map (fun i => EvUpdate (i + 1)) (seq 0 (length Sample.dirinfo_t_three))
  /\ 2 * advanced (log (snd (extract Sample.pack_three "/tmp/out" Sample.empty_world)))
     = 2 * advanced (log Sample.empty_world)
       + length Sample.dirinfo_t_three * (length Sample.dirinfo_t_three + 1).
Proof.
  apply (extract_progress_calls (PyStr "a.pack") Sample.tree_t_ab Sample.dirinfo_t_three
           "/tmp/out" Sample.empty_world).
  - repeat constructor; simpl; intuition discriminate.
  - vm_compute. reflexivity.
Defined.

(** The trace of that extraction: three directories, [update] called with
    1, 2 and 3, and the bar, whose total is 3, advanced by 6. *)
Example extract_progress_of_three :
  log (snd (extract Sample.pack_three "/tmp/out" Sample.empty_world))
  = [EvTqdm 3; EvUpdate 1; EvUpdate 2; EvUpdate 3]
  /\ advanced (log (snd (extract Sample.pack_three "/tmp/out" Sample.empty_world))) = 6.
Proof. split; vm_compute; reflexivity. Qed.

(** ** [AssetPackWrapper] *)

Lemma upto_last_slash_none (s : string) :
  Str.contains_char slash s = false -> Posixpath.upto_last_slash s = "".
Proof.
  destruct s as [|c t]; [reflexivity|]. cbn [Str.contains_char Posixpath.upto_last_slash].
  intros H. apply orb_false_iff in H as [H1 H2]. now rewrite H2, H1.
Qed.

Lemma upto_last_slash_app (folder name : string) :
  Str.contains_char slash name = false ->
  Posixpath.upto_last_slash (folder +:+ "/" +:+ name) = folder +:+ "/".
Proof.
  intros Hn. induction folder as [|c t IH].
  - change ("" +:+ "/" +:+ name) with (String slash name). change ("" +:+ "/") with (String slash "").
    cbn [Posixpath.upto_last_slash]. rewrite Hn. now rewrite bool_decide_eq_true_2.
  - rewrite (append_cons c t ("/" +:+ name)), (append_cons c t "/").
    cbn [Posixpath.upto_last_slash].
    assert (Hc : Str.contains_char slash ("/" +:+ name) = true) by reflexivity.
    rewrite contains_char_app, Hc, orb_true_r. now rewrite IH.
Qed.

Lemma all_slashes_app (folder : string) :
  folder <> "" -> Str.endswith_char slash folder = false ->
  Posixpath.all_slashes (folder +:+ "/") = false.
Proof.
  induction folder as [|c t IH]; intros Hne He; [congruence|].
  rewrite append_cons. cbn [Posixpath.all_slashes].
  destruct t as [|c' t'].
  - cbn [Str.endswith_char] in He. now rewrite He.
  - rewrite IH; [apply andb_false_r | discriminate | exact He].
Qed.

Lemma rstrip_slashes_app (folder : string) :
  Str.endswith_char slash folder = false ->
  Posixpath.rstrip_slashes (folder +:+ "/") = folder.
Proof.
  induction folder as [|c t IH]; intros He.
  - change ("" +:+ "/") with (String slash ""). cbn [Posixpath.rstrip_slashes].
    now rewrite bool_decide_eq_true_2.
  - rewrite append_cons. cbn [Posixpath.rstrip_slashes].
    destruct t as [|c' t'].
    + change ("" +:+ "/") with (String slash ""). cbn [Posixpath.rstrip_slashes].
      rewrite bool_decide_eq_true_2 by reflexivity.
      cbn [Str.endswith_char] in He. now rewrite He.
    + rewrite IH by exact He. reflexivity.
Qed.

Lemma dirname_folder (folder name : string) :
  Str.contains_char slash name = false ->
  folder <> "" -> Str.endswith_char slash folder = false ->
  Posixpath.dirname (folder +:+ "/" +:+ name) = folder.
Proof.
  intros Hn Hne He. unfold Posixpath.dirname. cbv zeta.
  rewrite (upto_last_slash_app folder name Hn).
  rewrite (all_slashes_app folder Hne He).
  rewrite bool_decide_eq_false_2.
  - cbn [negb andb]. now apply rstrip_slashes_app.
  - destruct folder; [congruence | discriminate].
Qed.

(** X13. [AssetPackWrapper] with [frozen] false never looks at the pack
    file: in any world, whether the file is there or not, it returns an
    emulator and changes nothing. Without a [resourcepath] the emulator is
    rooted at the folder part of [pack]: at [folder] for [folder/name], and
    at the empty path for a bare file name. With a [resourcepath] it is
    rooted there, whatever [pack] is. *)
Theorem wrapper_unfrozen_is_emulator
        (gz : bytes -> res bytes) (dec : bytes -> res string) (ev : string -> M pyval)
        (folder name : string) (w : world) :
  Str.contains_char slash name = false ->
  folder <> "" -> Str.endswith_char slash folder = false ->
  AssetPackWrapper gz dec ev (folder +:+ "/" +:+ name) false None w
  = (Ok (inr (mkEmulator folder)), w)
  /\ AssetPackWrapper gz dec ev name false None w = (Ok (inr (mkEmulator "")), w)
  /\ forall pack r, AssetPackWrapper gz dec ev pack false (Some r) w
                    = (Ok (inr (mkEmulator r)), w).
Proof.
  intros Hn Hne He. unfold AssetPackWrapper, ret. split; [|split].
  - now rewrite (dirname_folder folder name Hn Hne He).
  - unfold Posixpath.dirname. cbv zeta. now rewrite (upto_last_slash_none name Hn).
  - reflexivity.
Qed.

Lemma wrapper_unfrozen_is_emulator_witness :
  AssetPackWrapper Ref.gzip_decompress Ref.bytes_decode Ref.py_eval
                   ("game/resources" +:+ "/" +:+ "assets.packed") false None Sample.empty_world
  = (Ok (inr (mkEmulator "game/resources")), Sample.empty_world)
  /\ AssetPackWrapper Ref.gzip_decompress Ref.bytes_decode Ref.py_eval
                      "assets.packed" false None Sample.empty_world
     = (Ok (inr (mkEmulator "")), Sample.empty_world)
  /\ forall pack r, AssetPackWrapper Ref.gzip_decompress Ref.bytes_decode Ref.py_eval
                                     pack false (Some r) Sample.empty_world
                    = (Ok (inr (mkEmulator r)), Sample.empty_world).
Proof.
  apply (wrapper_unfrozen_is_emulator Ref.gzip_decompress Ref.bytes_decode Ref.py_eval
           "game/resources" "assets.packed" Sample.empty_world).
  - reflexivity.
  - discriminate.
  - reflexivity.
Defined.

(** ** [StreamingAssetPack] *)

(** X14. A [StreamingAssetPack] that has been built holds the pack
    [AssetPack(file)] gives, and every file its index lists is an asset of
    its tree whose bytes are read back from the temporary directory at
    [tempdir/key/file]; whatever directory [TemporaryDirectory] has made. *)
Theorem streaming_pack_is_extracted
        (gz : bytes -> res bytes) (dec : bytes -> res string) (ev : string -> M pyval)
        (TemporaryDirectory : string -> M string)
        (file : pyarg) (t : list (string * bytes)) (d : list (string * dir_entry))
        (sp : StreamingAssetPack) (w w' : world) :
  streaming_init gz dec ev TemporaryDirectory file w = (Ok sp, w') ->
  tree (assetpack sp) = py_of_tree t ->
  dirinfo (assetpack sp) = py_of_dirinfo d ->
  plain_names d = true ->
  (exists w1, init gz dec ev file w = (Ok (assetpack sp), w1))
  /\ forall key e f, In (key, e) d -> In f (files e) ->
       exists b, tree_get t (key +:+ "/" +:+ f) = Some b
                 /\ FS.read_file (Posixpath.join (tempdir sp) (Str.split slash key ++ [f])) w'
                    = (Ok b, w').
Proof.
  unfold streaming_init. intros H Ht Hd Hplain.
  apply bind_ok_inv in H as (a & w1 & Hinit & H).
  apply bind_ok_inv in H as (name & w2 & _ & H).
  apply bind_ok_inv in H as ([] & w3 & Hx & H).
  inversion H; subst. cbn [assetpack tempdir] in *.
  split; [now exists w1|].
  destruct a as [p tr di]. cbn [tree dirinfo] in Ht, Hd. subst tr di.
  destruct (extract_done p t d name w2 w' Hplain Hx) as [Hc Hdone].
  intros key e f Hin Hf.
  destruct (Hdone (key, e) Hin) as [(_ & _ & Hfs) Hall]. cbn [fst snd] in *.
  destruct (Hall f Hf) as [b Hb]. exists b. split; [exact Hb|].
  apply (file_done_read (cwd w2) name key f b w' Hc). now apply Hfs.
Qed.

Lemma streaming_pack_is_extracted_witness :
  (exists w1, init Ref.gzip_decompress Ref.bytes_decode Ref.py_eval (AStr "a.pack")
                   (Sample.world_with "a.pack" (Sample.archive Sample.text_ab))
              = (Ok Sample.pack_ab, w1))
  /\ forall key e f, In (key, e) Sample.dirinfo_t_ab -> In f (files e) ->
       exists b, tree_get Sample.tree_t_ab (key +:+ "/" +:+ f) = Some b
                 /\ FS.read_file (Posixpath.join "/tmp/assets.packed_streaming_pack_0"
                                                 (Str.split slash key ++ [f]))
                      (snd (streaming_init Ref.gzip_decompress Ref.bytes_decode Ref.py_eval
                              Ref.TemporaryDirectory (AStr "a.pack")
                              (Sample.world_with "a.pack" (Sample.archive Sample.text_ab))))
                    = (Ok b,
                       snd (streaming_init Ref.gzip_decompress Ref.bytes_decode Ref.py_eval
                              Ref.TemporaryDirectory (AStr "a.pack")
                              (Sample.world_with "a.pack" (Sample.archive Sample.text_ab)))).
Proof.
  apply (streaming_pack_is_extracted Ref.gzip_decompress Ref.bytes_decode Ref.py_eval
           Ref.TemporaryDirectory (AStr "a.pack") Sample.tree_t_ab Sample.dirinfo_t_ab
           (mkStreaming Sample.pack_ab "/tmp/assets.packed_streaming_pack_0")
           (Sample.world_with "a.pack" (Sample.archive Sample.text_ab))).
  - vm_compute. reflexivity.
  - reflexivity.
  - reflexivity.
  - reflexivity.
Defined.

(** ** Packs built from stream objects *)

Lemma decode_heap_at gz dec (ev : string -> M pyval) (h : nat) (p : pyval)
      (content : bytes) (w : world) :
  (forall text w0, heap (snd (ev text w0)) !! h = heap w0 !! h) ->
  heap (snd (decode gz dec ev p content w)) !! h = heap w !! h.
Proof.
  intros Hev. destruct (Bytes.startswith content marker) eqn:Hs.
  - rewrite (decode_header gz dec ev p content w Hs). cbv zeta.
    destruct (gz _); [|reflexivity].
    destruct (dec _) as [text|]; [|reflexivity].
    assert (E : heap (evaluated ev text
                        (add_log (EvEval text)
                           (add_log (EvDecompress (Bytes.replace marker [] content)) w))) !! h
                = heap w !! h).
    { unfold evaluated, untraced. cbn [snd heap]. now rewrite Hev. }
    destruct (fst (ev _ _)); [|exact E].
    destruct (subscript _ (KStr "tree")); [|exact E].
    destruct (subscript _ (KStr "dirinfo")); exact E.
  - now rewrite (decode_no_header gz dec ev p content w Hs).
Qed.

Lemma read_source_stream gz dec (ev : string -> M pyval) (h : nat) (w : world)
      (a : AssetPack) (w1 : world) :
  (forall text w0, heap (snd (ev text w0)) !! h = heap w0 !! h) ->
  init gz dec ev (AObj h) w = (Ok a, w1) ->
  exists s n, heap w !! h = Some s /\ s_name s = Some n
              /\ heap w1 !! h
                 = Some (mkStream (s_buf s) (max (s_pos s) (length (s_buf s))) (s_name s)).
Proof.
  intros Hev. unfold init, read_source. intros H.
  apply bind_ok_inv in H as (cp & wa & Hsrc & Hdec).
  apply bind_ok_inv in Hsrc as (content & wr & Hread & Hsrc).
  apply bind_ok_inv in Hsrc as (n & wn & Hname & Hret).
  inversion Hret; subst. clear Hret.
  unfold Stream.read in Hread. destruct (heap w !! h) as [s|] eqn:Hs; [|discriminate].
  inversion Hread; subst. clear Hread.
  unfold Stream.name in Hname. cbn [heap set_heap] in Hname.
  rewrite lookup_insert_eq in Hname. cbn [s_name] in Hname.
  destruct (s_name s) as [n0|] eqn:Hn; [|discriminate].
  inversion Hname; subst. clear Hname.
  exists s, n. split; [reflexivity|]. split; [exact Hn|].
  cbn [fst snd] in Hdec.
  match type of Hdec with
  | decode _ _ _ _ _ ?w0 = _ =>
      pose proof (decode_heap_at gz dec ev h n (drop (s_pos s) (s_buf s)) w0 Hev) as Hh
  end.
  rewrite Hdec in Hh. cbn [snd] in Hh.
  rewrite Hh. cbn [heap set_heap]. rewrite lookup_insert_eq. now rewrite Hn.
Qed.

(** X15. Building a pack from a stream object uses the stream up, as long
    as the payload, when it is evaluated, leaves the stream alone: once
    [AssetPack(stream)] has returned, the cursor of the stream is at its
    end, and building a second pack from the same object raises
    [MissingHeaderException], since nothing is left to read. *)
Theorem stream_used_up_by_construction
        (gz : bytes -> res bytes) (dec : bytes -> res string) (ev : string -> M pyval)
        (h : nat) (w : world) (a : AssetPack) (w1 : world) :
  (forall text w0, heap (snd (ev text w0)) !! h = heap w0 !! h) ->
  init gz dec ev (AObj h) w = (Ok a, w1) ->
  (exists w2, Stream.read h w1 = (Ok [], w2))
  /\ exists w3, init gz dec ev (AObj h) w1
                = (Raise (MissingHeaderException missing_header_msg), w3).
Proof.
  intros Hev H. apply (read_source_stream _ _ _ _ _ _ _ Hev) in H as (s & n & Hs & Hn & Hl).
  assert (Hd : drop (max (s_pos s) (length (s_buf s))) (s_buf s) = []).
  { apply drop_ge. lia. }
  split.
  - unfold Stream.read. rewrite Hl. cbn [s_pos s_buf]. rewrite Hd. eexists. reflexivity.
  - unfold init, read_source, bind, Stream.read. rewrite Hl. cbn [s_pos s_buf s_name].
    rewrite Hd. unfold Stream.name. cbn [heap set_heap]. rewrite lookup_insert_eq.
    cbn [s_name]. rewrite Hn. cbn [ret fst snd].
    rewrite (decode_no_header gz dec ev n [] _ eq_refl). eexists. reflexivity.
Qed.

(** A payload that rewinds the stream it is read from, such as
    [[file.seek(0), {...}][1]], leaves it ready for a second pack. *)
Example stream_rewound_by_payload :
  fst (init Ref.gzip_decompress Ref.bytes_decode (Ref.eval_rewinding 0) (AObj 0)
            Sample.world_opened) = Ok Sample.pack_ab
  /\ fst (init Ref.gzip_decompress Ref.bytes_decode (Ref.eval_rewinding 0) (AObj 0)
               (snd (init Ref.gzip_decompress Ref.bytes_decode (Ref.eval_rewinding 0) (AObj 0)
                          Sample.world_opened))) = Ok Sample.pack_ab.
Proof. split; vm_compute; reflexivity. Qed.

Lemma stream_used_up_by_construction_witness :
  (exists w2, Stream.read 0 (snd (init Ref.gzip_decompress Ref.bytes_decode Ref.py_eval
                                       (AObj 0) Sample.world_opened)) = (Ok [], w2))
  /\ exists w3, init Ref.gzip_decompress Ref.bytes_decode Ref.py_eval (AObj 0)
                     (snd (init Ref.gzip_decompress Ref.bytes_decode Ref.py_eval
                                (AObj 0) Sample.world_opened))
                = (Raise (MissingHeaderException missing_header_msg), w3).
Proof.
  apply (stream_used_up_by_construction Ref.gzip_decompress Ref.bytes_decode Ref.py_eval
           0 Sample.world_opened Sample.pack_ab).
  - intros text w0. reflexivity.
  - vm_compute. reflexivity.
Defined.

(** X16. A stream object without a [name] cannot be made a pack, whatever
    it holds: [AssetPack(stream)] reads the stream to its end and then
    raises [AttributeError] at [file.name], before the header is looked at
    and without a call to a collaborator. *)
Theorem nameless_stream_rejected
        (gz : bytes -> res bytes) (dec : bytes -> res string) (ev : string -> M pyval)
        (h : nat) (s : stream) (w : world) :
  heap w !! h = Some s -> s_name s = None ->
  init gz dec ev (AObj h) w
  = (Raise AttributeError,
     set_heap (<[h := mkStream (s_buf s) (max (s_pos s) (length (s_buf s))) None]> (heap w)) w).
Proof.
  intros Hs Hn. unfold init, read_source, bind, Stream.read. rewrite Hs.
  unfold Stream.name. cbn [heap set_heap]. rewrite lookup_insert_eq. cbn [s_name].
  rewrite Hn. reflexivity.
Qed.

Lemma nameless_stream_rejected_witness :
  init Ref.gzip_decompress Ref.bytes_decode Ref.py_eval (AObj 0) Sample.world_bytesio
  = (Raise AttributeError,
     set_heap (<[0 := mkStream (Sample.archive Sample.text_ab)
                               (max 0 (length (Sample.archive Sample.text_ab))) None]>
                 (heap Sample.world_bytesio)) Sample.world_bytesio).
Proof.
  apply (nameless_stream_rejected Ref.gzip_decompress Ref.bytes_decode Ref.py_eval 0
           (mkStream (Sample.archive Sample.text_ab) 0 None) Sample.world_bytesio).
  - reflexivity.
  - reflexivity.
Defined.

(** ** The emulator on an extracted pack *)

Lemma resolved_under_anchor (self : AssetPackEmulator) (cwd0 : list string)
      (filepath : string) (rest : list string) :
  Str.split slash filepath = "resources" :: rest ->
  Forall (fun x => plain x = true) rest -> rest <> [] ->
  Emulator.resolved self cwd0 filepath = Ok (Posixpath.join (basefolder self) rest).
Proof.
  intros Hsplit Hplain Hrest.
  assert (Hp : Forall (fun x => plain x = true) ("resources" :: rest))
    by (constructor; [reflexivity | exact Hplain]).
  assert (Habs : Posixpath.isabs filepath = false)
    by (eapply split_head_not_abs; [exact Hsplit | discriminate]).
  assert (Hne : filepath <> "")
    by (eapply split_head_not_empty; [exact Hsplit | discriminate]).
  assert (Hpl : Posixpath.abs_components cwd0 filepath = cwd0 ++ "resources" :: rest).
  { unfold Posixpath.abs_components. rewrite Habs, Hsplit. now apply fold_step_plain. }
  assert (Hsl : Posixpath.abs_components cwd0 "resources" = cwd0 ++ ["resources"]).
  { unfold Posixpath.abs_components. simpl. now rewrite step_plain. }
  unfold Emulator.resolved, Posixpath.relpath.
  rewrite bool_decide_eq_false_2 by exact Hne. cbn zeta. rewrite Hpl, Hsl.
  replace (cwd0 ++ "resources" :: rest) with ((cwd0 ++ ["resources"]) ++ rest)
    by now rewrite <- app_assoc.
  rewrite commonprefix_refl_app, Nat.sub_diag, drop_app_length. simpl.
  destruct rest as [|r rs]; [congruence|].
  rewrite split_join_first; [reflexivity|]. now apply Forall_plain_segment.
Qed.

Lemma forallb_plain_Forall (cs : list string) :
  forallb plain cs = true -> Forall (fun c => plain c = true) cs.
Proof.
  induction cs as [|c cs IH]; simpl; intros H; constructor;
    apply andb_true_iff in H as [H1 H2]; auto.
Qed.

(** X17. The emulator stands in for an extracted pack. After [extract] of
    an archive with plain names to [epath] has returned, an emulator
    rooted at [epath/resources] gives, for every file the index lists in
    a directory [resources/...], a stream that holds the bytes of that
    asset, the same [getfile] of the pack gives. *)
Theorem emulator_reads_extracted_assets (p : pyval) (t : list (string * bytes))
        (d : list (string * dir_entry)) (epath key file : string) (e : dir_entry)
        (krest : list string) (w w' : world) :
  plain_names d = true ->
  extract (mkPack p (py_of_tree t) (py_of_dirinfo d)) epath w = (Ok tt, w') ->
  In (key, e) d -> In file (files e) ->
  Str.split slash key = "resources" :: krest ->
  exists b h1 w1 w2 h2 w3 w4,
    Emulator.getfile (mkEmulator (Posixpath.join epath ["resources"]))
                     (key +:+ "/" +:+ file) w' = (Ok h1, w1)
    /\ Stream.read h1 w1 = (Ok b, w2)
    /\ getfile (mkPack p (py_of_tree t) (py_of_dirinfo d)) (key +:+ "/" +:+ file) w'
       = (Ok h2, w3)
    /\ Stream.read h2 w3 = (Ok b, w4).
Proof.
  intros Hplain Hrun Hin Hf Hsplit.
  destruct (extract_done p t d epath w w' Hplain Hrun) as [Hc Hdone].
  destruct (Hdone (key, e) Hin) as [(_ & _ & Hfs) Hall]. cbn [fst snd] in *.
  destruct (Hall file Hf) as [b Hb].
  assert (Hread : FS.read_file (Posixpath.join epath (Str.split slash key ++ [file])) w'
                  = (Ok b, w')).
  { apply (file_done_read (cwd w) epath key file b w' Hc). now apply Hfs. }
  pose proof (forallb_In _ _ _ Hplain Hin) as Hok. cbn [fst snd] in Hok.
  apply andb_true_iff in Hok as [Hk He]. apply andb_true_iff in He as [Hpf _].
  assert (Hpfile : plain file = true) by (eapply forallb_In; eauto).
  assert (Hkr : Forall (fun c => plain c = true) krest).
  { unfold key_ok in Hk. apply orb_true_iff in Hk as [Hk|Hk].
    - apply bool_decide_eq_true_1 in Hk. subst key. discriminate.
    - rewrite Hsplit in Hk. apply forallb_plain_Forall in Hk. now inversion Hk. }
  assert (Hsp : Str.split slash (key +:+ "/" +:+ file) = "resources" :: krest ++ [file]).
  { change ("/" +:+ file) with (String slash file).
    rewrite split_app_sep, Hsplit.
    rewrite (split_without_sep slash file); [reflexivity|].
    now apply plain_segment in Hpfile as [_ ?]. }
  assert (Hres : Emulator.resolved (mkEmulator (Posixpath.join epath ["resources"])) (cwd w')
                                   (key +:+ "/" +:+ file)
                 = Ok (Posixpath.join epath (Str.split slash key ++ [file]))).
  { rewrite (resolved_under_anchor _ _ _ (krest ++ [file]) Hsp).
    - rewrite Hsplit. reflexivity.
    - apply Forall_app. split; [exact Hkr | now constructor].
    - now destruct krest. }
  exists b. eexists. eexists. eexists. eexists. eexists. eexists.
  split; [|split; [|split]].
  - unfold Emulator.getfile, bind. rewrite Hres, Hread. reflexivity.
  - apply read_fresh_stream, lookup_insert_eq.
  - apply (getfile_tree t (mkPack p (py_of_tree t) (py_of_dirinfo d)) eq_refl _ b w' Hb).
  - apply read_fresh_stream, lookup_insert_eq.
Qed.

Lemma emulator_reads_extracted_assets_witness :
  exists b h1 w1 w2 h2 w3 w4,
    Emulator.getfile (mkEmulator (Posixpath.join "out" ["resources"]))
                     ("resources/img" +:+ "/" +:+ "a.png")
                     (snd (extract (mkPack (PyStr "r.pack")
                                      (py_of_tree [("resources/img/a.png", [x01; x02])])
                                      (py_of_dirinfo [("resources/img", mkEntry ["a.png"] [])]))
                                   "out" Sample.empty_world))
    = (Ok h1, w1)
    /\ Stream.read h1 w1 = (Ok b, w2)
    /\ getfile (mkPack (PyStr "r.pack")
                  (py_of_tree [("resources/img/a.png", [x01; x02])])
                  (py_of_dirinfo [("resources/img", mkEntry ["a.png"] [])]))
               ("resources/img" +:+ "/" +:+ "a.png")
               (snd (extract (mkPack (PyStr "r.pack")
                                (py_of_tree [("resources/img/a.png", [x01; x02])])
                                (py_of_dirinfo [("resources/img", mkEntry ["a.png"] [])]))
                             "out" Sample.empty_world))
       = (Ok h2, w3)
    /\ Stream.read h2 w3 = (Ok b, w4).
Proof.
  apply (emulator_reads_extracted_assets (PyStr "r.pack")
           [("resources/img/a.png", [x01; x02])]
           [("resources/img", mkEntry ["a.png"] [])]
           "out" "resources/img" "a.png" (mkEntry ["a.png"] []) ["img"]
           Sample.empty_world).
  - reflexivity.
  - vm_compute. reflexivity.
  - now left.
  - now left.
  - reflexivity.
Defined.

(** ** [extract_tozip] *)

Lemma chars_app (a b : string) :
  list_ascii_of_string (a +:+ b) = list_ascii_of_string a ++ list_ascii_of_string b.
Proof.
  induction a as [|x a IH]; [reflexivity|]. rewrite append_cons. simpl. now rewrite IH.
Qed.

Lemma contains_char_notin (c : ascii) (s : string) :
  Str.contains_char c s = false -> ~ In c (list_ascii_of_string s).
Proof.
  induction s as [|x s IH]; simpl; [tauto|]. intros H.
  apply orb_false_iff in H as [H1 H2]. apply bool_decide_eq_false_1 in H1.
  intros [E|E]; [congruence | now apply IH].
Qed.

Lemma rfind_absent (c : ascii) (l : list ascii) : ~ In c l -> Posixpath.rfind c l = None.
Proof.
  induction l as [|x l IH]; [reflexivity|]. intros H. simpl.
  rewrite IH by (intros E; apply H; now right).
  rewrite bool_decide_eq_false_2; [reflexivity|]. intros E. apply H. now left.
Qed.

Lemma rfind_app_absent (c : ascii) (l1 l2 : list ascii) :
  ~ In c l2 -> Posixpath.rfind c (l1 ++ l2) = Posixpath.rfind c l1.
Proof.
  intros H. induction l1 as [|x l1 IH]; simpl.
  - now apply rfind_absent.
  - now rewrite IH.
Qed.

Lemma rfind_last (c : ascii) (l1 l2 : list ascii) :
  ~ In c l2 -> Posixpath.rfind c (l1 ++ c :: l2) = Some (length l1).
Proof.
  intros H. induction l1 as [|x l1 IH]; simpl.
  - rewrite (rfind_absent c l2 H). now rewrite bool_decide_eq_true_2.
  - now rewrite IH.
Qed.

Lemma rfind_endswith (c : ascii) (s : string) :
  Str.endswith_char c s = true ->
  Posixpath.rfind c (list_ascii_of_string s) = Some (length (list_ascii_of_string s) - 1).
Proof.
  induction s as [|x s IH]; [discriminate|].
  destruct s as [|y s'].
  - simpl. intros H. now rewrite H.
  - intros H. change (Str.endswith_char c (String x (String y s')))
      with (Str.endswith_char c (String y s')) in H.
    specialize (IH H).
    change (list_ascii_of_string (String x (String y s')))
      with (x :: list_ascii_of_string (String y s')).
    cbn [Posixpath.rfind]. rewrite IH. simpl. f_equal. lia.
Qed.

(** The root [splitext] gives for a path [dirpart name . ext]. *)
Lemma splitext_root_ext (dirpart name ext : string) :
  dirpart = "" \/ Str.endswith_char slash dirpart = true ->
  name <> "" -> Str.startswith_char dot name = false ->
  Str.contains_char slash name = false ->
  Str.contains_char slash ext = false -> Str.contains_char dot ext = false ->
  Posixpath.splitext_root (dirpart +:+ name +:+ "." +:+ ext) = dirpart +:+ name.
Proof.
  intros Hd Hne Hnd Hns Hes Hed. unfold Posixpath.splitext_root. cbv zeta.
  assert (Hcs : list_ascii_of_string (dirpart +:+ name +:+ "." +:+ ext)
                = (list_ascii_of_string dirpart ++ list_ascii_of_string name)
                    ++ dot :: list_ascii_of_string ext).
  { rewrite !chars_app, <- app_assoc. reflexivity. }
  rewrite Hcs.
  rewrite (rfind_last dot _ _ (contains_char_notin dot ext Hed)).
  assert (Hsl : match Posixpath.rfind slash
                        ((list_ascii_of_string dirpart ++ list_ascii_of_string name)
                           ++ dot :: list_ascii_of_string ext) with
                | Some i => S i
                | None => 0
                end = length (list_ascii_of_string dirpart)).
  { rewrite <- app_assoc, rfind_app_absent.
    - destruct Hd as [->|Hd]; [reflexivity|].
      rewrite (rfind_endswith slash dirpart Hd).
      destruct dirpart; [discriminate|]. simpl. lia.
    - intros Hin. apply in_app_or in Hin as [Hin|[Hin|Hin]].
      + now apply (contains_char_notin slash name Hns).
      + discriminate.
      + now apply (contains_char_notin slash ext Hes). }
  rewrite Hsl, length_app.
  replace (Nat.leb (length (list_ascii_of_string dirpart))
                   (length (list_ascii_of_string dirpart) + length (list_ascii_of_string name)))
    with true by (symmetry; apply Nat.leb_le; lia).
  replace (length (list_ascii_of_string dirpart) + length (list_ascii_of_string name)
           - length (list_ascii_of_string dirpart))
    with (length (list_ascii_of_string name)) by lia.
  rewrite <- app_assoc, drop_app_length, take_app_length.
  assert (Hex : existsb (fun c => negb (bool_decide (c = dot))) (list_ascii_of_string name)
                = true).
  { destruct name as [|c name']; [congruence|]. simpl in *. now rewrite Hnd. }
  rewrite Hex. cbn [andb].
  rewrite app_assoc.
  replace (length (list_ascii_of_string dirpart) + length (list_ascii_of_string name))
    with (length (list_ascii_of_string dirpart ++ list_ascii_of_string name))
    by now rewrite length_app.
  rewrite take_app_length, <- chars_app. apply string_of_list_ascii_of_string.
Qed.

(** X18. [extract_tozip(efile)] that has returned, for an archive with
    plain names and [efile] of the form [dirpart name . ext]: the pack was
    extracted to the temporary directory, [make_archive] was called with
    the format [zip] and the base name [dirpart name], the extension of
    [efile] dropped whatever it is, on a directory in which every file the
    index lists reads back as the bytes of its asset, and the temporary
    directory was cleaned up afterwards. *)
Theorem extract_tozip_archives_extraction
        (TemporaryDirectory : string -> M string) (cleanup : string -> M unit)
        (make_archive : string -> string -> string -> M string)
        (p : pyval) (t : list (string * bytes)) (d : list (string * dir_entry))
        (dirpart name ext : string) (w w' : world) :
  plain_names d = true ->
  dirpart = "" \/ Str.endswith_char slash dirpart = true ->
  name <> "" -> Str.startswith_char dot name = false ->
  Str.contains_char slash name = false ->
  Str.contains_char slash ext = false -> Str.contains_char dot ext = false ->
  extract_tozip TemporaryDirectory cleanup make_archive
                (mkPack p (py_of_tree t) (py_of_dirinfo d))
                (dirpart +:+ name +:+ "." +:+ ext) w = (Ok tt, w') ->
  exists tempdir w1 w2 zip w3,
    TemporaryDirectory "assets.packed_zipexport_" w = (Ok tempdir, w1)
    /\ extract (mkPack p (py_of_tree t) (py_of_dirinfo d)) tempdir w1 = (Ok tt, w2)
    /\ (forall key e f, In (key, e) d -> In f (files e) ->
          exists b, tree_get t (key +:+ "/" +:+ f) = Some b
                    /\ FS.read_file (Posixpath.join tempdir (Str.split slash key ++ [f])) w2
                       = (Ok b, w2))
    /\ make_archive (dirpart +:+ name) "zip" tempdir w2 = (Ok zip, w3)
    /\ cleanup tempdir w3 = (Ok tt, w').
Proof.
  intros Hplain Hd Hne Hnd Hns Hes Hed.
  unfold extract_tozip, with_tempdir.
  rewrite (splitext_root_ext dirpart name ext Hd Hne Hnd Hns Hes Hed).
  intros H. apply bind_ok_inv in H as (tempdir & w1 & Htd & H).
  destruct (bind (extract _ tempdir) _ w1) as [[[]|e] wb] eqn:Hbody.
  2:{ destruct (cleanup tempdir wb) as [[?|?] ?]; discriminate. }
  apply bind_ok_inv in Hbody as ([] & w2 & Hx & Hbody).
  apply bind_ok_inv in Hbody as (zip & w3 & Hzip & Hret).
  inversion Hret; subst. clear Hret.
  destruct (cleanup tempdir wb) as [[[]|e] wc] eqn:Hcl; [|discriminate].
  inversion H; subst. clear H.
  exists tempdir, w1, w2, zip, wb.
  split; [exact Htd|]. split; [exact Hx|]. split; [|split; [exact Hzip | exact Hcl]].
  destruct (extract_done p t d tempdir w1 w2 Hplain Hx) as [Hc Hdone].
  intros key e f Hin Hf.
  destruct (Hdone (key, e) Hin) as [(_ & _ & Hfs) Hall]. cbn [fst snd] in *.
  destruct (Hall f Hf) as [b Hb]. exists b. split; [exact Hb|].
  apply (file_done_read (cwd w1) tempdir key f b w2 Hc). now apply Hfs.
Qed.

Lemma extract_tozip_archives_extraction_witness :
  exists tempdir w1 w2 zip w3,
    Ref.TemporaryDirectory "assets.packed_zipexport_" Sample.empty_world = (Ok tempdir, w1)
    /\ extract (mkPack (PyStr "a.pack") (py_of_tree Sample.tree_t_ab)
                       (py_of_dirinfo Sample.dirinfo_t_ab)) tempdir w1 = (Ok tt, w2)
    /\ (forall key e f, In (key, e) Sample.dirinfo_t_ab -> In f (files e) ->
          exists b, tree_get Sample.tree_t_ab (key +:+ "/" +:+ f) = Some b
                    /\ FS.read_file (Posixpath.join tempdir (Str.split slash key ++ [f])) w2
                       = (Ok b, w2))
    /\ Ref.make_archive ("" +:+ "out") "zip" tempdir w2 = (Ok zip, w3)
    /\ Ref.cleanup tempdir w3
       = (Ok tt,
          snd (extract_tozip Ref.TemporaryDirectory Ref.cleanup Ref.make_archive
                 (mkPack (PyStr "a.pack") (py_of_tree Sample.tree_t_ab)
                         (py_of_dirinfo Sample.dirinfo_t_ab))
                 ("" +:+ "out" +:+ "." +:+ "tar") Sample.empty_world)).
Proof.
  apply (extract_tozip_archives_extraction Ref.TemporaryDirectory Ref.cleanup Ref.make_archive
           (PyStr "a.pack") Sample.tree_t_ab Sample.dirinfo_t_ab "" "out" "tar"
           Sample.empty_world).
  - reflexivity.
  - now left.
  - discriminate.
  - reflexivity.
  - reflexivity.
  - reflexivity.
  - reflexivity.
  - vm_compute. reflexivity.
Defined.

(** X19. [StreamingAssetPack.__exit__] removes nothing: it calls
    [TemporaryDirectory.__exit__] without the three arguments that method
    takes, so the call raises [TypeError] and [cleanup] is not run. After
    a streaming pack has been built and [__exit__] called, every file the
    index lists is still read back from the temporary directory. *)
Theorem streaming_exit_leaves_tempdir
        (gz : bytes -> res bytes) (dec : bytes -> res string) (ev : string -> M pyval)
        (TemporaryDirectory : string -> M string) (cleanup : string -> M unit)
        (file : pyarg) (t : list (string * bytes)) (d : list (string * dir_entry))
        (sp : StreamingAssetPack) (w w' : world) :
  streaming_init gz dec ev TemporaryDirectory file w = (Ok sp, w') ->
  tree (assetpack sp) = py_of_tree t ->
  dirinfo (assetpack sp) = py_of_dirinfo d ->
  plain_names d = true ->
  streaming_exit cleanup sp w' = (Raise TypeError, w')
  /\ forall key e f, In (key, e) d -> In f (files e) ->
       exists b, tree_get t (key +:+ "/" +:+ f) = Some b
                 /\ FS.read_file (Posixpath.join (tempdir sp) (Str.split slash key ++ [f]))
                                 (snd (streaming_exit cleanup sp w'))
                    = (Ok b, snd (streaming_exit cleanup sp w')).
Proof.
  unfold streaming_init. intros H Ht Hd Hplain. split; [reflexivity|].
  change (snd (streaming_exit cleanup sp w')) with w'.
  apply bind_ok_inv in H as (a & w1 & Hinit & H).
  apply bind_ok_inv in H as (name & w2 & _ & H).
  apply bind_ok_inv in H as ([] & w3 & Hx & H).
  inversion H; subst. cbn [assetpack tempdir] in *.
  destruct a as [p tr di]. cbn [tree dirinfo] in Ht, Hd. subst tr di.
  destruct (extract_done p t d name w2 w' Hplain Hx) as [Hc Hdone].
  intros key e f Hin Hf.
  destruct (Hdone (key, e) Hin) as [(_ & _ & Hfs) Hall]. cbn [fst snd] in *.
  destruct (Hall f Hf) as [b Hb]. exists b. split; [exact Hb|].
  apply (file_done_read (cwd w2) name key f b w' Hc). now apply Hfs.
Qed.

Lemma streaming_exit_leaves_tempdir_witness :
  streaming_exit Ref.cleanup (mkStreaming Sample.pack_ab "/tmp/assets.packed_streaming_pack_0")
    (snd (streaming_init Ref.gzip_decompress Ref.bytes_decode Ref.py_eval
            Ref.TemporaryDirectory (AStr "a.pack")
            (Sample.world_with "a.pack" (Sample.archive Sample.text_ab))))
  = (Raise TypeError,
     snd (streaming_init Ref.gzip_decompress Ref.bytes_decode Ref.py_eval
            Ref.TemporaryDirectory (AStr "a.pack")
            (Sample.world_with "a.pack" (Sample.archive Sample.text_ab))))
  /\ forall key e f, In (key, e) Sample.dirinfo_t_ab -> In f (files e) ->
       exists b, tree_get Sample.tree_t_ab (key +:+ "/" +:+ f) = Some b
                 /\ FS.read_file
                      (Posixpath.join
                         (tempdir (mkStreaming Sample.pack_ab
                                               "/tmp/assets.packed_streaming_pack_0"))
                         (Str.split slash key ++ [f]))
                      (snd (streaming_exit Ref.cleanup
                              (mkStreaming Sample.pack_ab "/tmp/assets.packed_streaming_pack_0")
                              (snd (streaming_init Ref.gzip_decompress Ref.bytes_decode
                                      Ref.py_eval Ref.TemporaryDirectory (AStr "a.pack")
                                      (Sample.world_with "a.pack"
                                         (Sample.archive Sample.text_ab))))))
                    = (Ok b,
                       snd (streaming_exit Ref.cleanup
                              (mkStreaming Sample.pack_ab "/tmp/assets.packed_streaming_pack_0")
                              (snd (streaming_init Ref.gzip_decompress Ref.bytes_decode
                                      Ref.py_eval Ref.TemporaryDirectory (AStr "a.pack")
                                      (Sample.world_with "a.pack"
                                         (Sample.archive Sample.text_ab)))))).
Proof.
  apply (streaming_exit_leaves_tempdir Ref.gzip_decompress Ref.bytes_decode Ref.py_eval
           Ref.TemporaryDirectory Ref.cleanup (AStr "a.pack")
           Sample.tree_t_ab Sample.dirinfo_t_ab
           (mkStreaming Sample.pack_ab "/tmp/assets.packed_streaming_pack_0")
           (Sample.world_with "a.pack" (Sample.archive Sample.text_ab))).
  - vm_compute. reflexivity.
  - reflexivity.
  - reflexivity.
  - reflexivity.
Defined.
